(** * DocBot: the document ingestion and retrieval pipeline

    A shallow embedding of [src/vectorstore.py] (class [VectorStore]) and
    [src/chatbot.py] (class [Chatbot]).

    - Python [str] values are lists of Unicode code points, so that [len]
      is [length] and concatenation is [++].
    - The external services (PyMuPDF, the Cohere client, the Pinecone
      client) are an interface, [Providers]; every request made to them and
      every line printed is recorded, in program order, in the list of
      events a computation emits.
    - Exceptions are explicit: a computation returns [Ok v] or [Raise e]. *)

From stdpp Require Import gmap strings list pretty.
From Stdlib Require Import ZArith Lia Ascii Floats.PrimFloat.

(** ** Python strings *)

Module PyStr.

(** A character is its code point; a string is the list of its characters. *)
Abbreviation char := N (only parsing).
Abbreviation str := (list N) (only parsing).

(** A literal of the source, as code points (literals here are ASCII). *)
Definition lit (s : string) : str :=
  map N_of_ascii (String.list_ascii_of_string s).

Definition dot : char := 46%N.
Definition space : char := 32%N.

(** [len(s)], a Python integer. *)
Definition len (s : str) : Z := Z.of_nat (length s).

(** [ch.isspace()] for one character: the code points CPython's
    [_PyUnicode_IsWhitespace] accepts; [str.strip()] removes exactly these. *)
Definition isspace (c : char) : bool :=
  ((9 <=? c) && (c <=? 13) || (28 <=? c) && (c <=? 32)
   || (c =? 133) || (c =? 160) || (c =? 5760)
   || (8192 <=? c) && (c <=? 8202)
   || (c =? 8232) || (c =? 8233) || (c =? 8239) || (c =? 8287)
   || (c =? 12288))%N.

Fixpoint lstrip (s : str) : str :=
  match s with
  | [] => []
  | c :: r => if isspace c then lstrip r else s
  end.

Definition rstrip (s : str) : str := rev (lstrip (rev s)).

(** [s.strip()] *)
Definition strip (s : str) : str := rstrip (lstrip s).

Definition push_front (c : char) (parts : list str) : list str :=
  match parts with
  | [] => [[c]]
  | p :: ps => (c :: p) :: ps
  end.

(** [s.split(sep)] for the two-character separator [a b]: the leftmost
    occurrences, not overlapping; never an empty list. *)
Fixpoint split2 (a b : char) (s : str) : list str :=
  match s with
  | [] => [[]]
  | c :: r =>
      match r with
      | c' :: r' =>
          if ((c =? a) && (c' =? b))%N then [] :: split2 a b r'
          else push_front c (split2 a b r)
      | [] => [[c]]
      end
  end.

(** [sep.join(parts)] *)
Fixpoint join (sep : str) (parts : list str) : str :=
  match parts with
  | [] => []
  | [p] => p
  | p :: ps => p ++ sep ++ join sep ps
  end.

(** [str(i)] for a non-negative integer: its decimal digits. *)
Definition str_of_nat (i : nat) : str := lit (pretty i).

(** Truth value of a string or a list: non-empty. *)
Definition truthy {A} (l : list A) : bool :=
  match l with [] => false | _ => true end.

End PyStr.
Import PyStr.

(** ** The chunker: [VectorStore._split_text] *)

(** The body of [for sentence in sentences], on the pair of the two
    variables it updates. *)
Definition split_step (chunk_size : Z) (st : list str * str) (sentence : str)
  : list str * str :=
  let '(chunks, current_chunk) := st in
  if (len current_chunk + len sentence <? chunk_size)%Z
  then (chunks, current_chunk ++ sentence ++ lit ". ")
  else (chunks ++ [strip current_chunk], sentence ++ lit ". ").

Definition _split_text (text : str) (chunk_size : Z) : list str :=
  let sentences := split2 dot space text in
  let '(chunks, current_chunk) :=
    fold_left (split_step chunk_size) sentences ([], []) in
  if truthy current_chunk then chunks ++ [strip current_chunk] else chunks.

(** The default of the [chunk_size] parameter. *)
Definition default_chunk_size : Z := 1000%Z.

(** ** Exceptions, events and the state of the world *)

Inductive exn :=
| FitzError                 (* PyMuPDF could not open or read the file *)
| CohereError               (* the Cohere client raised *)
| KeyError (key : str)      (* [d[key]] on a dict without [key] *)
| IndexError                (* [l[i]] out of range *)
| ValueError.               (* [range] with a zero step *)

Inductive result (A : Type) :=
| Ok (a : A)
| Raise (e : exn).
Arguments Ok {A} a.
Arguments Raise {A} e.

(** The [input_type] of an embedding request. *)
Inductive input_type := search_document | search_query.

(** One element of [vectors_to_upsert], and of the index contents. *)
Record vector_record := {
  id : str;
  values : list float;
  metadata : gmap str str;
}.

(** One element of [res['matches']]; the score is never read. *)
Record scored_vector := {
  match_id : str;
  match_metadata : gmap str str;
}.

(** One event of the stream [co.chat_stream] returns. *)
Record stream_event := {
  event_type : str;
  event_text : str;
}.

(** The lines the two classes print; the interpolated values are the
    arguments. *)
Inductive message :=
| MsgDimensionFallback
| MsgStartProcessing
| MsgExtracted (characters : nat)
| MsgSplit (chunks : nat)
| MsgNoChunks
| MsgCreatedEmbeddings (embeddings : nat)
| MsgNoEmbeddings
| MsgCreatingIndex (name : str)
| MsgWaitingForIndex
| MsgClearing
| MsgUpserting (vectors : nat)
| MsgIndexingComplete (total_vector_count : nat)
| MsgFinished
| MsgIndexNotInitialized
| MsgUsingQuery (search_queries : list str)
| MsgRetrieved (unique_documents : nat)
| MsgNoDocuments.

(** What a computation does to the outside, in program order. *)
Inductive event :=
| Printed (m : message)
| FitzOpen (pdf_path : str)
| CoEmbed (texts : list str) (model : str) (it : input_type)
| CoRerank (query : str) (documents : list str) (top_n : Z) (model : str)
| CoChatStream (msg : str) (model : str) (documents : list (gmap str str))
    (conversation_id : str)
| PcListIndexes
| PcCreateIndex (name : str) (dimension : Z) (metric cloud region : str)
| PcDescribeIndex (name : str)
| PcIndex (name : str)
| PcDelete (delete_all : bool)
| PcUpsert (vectors : list vector_record)
| PcDescribeIndexStats
| PcQuery (vector : list float) (top_k : Z) (include_metadata : bool)
| Sleep (seconds : nat).

(** A request to one of the three external providers of the answer path
    and of ingestion: embedding, reranking, generation. *)
Definition is_provider_call (e : event) : bool :=
  match e with
  | CoEmbed _ _ _ | CoRerank _ _ _ _ | CoChatStream _ _ _ _ => true
  | _ => false
  end.

(** The fields of the one [VectorStore] object that change, and the remote
    Pinecone project: the names of its indexes and what the index
    ['rag-qa-bot'] holds. *)
Record state := {
  self_index : option str;
  self_dimension : Z;
  pc_names : list str;
  pc_vectors : gmap str vector_record;
}.

(** The external services. [None] is an exception raised by the client.
    The Pinecone client is taken to answer every request. *)
Class Providers := {
  (** [fitz.open(pdf_path)]: [page.get_text("text")] of each page, in order *)
  fitz_pages : str -> option (list str);
  (** [co.embed(texts=, model=, input_type=).embeddings] *)
  co_embed : list str -> input_type -> option (list (list float));
  (** [co.rerank(query=, documents=, top_n=, model=).results], each by its
      [.index] *)
  co_rerank : str -> list str -> Z -> option (list nat);
  (** [co.chat_stream(message=, model=, documents=, conversation_id=)] *)
  co_chat_stream :
    str -> list (gmap str str) -> str -> option (list stream_event);
  (** [index.query(vector=, top_k=, include_metadata=True)['matches']] on
      the vectors the index holds *)
  pc_query :
    gmap str vector_record -> list float -> Z -> list scored_vector;
  (** how many times [describe_index] answers "not ready" after
      [create_index] *)
  pc_provision_polls : nat;
}.

(** ** Computations *)

Record outcome (A : Type) := Outcome {
  emitted : list event;
  final : state;
  value : result A;
}.
Arguments Outcome {A} emitted final value.
Arguments emitted {A} o.
Arguments final {A} o.
Arguments value {A} o.

Definition M (A : Type) : Type := state -> outcome A.

Definition ret {A} (a : A) : M A := fun s => Outcome [] s (Ok a).

Definition raise {A} (e : exn) : M A := fun s => Outcome [] s (Raise e).

Definition bind {A B} (m : M A) (k : A -> M B) : M B := fun s =>
  let o := m s in
  match value o with
  | Ok a =>
      let o' := k a (final o) in
      Outcome (emitted o ++ emitted o') (final o') (value o')
  | Raise e => Outcome (emitted o) (final o) (Raise e)
  end.

Notation "'let*' x ':=' m 'in' k" := (bind m (fun x => k))
  (at level 10, x name, m at level 100, k at level 200).

(** [try: m except Exception: h] *)
Definition try_except {A} (m : M A) (h : M A) : M A := fun s =>
  let o := m s in
  match value o with
  | Ok a => o
  | Raise _ =>
      let o' := h (final o) in
      Outcome (emitted o ++ emitted o') (final o') (value o')
  end.

Definition emit (e : event) : M unit := fun s => Outcome [e] s (Ok tt).

Definition print (m : message) : M unit := emit (Printed m).

Definition gets {A} (f : state -> A) : M A := fun s => Outcome [] s (Ok (f s)).

Definition modify (f : state -> state) : M unit :=
  fun s => Outcome [] (f s) (Ok tt).

(** [request e r]: the request [e] goes out, then the client returns [r]
    or raises [err]. *)
Definition request {A} (e : event) (err : exn) (r : option A) : M A :=
  let* _ := emit e in
  match r with
  | Some a => ret a
  | None => raise err
  end.

(** [for x in l: body], on the variable [acc] the body updates. *)
Fixpoint for_in {A B} (l : list A) (body : B -> A -> M B) (acc : B) : M B :=
  match l with
  | [] => ret acc
  | x :: l' => let* acc' := body acc x in for_in l' body acc'
  end.

(** [l[i]] for [i >= 0] *)
Definition list_getitem {A} (l : list A) (i : nat) : M A :=
  match l !! i with
  | Some a => ret a
  | None => raise IndexError
  end.

(** [d[key]] *)
Definition dict_getitem (d : gmap str str) (key : str) : M str :=
  match d !! key with
  | Some v => ret v
  | None => raise (KeyError key)
  end.

(** [range(0, stop, step)] for [step > 0], with [fuel >= stop]. *)
Fixpoint range_from (fuel start stop step : nat) : list nat :=
  match fuel with
  | O => []
  | S fuel' =>
      if (start <? stop)%nat
      then start :: range_from fuel' (start + step) stop step
      else []
  end.

Definition py_range (stop step : nat) : list nat := range_from stop 0 stop step.

(** [l[lo:hi]] for [0 <= lo] and [0 <= hi] *)
Definition slice {A} (l : list A) (lo hi : nat) : list A :=
  take (hi - lo) (drop lo l).

(** ** [class VectorStore] *)

Section VectorStore.
Context {P : Providers}.

Definition index_name : str := lit "rag-qa-bot".
Definition retrieve_top_k : Z := 10%Z.
Definition rerank_top_k : Z := 3%Z.
Definition embed_model : str := lit "embed-english-v3.0".
Definition rerank_model : str := lit "rerank-english-v3.0".

(** The default of the [batch_size] parameter of [_embed_chunks], and the
    local [batch_size] of [_index_chunks]. *)
Definition default_batch_size : nat := 90.
Definition upsert_batch_size : nat := 100.

(** [self.co.embed(texts=, model="embed-english-v3.0", input_type=).embeddings] *)
Definition embed_request (texts : list str) (it : input_type)
  : M (list (list float)) :=
  request (CoEmbed texts embed_model it) CohereError (co_embed texts it).

Definition set_index (i : option str) (s : state) : state :=
  {| self_index := i; self_dimension := self_dimension s;
     pc_names := pc_names s; pc_vectors := pc_vectors s |}.

Definition set_dimension (d : Z) (s : state) : state :=
  {| self_index := self_index s; self_dimension := d;
     pc_names := pc_names s; pc_vectors := pc_vectors s |}.

Definition set_vectors (v : gmap str vector_record) (s : state) : state :=
  {| self_index := self_index s; self_dimension := self_dimension s;
     pc_names := pc_names s; pc_vectors := v |}.

(** Pinecone [create_index]: a new, empty index of that name. *)
Definition add_index (name : str) (s : state) : state :=
  {| self_index := self_index s; self_dimension := self_dimension s;
     pc_names := pc_names s ++ [name]; pc_vectors := ∅ |}.

(** Pinecone [upsert]: each record is stored under its id, replacing what
    was there. *)
Definition upsert_all (vectors : list vector_record)
  (m : gmap str vector_record) : gmap str vector_record :=
  foldl (fun m v => <[id v := v]> m) m vectors.

(** [__init__]: the object's fields; the dimension is asked of the
    embedding model, 1024 when that fails. *)
Definition __init__ : M unit :=
  let* _ := modify (set_index None) in
  try_except
    (let* embeddings := embed_request [lit "hello world"] search_document in
     let* first := list_getitem embeddings 0 in
     modify (set_dimension (Z.of_nat (length first))))
    (let* _ := print MsgDimensionFallback in
     modify (set_dimension 1024%Z)).

Definition _extract_text_from_pdf (pdf_path : str) : M str :=
  let* pages := request (FitzOpen pdf_path) FitzError (fitz_pages pdf_path) in
  for_in pages (fun text page => ret (text ++ page)) [].

Definition _embed_chunks (chunks : list str) (batch_size : nat)
  : M (list (list float)) :=
  let total_chunks := length chunks in
  match batch_size with
  | O => raise ValueError
  | _ =>
      for_in (py_range total_chunks batch_size)
        (fun embeddings i =>
           let batch := slice chunks i (Nat.min (i + batch_size) total_chunks) in
           let* batch_embeddings := embed_request batch search_document in
           ret (embeddings ++ batch_embeddings))
        []
  end.

(** [while not describe_index(...).status['ready']], for an index that
    answers "not ready" [polls] more times. *)
Fixpoint wait_until_ready (polls : nat) : M unit :=
  let* _ := emit (PcDescribeIndex index_name) in
  match polls with
  | O => ret tt
  | S polls' =>
      let* _ := print MsgWaitingForIndex in
      let* _ := emit (Sleep 1) in
      wait_until_ready polls'
  end.

(** The list [vectors_to_upsert]. *)
Definition vectors_of (chunks : list str) (embeddings : list (list float))
  : list vector_record :=
  imap (fun i ce =>
          {| id := str_of_nat i; values := snd ce;
             metadata := {[ lit "text" := fst ce ]} |})
       (zip chunks embeddings).

Definition _index_chunks (chunks : list str) (embeddings : list (list float))
  : M unit :=
  let* _ := emit PcListIndexes in
  let* names := gets pc_names in
  let* _ :=
    if bool_decide (index_name ∈ names) then ret tt
    else
      let* _ := print (MsgCreatingIndex index_name) in
      let* dimension := gets self_dimension in
      let* _ := emit (PcCreateIndex index_name dimension (lit "cosine")
                        (lit "aws") (lit "us-east-1")) in
      let* _ := modify (add_index index_name) in
      wait_until_ready pc_provision_polls in
  let* _ := emit (PcIndex index_name) in
  let* _ := modify (set_index (Some index_name)) in
  let* _ := print MsgClearing in
  let* _ := emit (PcDelete true) in
  let* _ := modify (set_vectors ∅) in
  let vectors_to_upsert := vectors_of chunks embeddings in
  let* _ := print (MsgUpserting (length vectors_to_upsert)) in
  let* _ :=
    for_in (py_range (length vectors_to_upsert) upsert_batch_size)
      (fun _ i =>
         let batch := slice vectors_to_upsert i (i + upsert_batch_size) in
         let* _ := emit (PcUpsert batch) in
         let* stored := gets pc_vectors in
         modify (set_vectors (upsert_all batch stored)))
      tt in
  let* _ := emit PcDescribeIndexStats in
  let* stored := gets pc_vectors in
  print (MsgIndexingComplete (size stored)).

Definition process_document (pdf_path : str) : M unit :=
  let* _ := print MsgStartProcessing in
  let* pdf_text := _extract_text_from_pdf pdf_path in
  let* _ := print (MsgExtracted (length pdf_text)) in
  let chunks := _split_text pdf_text default_chunk_size in
  let* _ := print (MsgSplit (length chunks)) in
  if negb (truthy chunks) then
    print MsgNoChunks
  else
    let* embeddings := _embed_chunks chunks default_batch_size in
    let* _ := print (MsgCreatedEmbeddings (length embeddings)) in
    if negb (truthy embeddings) then
      print MsgNoEmbeddings
    else
      let* _ := _index_chunks chunks embeddings in
      print MsgFinished.

Definition retrieve (query : str) : M (list (gmap str str)) :=
  let* index := gets self_index in
  match index with
  | None =>
      let* _ := print MsgIndexNotInitialized in
      ret []
  | Some _ =>
      let* embeddings := embed_request [query] search_query in
      let* query_emb := list_getitem embeddings 0 in
      let* _ := emit (PcQuery query_emb retrieve_top_k true) in
      let* stored := gets pc_vectors in
      let res_matches := pc_query stored query_emb retrieve_top_k in
      let* docs_to_rerank :=
        for_in res_matches
          (fun docs m =>
             let* text := dict_getitem (match_metadata m) (lit "text") in
             ret (docs ++ [text]))
          [] in
      if negb (truthy docs_to_rerank) then ret []
      else
        let* rerank_results :=
          request (CoRerank query docs_to_rerank rerank_top_k rerank_model)
            CohereError (co_rerank query docs_to_rerank rerank_top_k) in
        for_in rerank_results
          (fun reranked_docs_for_chat result_index =>
             let* m := list_getitem res_matches result_index in
             ret (reranked_docs_for_chat ++ [match_metadata m]))
          []
  end.

End VectorStore.

(** ** [class Chatbot] *)

Section Chatbot.
Context {P : Providers}.

(** The chatbot shares the one vector store of the state; its own field is
    the conversation id drawn when it is built. *)
Record Chatbot := {
  conversation_id : str;
}.

Definition chat_model : str := lit "command-r-08-2024".

(** [key in d] for the dict [unique_docs], kept in insertion order. *)
Definition dict_contains {V} (d : list (str * V)) (key : str) : bool :=
  bool_decide (key ∈ d.*1).

(** Step 3 of [respond]: the loop filling [unique_docs], then
    [list(unique_docs.values())]. *)
Definition deduplicate (retrieved_docs_metadata : list (gmap str str))
  : M (list (gmap str str)) :=
  let* unique_docs :=
    for_in retrieved_docs_metadata
      (fun unique_docs doc =>
         let* text := dict_getitem doc (lit "text") in
         if dict_contains unique_docs text then ret unique_docs
         else ret (unique_docs ++ [(text, doc)]))
      [] in
  ret (unique_docs.*2).

Definition respond (self : Chatbot) (user_message : str)
  : M (list stream_event) :=
  let search_queries := [user_message] in
  let* _ := print (MsgUsingQuery search_queries) in
  let* retrieved_docs_metadata :=
    for_in search_queries
      (fun docs query =>
         let* more := retrieve query in
         ret (docs ++ more))
      [] in
  let* final_documents := deduplicate retrieved_docs_metadata in
  let* _ :=
    if truthy final_documents
    then print (MsgRetrieved (length final_documents))
    else print MsgNoDocuments in
  request
    (CoChatStream user_message chat_model final_documents
       (conversation_id self))
    CohereError
    (co_chat_stream user_message final_documents (conversation_id self)).

End Chatbot.

(** ** Vocabulary of the statements *)

(** The fragments [_split_text] works on, and the first of them. *)
Definition fragments (text : str) : list str := split2 dot space text.

Definition first_fragment (text : str) : str := hd [] (fragments text).

(** The text a retrieved document carries. *)
Definition text_of (doc : gmap str str) : str := default [] (doc !! lit "text").

(** De-duplication by text as the specification words it: a document is
    kept when no earlier one has its text. *)
Fixpoint keep_first (seen : list str) (docs : list (gmap str str))
  : list (gmap str str) :=
  match docs with
  | [] => []
  | d :: r =>
      if bool_decide (text_of d ∈ seen) then keep_first seen r
      else d :: keep_first (seen ++ [text_of d]) r
  end.

(** The batches a loop over [range(0, len(l), k)] cuts [l] into. *)
Definition batches_of {A} (l : list A) (k : nat) : list (list A) :=
  map (fun i => slice l i (i + k)) (py_range (length l) k).

(** The record stored for chunk number [i]. *)
Definition record_of (i : nat) (chunk : str) (embedding : list float)
  : vector_record :=
  {| id := str_of_nat i; values := embedding;
     metadata := {[ lit "text" := chunk ]} |}.

(** A chunk is within the bound, or is one fragment of at least
    [chunk_size] characters with the delimiter the loop appended. *)
Definition chunk_ok (all : list str) (cs : Z) (c : str) : Prop :=
  (len c <= cs)%Z
  \/ exists fragment,
       fragment ∈ all /\ c = strip (fragment ++ lit ". ")
       /\ (cs <= len fragment)%Z.

(** What the running buffer can be. *)
Definition buffer_ok (all : list str) (cs : Z) (cur : str) : Prop :=
  cur = []
  \/ (exists y, cur = y ++ [space] /\ (len y <= cs)%Z)
  \/ (exists fragment,
        fragment ∈ all /\ cur = fragment ++ lit ". " /\ (cs <= len fragment)%Z).


(** Every event a computation emits, from any state, satisfies [Q]. *)
Definition emits_only {A} (Q : event -> Prop) (m : M A) : Prop :=
  forall s, Forall Q (emitted (m s)).

(** A request that changes what the index holds. *)
Definition is_write (e : event) : bool :=
  match e with
  | PcDelete _ | PcUpsert _ => true
  | _ => false
  end.

(** The events of the readiness loop of [_index_chunks]. *)
Fixpoint wait_events (polls : nat) : list event :=
  PcDescribeIndex index_name ::
  match polls with
  | O => []
  | S polls' => Printed MsgWaitingForIndex :: Sleep 1 :: wait_events polls'
  end.

(** The events of [_index_chunks] up to the binding of [self.index]: the
    index is looked up, and created and awaited when it is absent. *)
Definition setup_events {P : Providers} (s : state) : list event :=
  PcListIndexes ::
  (if bool_decide (index_name ∈ pc_names s) then []
   else Printed (MsgCreatingIndex index_name)
        :: PcCreateIndex index_name (self_dimension s) (lit "cosine")
             (lit "aws") (lit "us-east-1")
        :: wait_events pc_provision_polls)
  ++ [PcIndex index_name].

(** The state [_index_chunks] leaves, having stored [vectors]. *)
Definition indexed_state (s : state) (vectors : list vector_record) : state :=
  {| self_index := Some index_name;
     self_dimension := self_dimension s;
     pc_names := if bool_decide (index_name ∈ pc_names s) then pc_names s
                 else pc_names s ++ [index_name];
     pc_vectors := upsert_all vectors ∅ |}.

(** ** A concrete world, for the examples *)

Definition sample_text : str :=
  lit "The sky is blue. Grass is green. Water is wet.".

(** A text whose first fragment has 1000 characters. *)
Definition long_text : str := replicate 1000 97%N ++ lit ". The end.".

Definition sample_embedding (text : str) : list float :=
  [if truthy text then 1%float else 0%float; 0.5%float].

Definition sample_stream : list stream_event :=
  [{| event_type := lit "text-generation"; event_text := lit "Blue." |}].

(** Providers that always answer: the reranker keeps the first [top_n]
    candidates, the index returns the records of the first [top_k] ids. *)
Definition sample_providers : Providers := {|
  fitz_pages path :=
    if bool_decide (path = lit "long.pdf") then Some [long_text]
    else if bool_decide (path = lit "empty.pdf") then Some []
    else Some [sample_text];
  co_embed texts _ := Some (map sample_embedding texts);
  co_rerank _ documents top_n :=
    Some (seq 0 (Nat.min (Z.to_nat top_n) (length documents)));
  co_chat_stream _ _ _ := Some sample_stream;
  pc_query stored _ top_k :=
    (fun r => {| match_id := id r; match_metadata := metadata r |})
    <$> omap (fun i => stored !! str_of_nat i) (seq 0 (Z.to_nat top_k));
  pc_provision_polls := 2;
|}.

(** A vector store on which no document was ingested. *)
Definition fresh_state : state :=
  {| self_index := None; self_dimension := 1024%Z;
     pc_names := []; pc_vectors := ∅ |}.

(** An index holding three chunks, two of them with the same text. *)
Definition repeated_chunks : list str := [lit "Blue."; lit "Blue."; lit "Green."].

Definition repeated_state : state :=
  indexed_state fresh_state
    (vectors_of repeated_chunks (map sample_embedding repeated_chunks)).

(** An initialized index that holds nothing. *)
Definition empty_index_state : state := indexed_state fresh_state [].

Definition sample_bot : Chatbot := {| conversation_id := lit "c-1" |}.

(** ** Further vocabulary *)

(** A chunk that is a flushed buffer: text stripped on the left, then the
    period of the appended delimiter. *)
Definition dotted (c : str) : Prop := exists y, c = lstrip y ++ [dot].

(** A computation that leaves the state as it found it. *)
Definition keeps_state {A} (m : M A) : Prop := forall s, final (m s) = s.

(** A request to the Pinecone client. *)
Definition is_index_request (e : event) : bool :=
  match e with
  | PcListIndexes | PcCreateIndex _ _ _ _ _ | PcDescribeIndex _ | PcIndex _
  | PcDelete _ | PcUpsert _ | PcDescribeIndexStats | PcQuery _ _ _ => true
  | _ => false
  end.

Definition is_create (e : event) : bool :=
  match e with
  | PcCreateIndex _ _ _ _ _ => true
  | _ => false
  end.

(** What ingestion may do: embedding requests in document mode of at most
    90 texts, upserts of at most 100 records, deletion of everything only,
    creation of the one index with the cosine metric; no query, no rerank,
    no generation. *)
Definition ingestion_event (e : event) : Prop :=
  match e with
  | CoEmbed texts model it =>
      model = embed_model /\ it = search_document
      /\ (length texts <= 90)%nat
  | PcUpsert vectors => (length vectors <= 100)%nat
  | PcDelete delete_all => delete_all = true
  | PcCreateIndex name _ metric _ _ =>
      name = index_name /\ metric = lit "cosine"
  | PcDescribeIndex name | PcIndex name => name = index_name
  | CoRerank _ _ _ _ | CoChatStream _ _ _ _ | PcQuery _ _ _ => False
  | _ => True
  end.

(** What answering [user_message] may do: one-text embedding requests in
    query mode, index queries for 10 candidates, rerank requests for 3,
    the generation request; nothing that creates or changes an index. *)
Definition answer_event (self : Chatbot) (user_message : str) (e : event)
  : Prop :=
  match e with
  | Printed _ => True
  | CoEmbed texts model it =>
      texts = [user_message] /\ model = embed_model /\ it = search_query
  | PcQuery _ top_k include_metadata =>
      top_k = retrieve_top_k /\ include_metadata = true
  | CoRerank query _ top_n model =>
      query = user_message /\ top_n = rerank_top_k /\ model = rerank_model
  | CoChatStream msg model _ cid =>
      msg = user_message /\ model = chat_model /\ cid = conversation_id self
  | _ => False
  end.

(** The texts of the matches of a query, and the documents a ranking of
    their positions selects. *)
Definition match_texts (matches : list scored_vector) : list str :=
  omap (fun m => match_metadata m !! lit "text") matches.

Definition ranked_docs (matches : list scored_vector) (results : list nat)
  : list (gmap str str) :=
  omap (fun i => match_metadata <$> matches !! i) results.

(** The dimension [__init__] settles on, given the answer to its probe. *)
Definition probed_dimension (probe : option (list (list float))) : Z :=
  match probe with
  | Some (v :: _) => Z.of_nat (length v)
  | _ => 1024%Z
  end.

(** ** More concrete worlds *)

(** Providers that are out of reach: the PDF ["broken.pdf"] cannot be
    opened and every Cohere request raises. *)
Definition offline_providers : Providers := {|
  fitz_pages path :=
    if bool_decide (path = lit "broken.pdf") then None else Some [sample_text];
  co_embed _ _ := None;
  co_rerank _ _ _ := None;
  co_chat_stream _ _ _ := None;
  pc_query _ _ _ := [];
  pc_provision_polls := 0;
|}.

(** Providers whose embedding model answers with no vector at all. *)
Definition silent_providers : Providers := {|
  fitz_pages _ := Some [sample_text];
  co_embed _ _ := Some [];
  co_rerank _ _ _ := Some [];
  co_chat_stream _ _ _ := Some sample_stream;
  pc_query _ _ _ := [];
  pc_provision_polls := 0;
|}.

(** Providers like [sample_providers], except that the index also returns
    a match without text and the reranker names a position past the
    candidates, as asked by the query. *)
Definition odd_providers : Providers := {|
  fitz_pages _ := Some [sample_text];
  co_embed texts _ := Some (map sample_embedding texts);
  co_rerank query documents _ :=
    if bool_decide (query = lit "past the end")
    then Some [0%nat; length documents]
    else Some [1%nat; 0%nat];
  co_chat_stream _ _ _ := Some sample_stream;
  pc_query stored _ top_k :=
    ((fun r => {| match_id := id r; match_metadata := metadata r |})
     <$> omap (fun i => stored !! str_of_nat i) (seq 0 (Z.to_nat top_k)))
    ++ (if bool_decide (size stored = 1%nat)
        then [{| match_id := lit "x"; match_metadata := ∅ |}] else []);
  pc_provision_polls := 0;
|}.

(** An index holding one chunk. *)
Definition single_state : state :=
  indexed_state fresh_state
    (vectors_of [lit "Blue."] [sample_embedding (lit "Blue.")]).

Definition is_generation (e : event) : bool :=
  match e with
  | CoChatStream _ _ _ _ => true
  | _ => false
  end.

(** An index that answers a query only with records it holds. *)
Definition query_returns_stored {P : Providers} : Prop :=
  forall stored vector top_k m,
    m ∈ pc_query stored vector top_k ->
    exists key r, stored !! key = Some r /\ match_metadata m = metadata r.

(** An index holding two chunks. *)
Definition two_chunks : list str := [lit "Blue."; lit "Green."].

Definition two_state : state :=
  indexed_state fresh_state
    (vectors_of two_chunks (map sample_embedding two_chunks)).

(** ** The application script, [app.py]

    One run of the script, from the widgets' values and the session state
    to the events of the run and the new session state. The static page
    elements are left out. The two blocks that work are [upload_block]
    (lines 50 to 87) and [chat_block] (lines 97 to 129). A [VectorStore]
    object is kept by the value of its fields: after the upload block has
    built it, no method changes it. *)

Record chat_message := {
  role : str;
  content : str;
}.

Record uploaded_file := {
  file_id : str;
  getvalue : str;
}.

Record vector_store_object := {
  object_index : option str;
  object_dimension : Z;
}.

Record chatbot_object := {
  chatbot_self : Chatbot;
  chatbot_vectorstore : vector_store_object;
}.

(** [st.session_state], with the four keys the script sets. *)
Record session_state := {
  chat_history : list chat_message;
  vector_store : option vector_store_object;
  chatbot : option chatbot_object;
  processed_file_id : option str;
}.

(** The session and the Pinecone project. *)
Record app_state := {
  session : session_state;
  remote_names : list str;
  remote_vectors : gmap str vector_record;
}.

(** What the widgets return in one run, with the two values the run draws:
    the name of the temporary file and the UUID of a new chatbot. *)
Record widgets := {
  cohere_api_key : str;
  pinecone_api_key : str;
  uploaded : option uploaded_file;
  prompt : option str;
  tmp_file_path : str;
  uuid4 : str;
}.

Inductive st_message :=
| KeysMissing
| ProcessingDone
| ProcessingFailed (e : exn)
| UploadFirst
| ResponseFailed (e : exn).

Inductive app_event :=
| StError (m : st_message)
| StSuccess (m : st_message)
| StSpinner
| StChatMessage (name : str)
| StMarkdown (body : str)
| StEmpty
| TmpWrite (path : str) (data : str)
| OsUnlink (path : str)
| Ran (e : event).

Definition initial_session : session_state :=
  {| chat_history := []; vector_store := None; chatbot := None;
     processed_file_id := None |}.

(** A [VectorStore] object before [__init__] has run. *)
Definition blank_object : vector_store_object :=
  {| object_index := None; object_dimension := 0%Z |}.

(** The state a method of the object [o] runs in, and back. *)
Definition object_state (o : vector_store_object) (a : app_state) : state :=
  {| self_index := object_index o; self_dimension := object_dimension o;
     pc_names := remote_names a; pc_vectors := remote_vectors a |}.

Definition store_object (s : state) : vector_store_object :=
  {| object_index := self_index s; object_dimension := self_dimension s |}.

Definition with_remote (s : state) (sess : session_state) : app_state :=
  {| session := sess; remote_names := pc_names s;
     remote_vectors := pc_vectors s |}.

Definition text_generation : str := lit "text-generation".

(** The cursor shown after a partial answer, U+258C. *)
Definition cursor : str := [9612%N].

Section App.
Context {P : Providers}.

(** Lines 50 to 87. *)
Definition upload_block (w : widgets) (a : app_state)
  : list app_event * app_state :=
  match uploaded w with
  | None => ([], a)
  | Some file =>
      if bool_decide (Some (file_id file) = processed_file_id (session a))
      then ([], a)
      else if negb (truthy (cohere_api_key w))
              || negb (truthy (pinecone_api_key w))
      then ([StError KeysMissing], a)
      else
        let o :=
          (let* _ := __init__ in process_document (tmp_file_path w))
            (object_state blank_object a) in
        let built := store_object (final o) in
        let before :=
          StSpinner :: TmpWrite (tmp_file_path w) (getvalue file)
          :: map Ran (emitted o) in
        match value o with
        | Ok _ =>
            (before
             ++ [StSuccess ProcessingDone; OsUnlink (tmp_file_path w)],
             with_remote (final o)
               {| chat_history := [];
                  vector_store := Some built;
                  chatbot :=
                    Some {| chatbot_self := {| conversation_id := uuid4 w |};
                            chatbot_vectorstore := built |};
                  processed_file_id := Some (file_id file) |})
        | Raise e =>
            (before
             ++ [StError (ProcessingFailed e); OsUnlink (tmp_file_path w)],
             with_remote (final o)
               {| chat_history := chat_history (session a);
                  vector_store := Some built;
                  chatbot := chatbot (session a);
                  processed_file_id := processed_file_id (session a) |})
        end
  end.

(** Lines 92 to 94. *)
Definition display_history (a : app_state) : list app_event :=
  flat_map (fun m => [StChatMessage (role m); StMarkdown (content m)])
    (chat_history (session a)).

(** The body of [for event in response_stream], on [full_response] and on
    what the placeholder has shown. *)
Definition stream_step (st : str * list app_event) (ev : stream_event)
  : str * list app_event :=
  let '(full_response, shown) := st in
  if bool_decide (event_type ev = text_generation)
  then (full_response ++ event_text ev,
        shown ++ [StMarkdown ((full_response ++ event_text ev) ++ cursor)])
  else (full_response, shown).

(** Lines 97 to 129. *)
Definition chat_block (w : widgets) (a : app_state)
  : list app_event * app_state :=
  match prompt w with
  | None => ([], a)
  | Some question =>
      if negb (truthy question) then ([], a)
      else
        match chatbot (session a) with
        | None => ([StError UploadFirst], a)
        | Some bot =>
            let history :=
              chat_history (session a)
              ++ [{| role := lit "user"; content := question |}] in
            let o :=
              respond (chatbot_self bot) question
                (object_state (chatbot_vectorstore bot) a) in
            let bot' :=
              {| chatbot_self := chatbot_self bot;
                 chatbot_vectorstore := store_object (final o) |} in
            let before :=
              [StChatMessage (lit "user"); StMarkdown question;
               StChatMessage (lit "assistant"); StEmpty]
              ++ map Ran (emitted o) in
            match value o with
            | Ok response_stream =>
                let '(full_response, shown) :=
                  fold_left stream_step response_stream ([], []) in
                (before ++ shown ++ [StMarkdown full_response],
                 with_remote (final o)
                   {| chat_history :=
                        history
                        ++ [{| role := lit "assistant";
                               content := full_response |}];
                      vector_store := vector_store (session a);
                      chatbot := Some bot';
                      processed_file_id := processed_file_id (session a) |})
            | Raise e =>
                (before ++ [StError (ResponseFailed e)],
                 with_remote (final o)
                   {| chat_history := history;
                      vector_store := vector_store (session a);
                      chatbot := Some bot';
                      processed_file_id := processed_file_id (session a) |})
            end
        end
  end.

(** One run of the script. *)
Definition script_run (w : widgets) (a : app_state)
  : list app_event * app_state :=
  let '(uploading, a1) := upload_block w a in
  let '(chatting, a2) := chat_block w a1 in
  (uploading ++ display_history a1 ++ chatting, a2).

(** The state after the runs [ws], one after the other. *)
Definition script_runs (ws : list widgets) (a : app_state) : app_state :=
  fold_left (fun a w => (script_run w a).2) ws a.

End App.

(** The text of an answer: the texts of the text-generation events. *)
Definition answer_text (response_stream : list stream_event) : str :=
  concat (map event_text
            (filter (fun ev => event_type ev = text_generation)
               response_stream)).

(** Every assistant message of a history comes right after a user
    message. *)
Definition turns_ok (history : list chat_message) : Prop :=
  forall i m,
    history !! i = Some m -> role m = lit "assistant" ->
    exists j q,
      i = S j /\ history !! j = Some q /\ role q = lit "user".

(** What every run of the script keeps true of the session. *)
Definition session_ok (sess : session_state) : Prop :=
  (is_Some (chatbot sess) <-> is_Some (processed_file_id sess))
  /\ (is_Some (chatbot sess) -> is_Some (vector_store sess))
  /\ (chat_history sess <> [] -> is_Some (chatbot sess))
  /\ turns_ok (chat_history sess).

(** The application before its first run. *)
Definition fresh_app : app_state :=
  {| session := initial_session; remote_names := []; remote_vectors := ∅ |}.

Definition sky_upload : widgets :=
  {| cohere_api_key := lit "co-key"; pinecone_api_key := lit "pc-key";
     uploaded := Some {| file_id := lit "file-1"; getvalue := lit "%PDF" |};
     prompt := None;
     tmp_file_path := lit "/tmp/tmp1.pdf"; uuid4 := lit "c-1" |}.

Definition question_only : widgets :=
  {| cohere_api_key := lit "co-key"; pinecone_api_key := lit "pc-key";
     uploaded := None;
     prompt := Some (lit "What is blue?");
     tmp_file_path := lit "/tmp/tmp2.pdf"; uuid4 := lit "c-2" |}.

Definition mixed_stream : list stream_event :=
  [{| event_type := lit "stream-start"; event_text := lit "" |};
   {| event_type := lit "text-generation"; event_text := lit "Bl" |};
   {| event_type := lit "citation-generation"; event_text := lit "[1]" |};
   {| event_type := lit "text-generation"; event_text := lit "ue." |};
   {| event_type := lit "stream-end"; event_text := lit "Blue." |}].

(** Providers like [sample_providers] whose generation stream mixes event
    types. *)
Definition streaming_providers : Providers := {|
  fitz_pages _ := Some [sample_text];
  co_embed texts _ := Some (map sample_embedding texts);
  co_rerank _ documents top_n :=
    Some (seq 0 (Nat.min (Z.to_nat top_n) (length documents)));
  co_chat_stream _ _ _ := Some mixed_stream;
  pc_query stored _ top_k :=
    (fun r => {| match_id := id r; match_metadata := metadata r |})
    <$> omap (fun i => stored !! str_of_nat i) (seq 0 (Z.to_nat top_k));
  pc_provision_polls := 0;
|}.

(** The application after the upload [sky_upload] was processed. *)
Definition ready_app : app_state :=
  (upload_block (P := streaming_providers) sky_upload fresh_app).2.

Definition ready_bot : chatbot_object :=
  {| chatbot_self := {| conversation_id := lit "c-1" |};
     chatbot_vectorstore :=
       {| object_index := Some index_name; object_dimension := 2%Z |} |}.

(** * Properties *)

(** ** Strings *)

Example split2_sample :
  split2 dot space (lit "a. b.. c. ") = [lit "a"; lit "b."; lit "c"; []].
Proof. reflexivity. Qed.

Example split2_empty : split2 dot space [] = [[]].
Proof. reflexivity. Qed.

Example strip_sample : strip (lit "  a b. ") = lit "a b.".
Proof. reflexivity. Qed.

Example str_of_nat_sample : str_of_nat 10 = lit "10".
Proof. reflexivity. Qed.

Lemma split2_nonempty a b s : split2 a b s <> [].
Proof.
  induction s as [|c r IH]; simpl; [discriminate|].
  destruct r as [|c' r']; [discriminate|].
  destruct ((c =? a) && (c' =? b))%N; [discriminate|].
  destruct (split2 a b (c' :: r')); discriminate.
Qed.

Lemma split2_cons2 a b c c' r :
  split2 a b (c :: c' :: r)
  = if ((c =? a) && (c' =? b))%N then [] :: split2 a b r
    else push_front c (split2 a b (c' :: r)).
Proof. reflexivity. Qed.

Lemma join_push_front sep c parts :
  parts <> [] -> join sep (push_front c parts) = c :: join sep parts.
Proof.
  destruct parts as [|p ps]; [congruence|intros _].
  destruct ps; reflexivity.
Qed.

(** Splitting loses nothing: joining the fragments with the separator
    gives the text back. *)
Lemma join_split2 a b s : join [a; b] (split2 a b s) = s.
Proof.
  assert (H : forall n s, (length s <= n)%nat -> join [a; b] (split2 a b s) = s).
  { clear s. induction n as [|n IH]; intros s Hn.
    - destruct s; [reflexivity|simpl in Hn; lia].
    - destruct s as [|c r]; [reflexivity|].
      destruct r as [|c' r']; [reflexivity|].
      rewrite split2_cons2.
      destruct ((c =? a) && (c' =? b))%N eqn:E.
      + apply andb_prop in E as [Ea Eb].
        apply N.eqb_eq in Ea, Eb. subst.
        pose proof (split2_nonempty a b r') as Hne.
        specialize (IH r' ltac:(simpl in Hn; lia)).
        destruct (split2 a b r') as [|p ps] eqn:Es; [congruence|].
        change (join [a; b] ([] :: p :: ps))
          with ([] ++ [a; b] ++ join [a; b] (p :: ps)).
        rewrite IH. reflexivity.
      + rewrite join_push_front by apply split2_nonempty.
        rewrite IH by (simpl in *; lia). reflexivity. }
  apply (H (length s)). lia.
Qed.

Lemma lstrip_length s : (length (lstrip s) <= length s)%nat.
Proof.
  induction s as [|c r IH]; simpl; [lia|].
  destruct (isspace c); simpl; lia.
Qed.

Lemma rstrip_length s : (length (rstrip s) <= length s)%nat.
Proof.
  unfold rstrip. rewrite length_rev.
  etransitivity; [apply lstrip_length|]. rewrite length_rev. lia.
Qed.

Lemma rstrip_app_space s : rstrip (s ++ [space]) = rstrip s.
Proof. unfold rstrip. rewrite rev_app_distr. reflexivity. Qed.

Lemma lstrip_app_space s :
  lstrip (s ++ [space]) = [] \/ lstrip (s ++ [space]) = lstrip s ++ [space].
Proof.
  induction s as [|c r IH]; simpl; [left; reflexivity|].
  destruct (isspace c); [exact IH|right; reflexivity].
Qed.

(** A buffer that ends in a space loses at least that space. *)
Lemma strip_app_space_length s :
  (length (strip (s ++ [space])) <= length s)%nat.
Proof.
  unfold strip. destruct (lstrip_app_space s) as [E|E]; rewrite E.
  - simpl. lia.
  - rewrite rstrip_app_space.
    etransitivity; [apply rstrip_length|apply lstrip_length].
Qed.

Lemma lit_inj : Inj (=) (=) lit.
Proof.
  assert (HN : forall a b, N_of_ascii a = N_of_ascii b -> a = b).
  { intros a b H. rewrite <- (ascii_N_embedding a), <- (ascii_N_embedding b).
    congruence. }
  intros x. unfold lit.
  induction x as [|a x IH]; intros [|b y] H; simpl in H; try discriminate.
  - reflexivity.
  - injection H as Hab Hxy. f_equal; [apply HN, Hab|apply IH, Hxy].
Qed.

Lemma str_of_nat_inj : Inj (=) (=) str_of_nat.
Proof.
  intros i j H. unfold str_of_nat in H.
  apply lit_inj in H. apply (inj pretty) in H. exact H.
Qed.

(** ** The chunker *)

Lemma len_app (x y : str) : len (x ++ y) = (len x + len y)%Z.
Proof. unfold len. rewrite length_app. lia. Qed.

Lemma split_step_buffer cs st sentence :
  exists y, (split_step cs st sentence).2 = y ++ lit ". ".
Proof.
  destruct st as [chunks cur]. unfold split_step.
  destruct (len cur + len sentence <? cs)%Z; simpl.
  - exists (cur ++ sentence). rewrite <- app_assoc. reflexivity.
  - exists sentence. reflexivity.
Qed.

(** After the loop the buffer holds at least the last delimiter. *)
Lemma fold_split_step_buffer cs sentences st :
  sentences <> [] ->
  exists y, (fold_left (split_step cs) sentences st).2 = y ++ lit ". ".
Proof.
  destruct sentences as [|s r] using rev_ind; [congruence|intros _].
  rewrite fold_left_app. simpl. apply split_step_buffer.
Qed.

(** Chunks are only ever appended. *)
Lemma fold_split_step_extends cs sentences : forall chunks cur,
  exists more,
    (fold_left (split_step cs) sentences (chunks, cur)).1 = chunks ++ more.
Proof.
  induction sentences as [|s r IH]; intros chunks cur.
  - exists []. rewrite app_nil_r. reflexivity.
  - cbn [fold_left].
    destruct (split_step cs (chunks, cur) s) as [chunks' cur'] eqn:E.
    destruct (IH chunks' cur') as [more Hmore]. rewrite Hmore.
    unfold split_step in E.
    destruct (len cur + len s <? cs)%Z; injection E as <- <-.
    + exists more. reflexivity.
    + exists (strip cur :: more). rewrite <- app_assoc. reflexivity.
Qed.

(** The final [if current_chunk:] always holds: the last buffer is always
    flushed. *)
Lemma split_text_flushes text cs :
  exists chunks y,
    fold_left (split_step cs) (fragments text) ([], []) = (chunks, y ++ lit ". ")
    /\ _split_text text cs = chunks ++ [strip (y ++ lit ". ")].
Proof.
  unfold _split_text, fragments.
  destruct (fold_split_step_buffer cs (split2 dot space text) ([], [])
              (split2_nonempty _ _ _)) as [y Hy].
  destruct (fold_left _ _ _) as [chunks cur]. simpl in Hy. subst cur.
  exists chunks, y. split; [reflexivity|].
  destruct y; reflexivity.
Qed.

Lemma split_text_nonempty text cs : _split_text text cs <> [].
Proof.
  destruct (split_text_flushes text cs) as (chunks & y & _ & E).
  rewrite E. destruct chunks; discriminate.
Qed.

Lemma buffer_ok_strip all cs cur :
  (0 <= cs)%Z -> buffer_ok all cs cur -> chunk_ok all cs (strip cur).
Proof.
  intros Hcs [->|[(y & -> & Hy)|(f & Hf & -> & Hlen)]].
  - left. exact Hcs.
  - left. pose proof (strip_app_space_length y). unfold len in *. lia.
  - right. exists f. auto.
Qed.

Lemma split_step_ok all cs chunks cur sentence :
  (0 <= cs)%Z -> sentence ∈ all ->
  Forall (chunk_ok all cs) chunks -> buffer_ok all cs cur ->
  Forall (chunk_ok all cs) (split_step cs (chunks, cur) sentence).1
  /\ buffer_ok all cs (split_step cs (chunks, cur) sentence).2.
Proof.
  intros Hcs Hin Hchunks Hcur. unfold split_step.
  destruct (len cur + len sentence <? cs)%Z eqn:E; simpl.
  - apply Z.ltb_lt in E. split; [exact Hchunks|].
    right; left. exists (cur ++ sentence ++ [dot]). split.
    + rewrite <- !app_assoc. reflexivity.
    + rewrite !len_app. change (len [dot]) with 1%Z. lia.
  - apply Z.ltb_ge in E. split.
    + apply Forall_app. split; [exact Hchunks|].
      constructor; [|constructor]. apply buffer_ok_strip; assumption.
    + destruct (Z_lt_le_dec (len sentence) cs) as [Hlt|Hge].
      * right; left. exists (sentence ++ [dot]). split.
        -- rewrite <- app_assoc. reflexivity.
        -- rewrite len_app. change (len [dot]) with 1%Z. lia.
      * right; right. exists sentence. auto.
Qed.

Lemma fold_split_step_ok all cs sentences : forall chunks cur,
  (0 <= cs)%Z -> (forall s, s ∈ sentences -> s ∈ all) ->
  Forall (chunk_ok all cs) chunks -> buffer_ok all cs cur ->
  Forall (chunk_ok all cs) (fold_left (split_step cs) sentences (chunks, cur)).1
  /\ buffer_ok all cs (fold_left (split_step cs) sentences (chunks, cur)).2.
Proof.
  induction sentences as [|s r IH]; intros chunks cur Hcs Hall Hchunks Hcur.
  - simpl. auto.
  - cbn [fold_left].
    destruct (split_step_ok all cs chunks cur s Hcs) as [H1 H2]; auto.
    { apply Hall. left. }
    destruct (split_step cs (chunks, cur) s) as [chunks' cur'].
    apply IH; auto. intros s' Hs'. apply Hall. right. exact Hs'.
Qed.

Lemma split_text_chunks_ok text cs :
  (0 <= cs)%Z -> Forall (chunk_ok (fragments text) cs) (_split_text text cs).
Proof.
  intros Hcs.
  destruct (split_text_flushes text cs) as (chunks & y & Hfold & ->).
  destruct (fold_split_step_ok (fragments text) cs (fragments text) [] [] Hcs)
    as [H1 H2]; auto.
  { left. reflexivity. }
  rewrite Hfold in H1, H2. simpl in H1, H2.
  apply Forall_app. split; [exact H1|].
  constructor; [|constructor]. apply buffer_ok_strip; assumption.
Qed.

(** When the first fragment does not fit, the loop closes the still empty
    buffer. *)
Lemma split_text_empty_first text cs :
  (cs <= len (first_fragment text))%Z ->
  exists rest, _split_text text cs = [] :: rest.
Proof.
  intros H. unfold first_fragment in H.
  destruct (split_text_flushes text cs) as (chunks & y & Hfold & ->).
  pose proof (split2_nonempty dot space text) as Hne.
  unfold fragments in *.
  destruct (split2 dot space text) as [|s r]; [congruence|].
  simpl in H. cbn [fold_left split_step] in Hfold.
  change (len []) with 0%Z in Hfold.
  destruct (0 + len s <? cs)%Z eqn:E; [apply Z.ltb_lt in E; lia|].
  destruct (fold_split_step_extends cs r ([] ++ [strip []]) (s ++ lit ". "))
    as [more Hmore].
  rewrite Hfold in Hmore. simpl in Hmore. subst chunks.
  eexists. reflexivity.
Qed.

(** C1. On ["The sky is blue. Grass is green. Water is wet."] with
    [chunk_size = 20] the splitter returns three chunks, the last of which
    is ["Water is wet.."]: the last fragment already ends in a period and
    the loop appends the delimiter to it as to every other fragment. *)
Theorem split_text_scenario_1 :
  _split_text (lit "The sky is blue. Grass is green. Water is wet.") 20
  = [lit "The sky is blue."; lit "Grass is green."; lit "Water is wet.."].
Proof. vm_compute. reflexivity. Qed.

(** C2. On the empty text the splitter returns the one chunk ["."], not
    the empty list: [split] yields one empty fragment, and the delimiter
    appended to it makes the buffer non-empty. *)
Theorem split_text_empty_text :
  _split_text [] default_chunk_size = [lit "."].
Proof. vm_compute. reflexivity. Qed.

(** C4, as the code has it. For a non-negative [chunk_size], every chunk
    has at most [chunk_size] characters, except a chunk made of a single
    fragment of at least [chunk_size] characters; such a chunk is that
    fragment with the appended delimiter, stripped, hence at most one
    character longer than the fragment. *)
Theorem split_text_chunk_bound text chunk_size :
  (0 <= chunk_size)%Z ->
  forall c, c ∈ _split_text text chunk_size ->
    (len c <= chunk_size)%Z
    \/ exists fragment,
         fragment ∈ fragments text
         /\ c = strip (fragment ++ lit ". ")
         /\ (chunk_size <= len fragment)%Z
         /\ (len c <= len fragment + 1)%Z.
Proof.
  intros Hcs c Hc.
  pose proof (split_text_chunks_ok text chunk_size Hcs) as H.
  rewrite Forall_forall in H. destruct (H c Hc) as [Hle|(f & Hf & -> & Hlen)].
  - left. exact Hle.
  - right. exists f. repeat split; auto.
    change (lit ". ") with ([dot] ++ [space]). rewrite app_assoc.
    pose proof (strip_app_space_length (f ++ [dot])) as Hs.
    unfold len. rewrite length_app in Hs. simpl in Hs. lia.
Qed.

Lemma split_text_chunk_bound_witness :
  (0 <= 3)%Z
  /\ forall c, c ∈ _split_text (lit "abc") 3 ->
       (len c <= 3)%Z
       \/ exists fragment,
            fragment ∈ fragments (lit "abc")
            /\ c = strip (fragment ++ lit ". ")
            /\ (3 <= len fragment)%Z
            /\ (len c <= len fragment + 1)%Z.
Proof.
  split; [lia|]. apply (split_text_chunk_bound (lit "abc") 3). lia.
Defined.

(** C4, as stated, fails: with [chunk_size = 3] the text ["abc. d"] gives
    the chunk ["abc."] of four characters, made of the one fragment
    ["abc"], whose three characters do not exceed [chunk_size]; no fragment
    of the text does. *)
Lemma split_text_chunk_bound_strict_fails :
  let text := lit "abc. d" in
  let c := lit "abc." in
  c ∈ _split_text text 3
  /\ ~ ((len c <= 3)%Z
        \/ exists fragment,
             fragment ∈ fragments text
             /\ c = strip (fragment ++ lit ". ")
             /\ (3 < len fragment)%Z).
Proof.
  cbv zeta. split.
  - change (_split_text (lit "abc. d") 3) with [[]; lit "abc."; lit "d."].
    right. left.
  - intros [H|(f & Hf & _ & Hlen)].
    + vm_compute in H. apply H. reflexivity.
    + change (fragments (lit "abc. d")) with [lit "abc"; lit "d"] in Hf.
      rewrite !elem_of_cons in Hf.
      destruct Hf as [->|[->|Hf]].
      * vm_compute in Hlen. discriminate.
      * vm_compute in Hlen. discriminate.
      * apply elem_of_nil in Hf. contradiction.
Qed.

(** A negative [chunk_size] is outside the bound: the empty first chunk
    is longer than it and is no fragment. *)
Lemma split_text_negative_chunk_size :
  _split_text (lit "a") (-1) = [[]; lit "a."].
Proof. vm_compute. reflexivity. Qed.

(** ** Reasoning about computations *)

Lemma bind_ok {A B} (m : M A) (k : A -> M B) s e1 s1 a :
  m s = Outcome e1 s1 (Ok a) ->
  bind m k s
  = Outcome (e1 ++ emitted (k a s1)) (final (k a s1)) (value (k a s1)).
Proof. intros H. unfold bind. rewrite H. reflexivity. Qed.

Lemma bind_run {A B} (m : M A) (k : A -> M B) s e1 s1 a e2 s2 r :
  m s = Outcome e1 s1 (Ok a) ->
  k a s1 = Outcome e2 s2 r ->
  bind m k s = Outcome (e1 ++ e2) s2 r.
Proof. intros H1 H2. rewrite (bind_ok _ _ _ _ _ _ H1), H2. reflexivity. Qed.

(** A loop whose body neither fails nor emits is a fold. *)
Lemma for_in_pure {A B} (f : B -> A -> B) (l : list A) : forall acc s,
  for_in l (fun acc x => ret (f acc x)) acc s
  = Outcome [] s (Ok (fold_left f l acc)).
Proof.
  induction l as [|x l IH]; intros acc s; [reflexivity|].
  cbn [for_in fold_left].
  erewrite bind_run; [| reflexivity | apply IH]. reflexivity.
Qed.

Lemma emits_only_ret {A} Q (a : A) : emits_only Q (ret a).
Proof. intros s. constructor. Qed.

Lemma emits_only_raise {A} Q e : emits_only Q (@raise A e).
Proof. intros s. constructor. Qed.

Lemma emits_only_gets {A} Q (f : state -> A) : emits_only Q (gets f).
Proof. intros s. constructor. Qed.

Lemma emits_only_modify Q f : emits_only Q (modify f).
Proof. intros s. constructor. Qed.

Lemma emits_only_emit (Q : event -> Prop) e : Q e -> emits_only Q (emit e).
Proof. intros H s. repeat constructor. exact H. Qed.

Lemma emits_only_print (Q : event -> Prop) m :
  Q (Printed m) -> emits_only Q (print m).
Proof. apply emits_only_emit. Qed.

Lemma emits_only_bind {A B} Q (m : M A) (k : A -> M B) :
  emits_only Q m -> (forall a, emits_only Q (k a)) -> emits_only Q (bind m k).
Proof.
  intros Hm Hk s. unfold bind. specialize (Hm s).
  destruct (value (m s)) as [a|e]; simpl; [|exact Hm].
  apply Forall_app. split; [exact Hm|apply Hk].
Qed.

Lemma emits_only_try_except {A} Q (m h : M A) :
  emits_only Q m -> emits_only Q h -> emits_only Q (try_except m h).
Proof.
  intros Hm Hh s. unfold try_except. specialize (Hm s).
  destruct (value (m s)) as [a|e]; simpl; [exact Hm|].
  apply Forall_app. split; [exact Hm|apply Hh].
Qed.

Lemma emits_only_request {A} (Q : event -> Prop) e err (r : option A) :
  Q e -> emits_only Q (request e err r).
Proof.
  intros H. unfold request. apply emits_only_bind.
  - apply emits_only_emit, H.
  - intros _. destruct r; [apply emits_only_ret|apply emits_only_raise].
Qed.

Lemma emits_only_for_in {A B} Q (l : list A) (body : B -> A -> M B) :
  (forall acc x, emits_only Q (body acc x)) ->
  forall acc, emits_only Q (for_in l body acc).
Proof.
  intros Hbody. induction l as [|x l IH]; intros acc; cbn [for_in].
  - apply emits_only_ret.
  - apply emits_only_bind; [apply Hbody|exact IH].
Qed.

Lemma emits_only_list_getitem {A} Q (l : list A) i :
  emits_only Q (list_getitem l i).
Proof.
  unfold list_getitem.
  destruct (l !! i); [apply emits_only_ret|apply emits_only_raise].
Qed.

Lemma emits_only_dict_getitem Q d key : emits_only Q (dict_getitem d key).
Proof.
  unfold dict_getitem.
  destruct (d !! key); [apply emits_only_ret|apply emits_only_raise].
Qed.

(** Walks through a computation built from the commands above; [tac]
    proves that an emitted event is allowed. *)
Ltac emits_with tac :=
  repeat first
    [ progress intros
    | apply emits_only_ret
    | apply emits_only_raise
    | apply emits_only_gets
    | apply emits_only_modify
    | apply emits_only_list_getitem
    | apply emits_only_dict_getitem
    | apply emits_only_bind
    | apply emits_only_try_except
    | apply emits_only_for_in
    | apply emits_only_request; cbv beta; tac
    | apply emits_only_print; cbv beta; tac
    | apply emits_only_emit; cbv beta; tac
    | match goal with
      | |- emits_only _ (if ?b then _ else _) => destruct b
      | |- emits_only _ (match ?x with _ => _ end) => destruct x
      end ].

(** ** Ranges and batches *)

Lemma slice_min {A} (l : list A) i k :
  slice l i (Nat.min (i + k) (length l)) = slice l i (i + k).
Proof.
  unfold slice.
  destruct (Nat.le_gt_cases (i + k) (length l)) as [H|H].
  - rewrite Nat.min_l by lia. reflexivity.
  - rewrite Nat.min_r by lia.
    rewrite !take_ge; [reflexivity| |]; rewrite length_drop; lia.
Qed.

Lemma slice_length {A} (l : list A) i k :
  (length (slice l i (i + k)) <= k)%nat.
Proof. unfold slice. rewrite length_take. lia. Qed.

Lemma concat_slices {A} (l : list A) k :
  (0 < k)%nat ->
  forall fuel start,
    (length l - start <= fuel)%nat ->
    concat (map (fun i => slice l i (i + k))
              (range_from fuel start (length l) k))
    = drop start l.
Proof.
  intros Hk. induction fuel as [|fuel IH]; intros start Hfuel.
  - simpl. rewrite drop_ge by lia. reflexivity.
  - cbn [range_from].
    destruct (start <? length l)%nat eqn:E.
    + apply Nat.ltb_lt in E. cbn [map concat].
      rewrite IH by lia. unfold slice.
      replace (start + k - start)%nat with k by lia.
      rewrite <- drop_drop. apply take_drop.
    + apply Nat.ltb_ge in E. simpl. rewrite drop_ge by lia. reflexivity.
Qed.

(** The batches are the list, cut; none is longer than [k]. *)
Lemma concat_batches_of {A} (l : list A) k :
  (0 < k)%nat -> concat (batches_of l k) = l.
Proof.
  intros Hk. unfold batches_of, py_range.
  rewrite concat_slices by lia. apply drop_0.
Qed.

Lemma batches_of_length {A} (l : list A) k :
  Forall (fun b => (length b <= k)%nat) (batches_of l k).
Proof.
  unfold batches_of. apply Forall_map, Forall_forall.
  intros i _. apply slice_length.
Qed.

(** ** The steps of the pipeline *)

Section Pipeline.
Context {P : Providers}.

(** One step of a computation: the first command runs, the events split,
    the rest runs. *)
Lemma bind_step {A B} (m : M A) (k : A -> M B) s e1 s1 a e2 E s2 r :
  m s = Outcome e1 s1 (Ok a) ->
  E = e1 ++ e2 ->
  k a s1 = Outcome e2 s2 r ->
  bind m k s = Outcome E s2 r.
Proof. intros H1 -> H2. eapply bind_run; eassumption. Qed.

Ltac step := eapply bind_step; [reflexivity | reflexivity | cbv beta].
Ltac step_with H :=
  eapply bind_step; [apply H | reflexivity | cbv beta].

Lemma fold_left_app_concat (pages : list str) : forall acc,
  fold_left (fun text page => text ++ page) pages acc = acc ++ concat pages.
Proof.
  induction pages as [|p pages IH]; intros acc; simpl.
  - rewrite app_nil_r. reflexivity.
  - rewrite IH, <- app_assoc. reflexivity.
Qed.

Lemma extract_text_run pdf_path pages s :
  fitz_pages pdf_path = Some pages ->
  _extract_text_from_pdf pdf_path s
  = Outcome [FitzOpen pdf_path] s (Ok (concat pages)).
Proof.
  intros H. unfold _extract_text_from_pdf, request. rewrite H.
  eapply bind_step; [reflexivity | reflexivity |].
  rewrite for_in_pure, fold_left_app_concat. reflexivity.
Qed.

Lemma embed_request_run texts it vectors s :
  co_embed texts it = Some vectors ->
  embed_request texts it s
  = Outcome [CoEmbed texts embed_model it] s (Ok vectors).
Proof. intros H. unfold embed_request, request. rewrite H. reflexivity. Qed.

(** The embedding loop, for a provider that embeds each text on its own. *)
Lemma embed_loop_run (e : str -> list float) (batch : nat -> list str) :
  (forall texts, co_embed texts search_document = Some (map e texts)) ->
  forall indices acc s,
    for_in indices
      (fun embeddings i =>
         let* batch_embeddings := embed_request (batch i) search_document in
         ret (embeddings ++ batch_embeddings))
      acc s
    = Outcome
        (map (fun i => CoEmbed (batch i) embed_model search_document) indices)
        s (Ok (acc ++ map e (concat (map batch indices)))).
Proof.
  intros He. induction indices as [|i indices IH]; intros acc s.
  - simpl. rewrite app_nil_r. reflexivity.
  - cbn [for_in map concat].
    eapply bind_step.
    + eapply bind_step;
        [apply embed_request_run, He | reflexivity | reflexivity].
    + reflexivity.
    + cbv beta. rewrite IH, map_app, <- app_assoc. reflexivity.
Qed.

Lemma embed_chunks_run (e : str -> list float) chunks batch_size s :
  (forall texts, co_embed texts search_document = Some (map e texts)) ->
  (0 < batch_size)%nat ->
  _embed_chunks chunks batch_size s
  = Outcome
      (map (fun b => CoEmbed b embed_model search_document)
         (batches_of chunks batch_size))
      s (Ok (map e chunks)).
Proof.
  intros He Hk. unfold _embed_chunks.
  destruct batch_size as [|k]; [lia|].
  rewrite (embed_loop_run e _ He). cbn [app].
  rewrite <- (map_map (fun i => slice chunks i (Nat.min (i + S k) (length chunks)))
                (fun b => CoEmbed b embed_model search_document)).
  replace (map (fun i => slice chunks i (Nat.min (i + S k) (length chunks)))
             (py_range (length chunks) (S k)))
    with (batches_of chunks (S k))
    by (unfold batches_of; apply map_ext; intros i; symmetry; apply slice_min).
  rewrite concat_batches_of by lia. reflexivity.
Qed.

Lemma set_vectors_same s : set_vectors (pc_vectors s) s = s.
Proof. destruct s. reflexivity. Qed.

Lemma upsert_all_app a b m :
  upsert_all (a ++ b) m = upsert_all b (upsert_all a m).
Proof. unfold upsert_all. apply foldl_app. Qed.

(** The upsert loop stores the batches one after the other. *)
Lemma upsert_loop_run (batch : nat -> list vector_record) :
  forall indices s,
    for_in indices
      (fun _ i =>
         let* _ := emit (PcUpsert (batch i)) in
         let* stored := gets pc_vectors in
         modify (set_vectors (upsert_all (batch i) stored)))
      tt s
    = Outcome (map (fun i => PcUpsert (batch i)) indices)
        (set_vectors (upsert_all (concat (map batch indices)) (pc_vectors s)) s)
        (Ok tt).
Proof.
  induction indices as [|i indices IH]; intros s.
  - simpl. rewrite set_vectors_same. reflexivity.
  - cbn [for_in map concat].
    eapply bind_step; [reflexivity | reflexivity |].
    cbv beta. rewrite IH, upsert_all_app. reflexivity.
Qed.

Lemma wait_until_ready_run polls s :
  wait_until_ready polls s = Outcome (wait_events polls) s (Ok tt).
Proof.
  induction polls as [|polls IH]; [reflexivity|].
  cbn [wait_until_ready wait_events].
  step. step. step. exact IH.
Qed.

Lemma wait_events_no_write polls :
  Forall (fun e => is_write e = false) (wait_events polls).
Proof.
  induction polls as [|polls IH]; simpl; repeat constructor. exact IH.
Qed.

Lemma setup_events_no_write s :
  Forall (fun e => is_write e = false) (setup_events s).
Proof.
  unfold setup_events. constructor; [reflexivity|].
  apply Forall_app. split; [|repeat constructor].
  destruct (bool_decide _); [constructor|].
  repeat constructor. apply wait_events_no_write.
Qed.

(** [_index_chunks], run: the whole outcome. *)
Lemma index_chunks_run chunks embeddings s :
  let vectors := vectors_of chunks embeddings in
  _index_chunks chunks embeddings s
  = Outcome
      (setup_events s
       ++ [Printed MsgClearing; PcDelete true;
           Printed (MsgUpserting (length vectors))]
       ++ map PcUpsert (batches_of vectors upsert_batch_size)
       ++ [PcDescribeIndexStats;
           Printed (MsgIndexingComplete (size (upsert_all vectors ∅)))])
      (indexed_state s vectors) (Ok tt).
Proof.
  intros vectors. unfold _index_chunks, setup_events, indexed_state.
  fold vectors.
  step. step.
  destruct (bool_decide (index_name ∈ pc_names s)) eqn:E.
  - step. step. step. step. step. step. step.
    eapply bind_step;
      [apply (upsert_loop_run (fun i => slice vectors i (i + upsert_batch_size)))
      | unfold batches_of; rewrite map_map; reflexivity |].
    cbv beta. step. step.
    fold (batches_of vectors upsert_batch_size).
    rewrite concat_batches_of by (unfold upsert_batch_size; lia).
    reflexivity.
  - eapply bind_step.
    + step. step. step. step. apply wait_until_ready_run.
    + cbn [app]. do 2 f_equal. symmetry. apply app_assoc.
    + cbv beta. step. step. step. step. step. step.
      eapply bind_step;
        [apply (upsert_loop_run (fun i => slice vectors i (i + upsert_batch_size)))
        | unfold batches_of; rewrite map_map; reflexivity |].
      cbv beta. step. step.
      fold (batches_of vectors upsert_batch_size).
      rewrite concat_batches_of by (unfold upsert_batch_size; lia).
      reflexivity.
Qed.

(** ** What the index holds after [_index_chunks] *)

Lemma vectors_of_lookup chunks embeddings i :
  vectors_of chunks embeddings !! i
  = match chunks !! i, embeddings !! i with
    | Some c, Some e => Some (record_of i c e)
    | _, _ => None
    end.
Proof.
  unfold vectors_of. rewrite list_lookup_imap, lookup_zip_with.
  destruct (chunks !! i); [|reflexivity].
  destruct (embeddings !! i); reflexivity.
Qed.

Lemma vectors_of_length chunks embeddings :
  length embeddings = length chunks ->
  length (vectors_of chunks embeddings) = length chunks.
Proof.
  intros H. unfold vectors_of. rewrite length_imap, length_zip_with. lia.
Qed.

Lemma vectors_of_ids chunks embeddings i v :
  vectors_of chunks embeddings !! i = Some v -> id v = str_of_nat i.
Proof.
  rewrite vectors_of_lookup.
  destruct (chunks !! i); [|discriminate].
  destruct (embeddings !! i); [|discriminate].
  intros [= <-]. reflexivity.
Qed.

(** Records whose ids are their positions land each under its own key. *)
Lemma upsert_all_lookup (vectors : list vector_record) :
  (forall i v, vectors !! i = Some v -> id v = str_of_nat i) ->
  forall k v,
    upsert_all vectors ∅ !! k = Some v
    <-> exists i, k = str_of_nat i /\ vectors !! i = Some v.
Proof.
  induction vectors as [|x vectors IH] using rev_ind; intros Hid k v.
  - simpl. rewrite lookup_empty. split; [discriminate|].
    intros (i & _ & H). rewrite lookup_nil in H. discriminate.
  - assert (Hx : id x = str_of_nat (length vectors)).
    { apply Hid. rewrite lookup_app_r, Nat.sub_diag by lia. reflexivity. }
    assert (Hid' : forall i v, vectors !! i = Some v -> id v = str_of_nat i).
    { intros i w Hw. apply Hid. rewrite lookup_app_l; [exact Hw|].
      eapply lookup_lt_Some, Hw. }
    specialize (IH Hid').
    rewrite upsert_all_app. cbn [upsert_all foldl].
    fold (upsert_all vectors ∅). rewrite Hx.
    destruct (decide (k = str_of_nat (length vectors))) as [->|Hne].
    + rewrite lookup_insert_eq. split.
      * intros [= <-]. exists (length vectors). split; [reflexivity|].
        rewrite lookup_app_r, Nat.sub_diag by lia. reflexivity.
      * intros (i & Hi & Hv). apply str_of_nat_inj in Hi. subst i.
        rewrite lookup_app_r, Nat.sub_diag in Hv by lia.
        simpl in Hv. congruence.
    + rewrite lookup_insert_ne by congruence. rewrite IH. split.
      * intros (i & -> & Hv). exists i. split; [reflexivity|].
        rewrite lookup_app_l; [exact Hv|]. eapply lookup_lt_Some, Hv.
      * intros (i & -> & Hv). exists i. split; [reflexivity|].
        destruct (decide (i < length vectors)%nat) as [Hlt|Hge].
        -- rewrite lookup_app_l in Hv by exact Hlt. exact Hv.
        -- apply lookup_lt_Some in Hv as Hlen.
           rewrite length_app in Hlen. simpl in Hlen.
           replace i with (length vectors) in Hne by lia. congruence.
Qed.

Lemma upsert_all_size (vectors : list vector_record) :
  (forall i v, vectors !! i = Some v -> id v = str_of_nat i) ->
  size (upsert_all vectors ∅) = length vectors.
Proof.
  induction vectors as [|x vectors IH] using rev_ind; intros Hid.
  - simpl. apply map_size_empty.
  - assert (Hx : id x = str_of_nat (length vectors)).
    { apply Hid. rewrite lookup_app_r, Nat.sub_diag by lia. reflexivity. }
    assert (Hid' : forall i v, vectors !! i = Some v -> id v = str_of_nat i).
    { intros i w Hw. apply Hid. rewrite lookup_app_l; [exact Hw|].
      eapply lookup_lt_Some, Hw. }
    rewrite upsert_all_app. cbn [upsert_all foldl].
    fold (upsert_all vectors ∅). rewrite Hx.
    rewrite map_size_insert_None.
    + rewrite IH by exact Hid'. rewrite length_app. simpl. lia.
    + destruct (upsert_all vectors ∅ !! str_of_nat (length vectors))
        as [w|] eqn:E; [|reflexivity].
      apply (upsert_all_lookup vectors Hid') in E as (i & Hi & Hw).
      apply str_of_nat_inj in Hi. subst i.
      apply lookup_lt_Some in Hw. lia.
Qed.

(** The index after [_index_chunks]: chunk number [i] under the key
    [str(i)], and nothing else. *)
Lemma indexed_lookup chunks embeddings k v :
  upsert_all (vectors_of chunks embeddings) ∅ !! k = Some v
  <-> exists i c e,
        chunks !! i = Some c /\ embeddings !! i = Some e
        /\ k = str_of_nat i /\ v = record_of i c e.
Proof.
  rewrite (upsert_all_lookup _ (vectors_of_ids chunks embeddings)). split.
  - intros (i & -> & Hv). rewrite vectors_of_lookup in Hv.
    destruct (chunks !! i) as [c|] eqn:Ec; [|discriminate].
    destruct (embeddings !! i) as [e|] eqn:Ee; [|discriminate].
    injection Hv as <-. exists i, c, e. auto.
  - intros (i & c & e & Hc & He & -> & ->). exists i. split; [reflexivity|].
    rewrite vectors_of_lookup, Hc, He. reflexivity.
Qed.

(** ** [process_document] *)

Lemma embed_chunks_emits Q chunks batch_size :
  (forall texts, Q (CoEmbed texts embed_model search_document)) ->
  emits_only Q (_embed_chunks chunks batch_size).
Proof.
  intros HQ. unfold _embed_chunks, embed_request.
  emits_with ltac:(apply HQ).
Qed.

Lemma wait_until_ready_emits (Q : event -> Prop) polls :
  Q (PcDescribeIndex index_name) -> Q (Printed MsgWaitingForIndex) ->
  Q (Sleep 1) ->
  emits_only Q (wait_until_ready polls).
Proof.
  intros H1 H2 H3. induction polls as [|polls IH]; cbn [wait_until_ready].
  - emits_with assumption.
  - apply emits_only_bind; [apply emits_only_emit, H1|intros _].
    apply emits_only_bind; [apply emits_only_print, H2|intros _].
    apply emits_only_bind; [apply emits_only_emit, H3|intros _].
    exact IH.
Qed.

(** The line of the empty-chunks branch is never printed. *)
Lemma process_document_emits pdf_path :
  emits_only (fun e => e <> Printed MsgNoChunks) (process_document pdf_path).
Proof.
  unfold process_document.
  apply emits_only_bind; [apply emits_only_print; discriminate|intros _].
  apply emits_only_bind;
    [unfold _extract_text_from_pdf; emits_with discriminate|intros pdf_text].
  apply emits_only_bind; [apply emits_only_print; discriminate|intros _].
  cbv zeta.
  apply emits_only_bind; [apply emits_only_print; discriminate|intros _].
  destruct (_split_text pdf_text default_chunk_size) as [|c chunks] eqn:E.
  { exfalso. exact (split_text_nonempty _ _ E). }
  cbn [truthy negb].
  apply emits_only_bind; [apply embed_chunks_emits; discriminate|].
  intros embeddings.
  apply emits_only_bind; [apply emits_only_print; discriminate|intros _].
  destruct (negb (truthy embeddings)); [apply emits_only_print; discriminate|].
  apply emits_only_bind; [|intros _; apply emits_only_print; discriminate].
  unfold _index_chunks.
  repeat first
    [ progress emits_with discriminate
    | apply wait_until_ready_emits; discriminate ].
Qed.

Lemma truthy_nonempty {A} (l : list A) : l <> [] -> truthy l = true.
Proof. destruct l; [congruence|reflexivity]. Qed.

Lemma truthy_map {A B} (f : A -> B) (l : list A) :
  truthy (map f l) = truthy l.
Proof. destruct l; reflexivity. Qed.

(** A successful ingestion, run: the whole outcome. *)
Lemma process_document_run pdf_path pages (e : str -> list float) s :
  fitz_pages pdf_path = Some pages ->
  (forall texts, co_embed texts search_document = Some (map e texts)) ->
  let chunks := _split_text (concat pages) default_chunk_size in
  let embeddings := map e chunks in
  process_document pdf_path s
  = Outcome
      ([Printed MsgStartProcessing; FitzOpen pdf_path;
        Printed (MsgExtracted (length (concat pages)));
        Printed (MsgSplit (length chunks))]
       ++ map (fun b => CoEmbed b embed_model search_document)
            (batches_of chunks default_batch_size)
       ++ [Printed (MsgCreatedEmbeddings (length embeddings))]
       ++ emitted (_index_chunks chunks embeddings s)
       ++ [Printed MsgFinished])
      (indexed_state s (vectors_of chunks embeddings)) (Ok tt).
Proof.
  intros Hf He chunks embeddings.
  assert (Hc : truthy chunks = true)
    by apply truthy_nonempty, split_text_nonempty.
  assert (Hemb : truthy embeddings = true)
    by (unfold embeddings; rewrite truthy_map; exact Hc).
  unfold process_document.
  step. step_with (extract_text_run _ _ s Hf). step. cbv zeta.
  change (_split_text (concat pages) default_chunk_size) with chunks.
  step. rewrite Hc. cbn [negb].
  eapply bind_step;
    [apply (embed_chunks_run e); [exact He|unfold default_batch_size; lia]
    | reflexivity |].
  cbv beta. fold embeddings. step.
  rewrite Hemb. cbn [negb].
  eapply bind_step;
    [ apply index_chunks_run
    | rewrite index_chunks_run; reflexivity
    | reflexivity ].
Qed.

(** ** [retrieve] *)

Lemma retrieve_uninitialized query s :
  self_index s = None ->
  retrieve query s = Outcome [Printed MsgIndexNotInitialized] s (Ok []).
Proof.
  intros H. unfold retrieve.
  eapply bind_step; [reflexivity | reflexivity |].
  cbv beta. rewrite H. reflexivity.
Qed.

Lemma retrieve_no_match query s name embeddings v :
  self_index s = Some name ->
  co_embed [query] search_query = Some embeddings ->
  embeddings !! 0%nat = Some v ->
  pc_query (pc_vectors s) v retrieve_top_k = [] ->
  retrieve query s
  = Outcome [CoEmbed [query] embed_model search_query;
             PcQuery v retrieve_top_k true] s (Ok []).
Proof.
  intros Hi He Hv Hq. unfold retrieve.
  eapply bind_step; [reflexivity | reflexivity |].
  cbv beta. rewrite Hi.
  step_with (embed_request_run _ _ _ s He).
  unfold list_getitem. rewrite Hv.
  step. step. step. rewrite Hq. reflexivity.
Qed.

(** Inversion of a successful [bind]. *)
Lemma bind_value_ok {A B} (m : M A) (k : A -> M B) s b :
  value (bind m k s) = Ok b ->
  exists a, value (m s) = Ok a /\ value (k a (final (m s))) = Ok b.
Proof.
  unfold bind. destruct (value (m s)) as [a|e]; simpl; [|discriminate].
  intros H. exists a. auto.
Qed.

(** The comprehension [[match['metadata']['text'] for match in matches]]
    succeeds only when every match carries a text. *)
Lemma texts_loop_ok (matches : list scored_vector) : forall acc s r,
  value (for_in matches
           (fun docs m =>
              let* text := dict_getitem (match_metadata m) (lit "text") in
              ret (docs ++ [text]))
           acc s) = Ok r ->
  Forall (fun m => is_Some (match_metadata m !! lit "text")) matches.
Proof.
  induction matches as [|m matches IH]; intros acc s r H; [constructor|].
  cbn [for_in] in H.
  apply bind_value_ok in H as (docs & H1 & H2).
  apply IH in H2. constructor; [|exact H2].
  apply bind_value_ok in H1 as (t & H1 & _).
  unfold dict_getitem in H1.
  destruct (match_metadata m !! lit "text"); [eauto|discriminate].
Qed.

(** The reranked documents are metadata of the matches. *)
Lemma rerank_loop_ok (matches : list scored_vector) (results : list nat) :
  forall acc s r,
    value (for_in results
             (fun reranked result_index =>
                let* m := list_getitem matches result_index in
                ret (reranked ++ [match_metadata m]))
             acc s) = Ok r ->
    forall d, d ∈ r -> d ∈ acc \/ exists m, m ∈ matches /\ d = match_metadata m.
Proof.
  induction results as [|i results IH]; intros acc s r H d Hd.
  - injection H as <-. left. exact Hd.
  - cbn [for_in] in H.
    apply bind_value_ok in H as (acc' & H1 & H2).
    destruct (IH _ _ _ H2 d Hd) as [Hin|Hm]; [|right; exact Hm].
    apply bind_value_ok in H1 as (m & H1 & H1').
    injection H1' as <-.
    unfold list_getitem in H1.
    destruct (matches !! i) as [m'|] eqn:E; [|discriminate].
    injection H1 as <-.
    apply elem_of_app in Hin as [Hin|Hin]; [left; exact Hin|].
    apply list_elem_of_singleton in Hin. subst d.
    right. exists m'. split; [|reflexivity].
    eapply list_elem_of_lookup_2, E.
Qed.

(** Whatever [retrieve] returns carries a text. *)
Lemma retrieve_docs_have_text query s docs :
  value (retrieve query s) = Ok docs ->
  Forall (fun d => is_Some (d !! lit "text")) docs.
Proof.
  unfold retrieve. intros H.
  apply bind_value_ok in H as (index & _ & H).
  destruct index as [name|].
  - apply bind_value_ok in H as (embeddings & _ & H).
    apply bind_value_ok in H as (query_emb & _ & H).
    apply bind_value_ok in H as (u & _ & H).
    apply bind_value_ok in H as (stored & _ & H).
    apply bind_value_ok in H as (docs_to_rerank & Htexts & H).
    apply texts_loop_ok in Htexts.
    destruct (negb (truthy docs_to_rerank)).
    + injection H as <-. constructor.
    + apply bind_value_ok in H as (results & _ & H).
      apply Forall_forall. intros d Hd.
      destruct (rerank_loop_ok _ _ _ _ _ H d Hd) as [Hin|(m & Hm & ->)].
      * apply elem_of_nil in Hin. contradiction.
      * rewrite Forall_forall in Htexts. apply Htexts, Hm.
  - apply bind_value_ok in H as (u & _ & H). injection H as <-. constructor.
Qed.

(** ** De-duplication *)

Lemma keep_first_texts seen docs t :
  t ∈ map text_of (keep_first seen docs)
  <-> t ∈ map text_of docs /\ t ∉ seen.
Proof.
  revert seen. induction docs as [|d r IH]; intros seen; simpl.
  - split; [intros H; apply elem_of_nil in H; contradiction|].
    intros [H _]. exact H.
  - case_bool_decide as Hseen.
    + rewrite IH, elem_of_cons. split; [tauto|].
      intros [[->|H] Hn]; [contradiction|auto].
    + simpl. rewrite !elem_of_cons, IH, elem_of_app, list_elem_of_singleton.
      split.
      * intros [->|[H Hn]]; [auto|]. split; [auto|]. tauto.
      * intros [[->|H] Hn]; [auto|].
        destruct (decide (t = text_of d)) as [->|Hne]; [auto|].
        right. split; [exact H|]. tauto.
Qed.

Lemma keep_first_NoDup seen docs : NoDup (map text_of (keep_first seen docs)).
Proof.
  revert seen. induction docs as [|d r IH]; intros seen; simpl.
  - constructor.
  - case_bool_decide as Hseen; [apply IH|].
    simpl. constructor; [|apply IH].
    rewrite keep_first_texts, elem_of_app, list_elem_of_singleton. tauto.
Qed.

Lemma keep_first_sublist seen docs : keep_first seen docs `sublist_of` docs.
Proof.
  revert seen. induction docs as [|d r IH]; intros seen; simpl.
  - constructor.
  - case_bool_decide.
    + apply sublist_cons, IH.
    + apply sublist_skip, IH.
Qed.

(** A kept document is the first of the list with its text. *)
Lemma keep_first_first seen docs d :
  d ∈ keep_first seen docs ->
  exists i,
    docs !! i = Some d
    /\ forall j d', (j < i)%nat -> docs !! j = Some d' -> text_of d' <> text_of d.
Proof.
  revert seen. induction docs as [|d0 r IH]; intros seen; simpl.
  - intros H. apply elem_of_nil in H. contradiction.
  - case_bool_decide as Hseen.
    + intros Hd. destruct (IH _ Hd) as (i & Hi & Hfirst).
      exists (S i). split; [exact Hi|].
      intros [|j] d' Hj Hd'; simpl in Hd'.
      * injection Hd' as <-. intros Heq.
        assert (Ht : text_of d ∈ map text_of (keep_first seen r)).
        { apply list_elem_of_fmap. exists d. auto. }
        apply keep_first_texts in Ht as [_ Hn]. congruence.
      * apply (Hfirst j); [lia|exact Hd'].
    + intros Hd. apply elem_of_cons in Hd as [->|Hd].
      * exists 0%nat. split; [reflexivity|]. intros j d' Hj. lia.
      * destruct (IH _ Hd) as (i & Hi & Hfirst).
        exists (S i). split; [exact Hi|].
        intros [|j] d' Hj Hd'; simpl in Hd'.
        -- injection Hd' as <-. intros Heq.
           assert (Ht : text_of d
                        ∈ map text_of (keep_first (seen ++ [text_of d0]) r)).
           { apply list_elem_of_fmap. exists d. auto. }
           apply keep_first_texts in Ht as [_ Hn].
           apply Hn. rewrite elem_of_app, list_elem_of_singleton. auto.
        -- apply (Hfirst j); [lia|exact Hd'].
Qed.

(** The loop over [unique_docs] computes [keep_first]. *)
Lemma dedup_loop_run (docs : list (gmap (list N) (list N))) :
  Forall (fun d => is_Some (d !! lit "text")) docs ->
  forall (acc : list (list N * gmap (list N) (list N))) s,
    for_in docs
      (fun unique_docs doc =>
         let* text := dict_getitem doc (lit "text") in
         if dict_contains unique_docs text then ret unique_docs
         else ret (unique_docs ++ [(text, doc)]))
      acc s
    = Outcome [] s
        (Ok (acc ++ map (fun d => (text_of d, d)) (keep_first (acc.*1) docs))).
Proof.
  induction 1 as [|d r [t Ht] _ IH]; intros acc s.
  - simpl. rewrite app_nil_r. reflexivity.
  - cbn [for_in keep_first].
    assert (Htext : text_of d = t) by (unfold text_of; rewrite Ht; reflexivity).
    rewrite Htext. unfold dict_getitem at 1. rewrite Ht.
    unfold dict_contains.
    destruct (bool_decide (t ∈ acc.*1)) eqn:E.
    + eapply bind_step.
      * eapply bind_step; [reflexivity | reflexivity |].
        cbv beta. rewrite E. reflexivity.
      * reflexivity.
      * apply IH.
    + eapply bind_step.
      * eapply bind_step; [reflexivity | reflexivity |].
        cbv beta. rewrite E. reflexivity.
      * reflexivity.
      * cbv beta. rewrite IH, fmap_app. cbn [fmap list_fmap fst map].
        rewrite Htext, <- app_assoc. reflexivity.
Qed.

Lemma deduplicate_run docs s :
  Forall (fun d => is_Some (d !! lit "text")) docs ->
  deduplicate docs s = Outcome [] s (Ok (keep_first [] docs)).
Proof.
  intros H. unfold deduplicate.
  eapply bind_step; [apply (dedup_loop_run docs H) | reflexivity |].
  cbv beta. unfold ret. do 2 f_equal. cbn [app fmap list_fmap].
  induction (keep_first [] docs) as [|d l IHl]; [reflexivity|].
  simpl. f_equal. exact IHl.
Qed.

(** ** [respond] *)

(** [respond], run from the outcome of its one retrieval. *)
Lemma respond_run self user_message s events s1 docs :
  retrieve user_message s = Outcome events s1 (Ok docs) ->
  let final_documents := keep_first [] docs in
  respond self user_message s
  = Outcome
      (Printed (MsgUsingQuery [user_message]) :: events
       ++ [Printed (if truthy final_documents
                  then MsgRetrieved (length final_documents)
                  else MsgNoDocuments);
           CoChatStream user_message chat_model final_documents
             (conversation_id self)])
      s1
      (match co_chat_stream user_message final_documents
               (conversation_id self) with
       | Some stream => Ok stream
       | None => Raise CohereError
       end).
Proof.
  intros Hret final_documents.
  assert (Htext : Forall (fun d => is_Some (d !! lit "text")) docs).
  { apply (retrieve_docs_have_text user_message s). rewrite Hret. reflexivity. }
  unfold respond. step.
  eapply bind_step.
  - cbn [for_in]. eapply bind_step.
    + eapply bind_step; [exact Hret | reflexivity | reflexivity].
    + reflexivity.
    + reflexivity.
  - rewrite <- !app_assoc. reflexivity.
  - cbv beta. cbn [app].
    eapply bind_step; [apply deduplicate_run, Htext | reflexivity |].
    cbv beta. fold final_documents.
    eapply bind_step.
    + instantiate (3 := [Printed (if truthy final_documents
                               then MsgRetrieved (length final_documents)
                               else MsgNoDocuments)]).
      destruct (truthy final_documents); reflexivity.
    + reflexivity.
    + unfold request.
      destruct (co_chat_stream user_message final_documents
                  (conversation_id self)); reflexivity.
Qed.

End Pipeline.

(** ** The pipeline, end to end *)

(** A vector store just built has no index. *)
Lemma init_leaves_index_unset {P : Providers} s :
  self_index (final (__init__ s)) = None.
Proof.
  unfold __init__, try_except, bind, modify, embed_request, request, emit,
    list_getitem, print, ret, raise. simpl.
  destruct (co_embed _ _) as [[|v l]|]; reflexivity.
Qed.

Lemma respond_uninitialized_run {P : Providers} self user_message s :
  self_index s = None ->
  respond self user_message s
  = Outcome
      [Printed (MsgUsingQuery [user_message]);
       Printed MsgIndexNotInitialized;
       Printed MsgNoDocuments;
       CoChatStream user_message chat_model [] (conversation_id self)]
      s
      (match co_chat_stream user_message [] (conversation_id self) with
       | Some stream => Ok stream
       | None => Raise CohereError
       end).
Proof.
  intros H.
  rewrite (respond_run self user_message s _ _ _
             (retrieve_uninitialized user_message s H)).
  reflexivity.
Qed.

(** C3, as the code has it. On a vector store without index, [retrieve]
    prints that the index is not initialized and makes no request;
    [respond] then makes exactly one request, the generation request, with
    the user message and no grounding document, and returns its stream (or
    raises its error). Nothing tells the caller that no document was
    ingested. *)
Theorem respond_without_index {P : Providers} self user_message s :
  self_index s = None ->
  respond self user_message s
  = Outcome
      [Printed (MsgUsingQuery [user_message]);
       Printed MsgIndexNotInitialized;
       Printed MsgNoDocuments;
       CoChatStream user_message chat_model [] (conversation_id self)]
      s
      (match co_chat_stream user_message [] (conversation_id self) with
       | Some stream => Ok stream
       | None => Raise CohereError
       end).
Proof. apply respond_uninitialized_run. Qed.

Lemma respond_without_index_witness :
  self_index fresh_state = None
  /\ respond (P := sample_providers) sample_bot (lit "What is blue?") fresh_state
     = Outcome
         [Printed (MsgUsingQuery [lit "What is blue?"]);
          Printed MsgIndexNotInitialized;
          Printed MsgNoDocuments;
          CoChatStream (lit "What is blue?") chat_model [] (lit "c-1")]
         fresh_state (Ok sample_stream).
Proof.
  split; [reflexivity|].
  apply (respond_without_index (P := sample_providers) sample_bot
           (lit "What is blue?") fresh_state).
  reflexivity.
Defined.

(** C3, as stated, fails: on a vector store without index, [respond]
    returns the stream of a generation request it has made. *)
Lemma respond_without_index_calls_provider :
  let o := respond (P := sample_providers) sample_bot (lit "What is blue?")
             fresh_state in
  self_index fresh_state = None
  /\ value o = Ok sample_stream
  /\ CoChatStream (lit "What is blue?") chat_model [] (lit "c-1") ∈ emitted o
  /\ ~ Forall (fun e => is_provider_call e = false) (emitted o).
Proof.
  cbv zeta.
  rewrite (respond_uninitialized_run (P := sample_providers) sample_bot
             (lit "What is blue?") fresh_state eq_refl).
  cbn [emitted value]. repeat split.
  - do 3 right. left.
  - intros H. rewrite Forall_forall in H.
    specialize (H (CoChatStream (lit "What is blue?") chat_model []
                     (lit "c-1"))).
    discriminate H. do 3 right. left.
Qed.

(** C5. [retrieve] returns the empty list, without raising, when the index
    was never initialized, and then makes no request at all; and when the
    index query yields no match it returns the empty list after the
    embedding request and the query, without a rerank request. *)
Theorem retrieve_nothing_to_retrieve {P : Providers} query s :
  (self_index s = None ->
   retrieve query s = Outcome [Printed MsgIndexNotInitialized] s (Ok []))
  /\ (forall name embeddings v,
        self_index s = Some name ->
        co_embed [query] search_query = Some embeddings ->
        embeddings !! 0%nat = Some v ->
        pc_query (pc_vectors s) v retrieve_top_k = [] ->
        retrieve query s
        = Outcome [CoEmbed [query] embed_model search_query;
                   PcQuery v retrieve_top_k true] s (Ok [])).
Proof.
  split.
  - apply retrieve_uninitialized.
  - intros name embeddings v. apply retrieve_no_match.
Qed.

Lemma retrieve_nothing_to_retrieve_witness :
  (self_index fresh_state = None
   /\ retrieve (P := sample_providers) (lit "What is blue?") fresh_state
      = Outcome [Printed MsgIndexNotInitialized] fresh_state (Ok []))
  /\ (self_index empty_index_state = Some index_name
      /\ co_embed (Providers := sample_providers) [lit "What is blue?"]
           search_query
         = Some [sample_embedding (lit "What is blue?")]
      /\ pc_query (Providers := sample_providers)
           (pc_vectors empty_index_state)
           (sample_embedding (lit "What is blue?")) retrieve_top_k = []
      /\ retrieve (P := sample_providers) (lit "What is blue?")
           empty_index_state
         = Outcome
             [CoEmbed [lit "What is blue?"] embed_model search_query;
              PcQuery (sample_embedding (lit "What is blue?"))
                retrieve_top_k true]
             empty_index_state (Ok [])).
Proof.
  split.
  - split; [reflexivity|].
    apply (proj1 (retrieve_nothing_to_retrieve (P := sample_providers)
                    (lit "What is blue?") fresh_state)).
    reflexivity.
  - split; [reflexivity|]. split; [reflexivity|]. split; [reflexivity|].
    apply (proj2 (retrieve_nothing_to_retrieve (P := sample_providers)
                    (lit "What is blue?") empty_index_state)
             index_name [sample_embedding (lit "What is blue?")]
             (sample_embedding (lit "What is blue?")));
      reflexivity.
Defined.

(** C8. With the default batch size, for a provider that embeds each text
    on its own, the ingestion path sends the chunks in batches of at most
    90 texts which, put end to end, are the chunks; it changes nothing
    else; and it returns one vector per chunk, in order: the very list a
    single request with all the chunks returns. *)
Theorem embed_chunks_batching {P : Providers} (e : str -> list float)
  chunks s :
  (forall texts, co_embed texts search_document = Some (map e texts)) ->
  let o := _embed_chunks chunks default_batch_size s in
  exists batches,
    emitted o = map (fun b => CoEmbed b embed_model search_document) batches
    /\ Forall (fun b => (length b <= 90)%nat) batches
    /\ concat batches = chunks
    /\ final o = s
    /\ value o = Ok (map e chunks)
    /\ co_embed chunks search_document = Some (map e chunks)
    /\ length (map e chunks) = length chunks.
Proof.
  intros He o. exists (batches_of chunks default_batch_size).
  unfold o.
  rewrite (embed_chunks_run e chunks default_batch_size s He)
    by (unfold default_batch_size; lia).
  cbn [emitted final value]. repeat split.
  - apply batches_of_length.
  - apply concat_batches_of. unfold default_batch_size. lia.
  - apply He.
  - apply length_map.
Qed.

Lemma embed_chunks_batching_witness :
  (forall texts,
     co_embed (Providers := sample_providers) texts search_document
     = Some (map sample_embedding texts))
  /\ exists batches,
       emitted (_embed_chunks (P := sample_providers)
                  (replicate 200 (lit "Blue.")) default_batch_size fresh_state)
       = map (fun b => CoEmbed b embed_model search_document) batches
       /\ Forall (fun b => (length b <= 90)%nat) batches
       /\ concat batches = replicate 200 (lit "Blue.")
       /\ final (_embed_chunks (P := sample_providers)
                   (replicate 200 (lit "Blue.")) default_batch_size fresh_state)
          = fresh_state
       /\ value (_embed_chunks (P := sample_providers)
                   (replicate 200 (lit "Blue.")) default_batch_size fresh_state)
          = Ok (map sample_embedding (replicate 200 (lit "Blue.")))
       /\ co_embed (Providers := sample_providers)
            (replicate 200 (lit "Blue.")) search_document
          = Some (map sample_embedding (replicate 200 (lit "Blue.")))
       /\ length (map sample_embedding (replicate 200 (lit "Blue.")))
          = length (replicate 200 (lit "Blue.")).
Proof.
  split; [reflexivity|].
  apply (embed_chunks_batching (P := sample_providers) sample_embedding
           (replicate 200 (lit "Blue.")) fresh_state).
  reflexivity.
Defined.

(** C6. Indexing [n] chunks with their [n] embeddings succeeds; after the
    set-up, which writes nothing, it sends one delete-all request and then
    the upsert requests, whose batches have at most 100 records and, put
    end to end, are the [n] records; record number [i] has the id [str(i)],
    the embedding and the payload [{"text": chunk}]. The index then holds
    exactly these [n] records, whatever it held before: so after document
    A, ingesting document B leaves only B's chunks, with ids from 0. *)
Theorem index_chunks_replaces_all {P : Providers} chunks embeddings s :
  length embeddings = length chunks ->
  let n := length chunks in
  let vectors := vectors_of chunks embeddings in
  let batches := batches_of vectors upsert_batch_size in
  let o := _index_chunks chunks embeddings s in
  value o = Ok tt
  /\ emitted o
     = setup_events s
       ++ [Printed MsgClearing; PcDelete true; Printed (MsgUpserting n)]
       ++ map PcUpsert batches
       ++ [PcDescribeIndexStats; Printed (MsgIndexingComplete n)]
  /\ Forall (fun e => is_write e = false) (setup_events s)
  /\ Forall (fun b => (length b <= 100)%nat) batches
  /\ concat batches = vectors
  /\ length vectors = n
  /\ (forall i c e,
        chunks !! i = Some c -> embeddings !! i = Some e ->
        vectors !! i = Some (record_of i c e))
  /\ (forall k v,
        pc_vectors (final o) !! k = Some v
        <-> exists i c e,
              chunks !! i = Some c /\ embeddings !! i = Some e
              /\ k = str_of_nat i /\ v = record_of i c e)
  /\ size (pc_vectors (final o)) = n
  /\ (forall chunks_a embeddings_a,
        pc_vectors
          (final (_index_chunks chunks embeddings
                    (final (_index_chunks chunks_a embeddings_a s))))
        = pc_vectors (final o)).
Proof.
  intros Hlen n vectors batches o.
  assert (Hn : length vectors = n) by apply vectors_of_length, Hlen.
  assert (Hsize : size (upsert_all vectors ∅) = n).
  { rewrite <- Hn. apply upsert_all_size, vectors_of_ids. }
  unfold o. rewrite !index_chunks_run. cbn [value emitted final].
  fold vectors. rewrite Hsize, Hn.
  repeat split.
  - apply setup_events_no_write.
  - apply batches_of_length.
  - apply concat_batches_of. unfold upsert_batch_size. lia.
  - intros i c e Hc He. unfold vectors.
    rewrite vectors_of_lookup, Hc, He. reflexivity.
  - apply indexed_lookup.
  - apply indexed_lookup.
  - exact Hsize.
  - intros chunks_a embeddings_a. rewrite !index_chunks_run. reflexivity.
Qed.

Lemma index_chunks_replaces_all_witness :
  let chunks := repeated_chunks in
  let embeddings := map sample_embedding repeated_chunks in
  let s := fresh_state in
  length embeddings = length chunks
  /\ let n := length chunks in
     let vectors := vectors_of chunks embeddings in
     let batches := batches_of vectors upsert_batch_size in
     let o := _index_chunks (P := sample_providers) chunks embeddings s in
     value o = Ok tt
     /\ emitted o
        = setup_events (P := sample_providers) s
          ++ [Printed MsgClearing; PcDelete true; Printed (MsgUpserting n)]
          ++ map PcUpsert batches
          ++ [PcDescribeIndexStats; Printed (MsgIndexingComplete n)]
     /\ Forall (fun e => is_write e = false)
          (setup_events (P := sample_providers) s)
     /\ Forall (fun b => (length b <= 100)%nat) batches
     /\ concat batches = vectors
     /\ length vectors = n
     /\ (forall i c e,
           chunks !! i = Some c -> embeddings !! i = Some e ->
           vectors !! i = Some (record_of i c e))
     /\ (forall k v,
           pc_vectors (final o) !! k = Some v
           <-> exists i c e,
                 chunks !! i = Some c /\ embeddings !! i = Some e
                 /\ k = str_of_nat i /\ v = record_of i c e)
     /\ size (pc_vectors (final o)) = n
     /\ (forall chunks_a embeddings_a,
           pc_vectors
             (final (_index_chunks (P := sample_providers) chunks embeddings
                       (final (_index_chunks (P := sample_providers)
                                 chunks_a embeddings_a s))))
           = pc_vectors (final o)).
Proof.
  cbv zeta. split; [reflexivity|].
  apply (index_chunks_replaces_all (P := sample_providers) repeated_chunks
           (map sample_embedding repeated_chunks) fresh_state).
  reflexivity.
Defined.

(** C7. Whatever documents the retrieval returns, the grounding documents
    [respond] passes to the generation request hold each text of the
    retrieved documents exactly once; each of them is the first retrieved
    document with its text, and they come in the order of retrieval. Two
    retrieved documents with the same text give one grounding document. *)
Theorem respond_grounding_deduplicated {P : Providers} self user_message s
  events s1 docs :
  retrieve user_message s = Outcome events s1 (Ok docs) ->
  exists final_documents note,
    emitted (respond self user_message s)
    = Printed (MsgUsingQuery [user_message]) :: events
      ++ [Printed note;
          CoChatStream user_message chat_model final_documents
            (conversation_id self)]
    /\ NoDup (map text_of final_documents)
    /\ (forall t, t ∈ map text_of final_documents <-> t ∈ map text_of docs)
    /\ final_documents `sublist_of` docs
    /\ (forall d, d ∈ final_documents ->
          exists i,
            docs !! i = Some d
            /\ forall j d', (j < i)%nat -> docs !! j = Some d' ->
                 text_of d' <> text_of d)
    /\ (forall d1 d2, docs = [d1; d2] -> text_of d1 = text_of d2 ->
          final_documents = [d1]).
Proof.
  intros Hret. eexists (keep_first [] docs), _.
  rewrite (respond_run self user_message s events s1 docs Hret).
  cbn [emitted]. split; [reflexivity|]. repeat split.
  - apply keep_first_NoDup.
  - intros H. apply keep_first_texts in H. tauto.
  - intros H. apply keep_first_texts. split; [exact H|]. apply not_elem_of_nil.
  - apply keep_first_sublist.
  - apply keep_first_first.
  - intros d1 d2 -> Heq. cbn [keep_first app].
    case_bool_decide as H1; [apply elem_of_nil in H1; contradiction|].
    case_bool_decide as H2; [reflexivity|].
    exfalso. apply H2. rewrite Heq. left.
Qed.

Lemma respond_grounding_deduplicated_witness :
  let question := lit "What is blue?" in
  let blue : gmap (list N) (list N) := {[ lit "text" := lit "Blue." ]} in
  let green : gmap (list N) (list N) := {[ lit "text" := lit "Green." ]} in
  let docs := [blue; blue; green] in
  let events :=
    [CoEmbed [question] embed_model search_query;
     PcQuery (sample_embedding question) retrieve_top_k true;
     CoRerank question repeated_chunks rerank_top_k rerank_model] in
  retrieve (P := sample_providers) question repeated_state
  = Outcome events repeated_state (Ok docs)
  /\ exists final_documents note,
       emitted (respond (P := sample_providers) sample_bot question
                  repeated_state)
       = Printed (MsgUsingQuery [question]) :: events
         ++ [Printed note;
             CoChatStream question chat_model final_documents
               (conversation_id sample_bot)]
       /\ NoDup (map text_of final_documents)
       /\ (forall t, t ∈ map text_of final_documents <-> t ∈ map text_of docs)
       /\ final_documents `sublist_of` docs
       /\ (forall d, d ∈ final_documents ->
             exists i,
               docs !! i = Some d
               /\ forall j d', (j < i)%nat -> docs !! j = Some d' ->
                    text_of d' <> text_of d)
       /\ (forall d1 d2, docs = [d1; d2] -> text_of d1 = text_of d2 ->
             final_documents = [d1]).
Proof.
  cbv zeta. split; [vm_compute; reflexivity|].
  apply (respond_grounding_deduplicated (P := sample_providers) sample_bot
           (lit "What is blue?") repeated_state _ repeated_state _).
  vm_compute. reflexivity.
Defined.

(** C9. [_split_text] never returns the empty list, whatever the text and
    the chunk size; so [process_document] never takes the branch of the
    empty chunk list: its line is never printed. *)
Theorem split_text_never_empty :
  (forall text chunk_size, (1 <= length (_split_text text chunk_size))%nat)
  /\ (forall (P : Providers) pdf_path s,
        Printed MsgNoChunks ∉ emitted (process_document pdf_path s)).
Proof.
  split.
  - intros text chunk_size.
    pose proof (split_text_nonempty text chunk_size) as H.
    destruct (_split_text text chunk_size); [congruence|simpl; lia].
  - intros P pdf_path s Hin.
    pose proof (process_document_emits pdf_path s) as H.
    rewrite Forall_forall in H. exact (H _ Hin eq_refl).
Qed.

Lemma batches_of_head {A} (x : A) l k :
  exists more, batches_of (x :: l) (S k) = (x :: take k l) :: more.
Proof.
  unfold batches_of, py_range. cbn [length range_from Nat.ltb Nat.leb map].
  eexists. reflexivity.
Qed.

Lemma vectors_of_head c chunks e embeddings :
  exists more,
    vectors_of (c :: chunks) (e :: embeddings) = record_of 0 c e :: more.
Proof. eexists. reflexivity. Qed.

(** C10. When the first fragment of a text has at least [chunk_size]
    characters, the first chunk is the empty string. The pipeline, which
    splits with the default size, then sends that empty string to the
    embedding provider at the head of the first batch, upserts its record
    at the head of the first batch, and leaves it in the index under the
    id ["0"]. *)
Theorem empty_first_chunk_is_indexed {P : Providers} text chunk_size :
  (chunk_size <= len (first_fragment text))%Z ->
  (exists rest, _split_text text chunk_size = [] :: rest)
  /\ forall pdf_path pages (e : str -> list float) s,
       chunk_size = default_chunk_size ->
       concat pages = text ->
       fitz_pages pdf_path = Some pages ->
       (forall texts, co_embed texts search_document = Some (map e texts)) ->
       let o := process_document pdf_path s in
       value o = Ok tt
       /\ (exists batch,
             CoEmbed ([] :: batch) embed_model search_document ∈ emitted o)
       /\ (exists batch,
             PcUpsert (record_of 0 [] (e []) :: batch) ∈ emitted o)
       /\ pc_vectors (final o) !! str_of_nat 0
          = Some (record_of 0 [] (e [])).
Proof.
  intros Hlen.
  destruct (split_text_empty_first text chunk_size Hlen) as [rest Hrest].
  split; [eauto|].
  intros pdf_path pages e s -> <- Hf He o. unfold o.
  rewrite (process_document_run pdf_path pages e s Hf He).
  rewrite index_chunks_run. rewrite Hrest.
  cbn [value emitted final indexed_state pc_vectors map].
  split; [reflexivity|]. split; [|split].
  - destruct (batches_of_head (@nil N) rest 89) as [more Hb].
    exists (take 89 rest). unfold default_batch_size. rewrite Hb.
    cbn [map app]. rewrite !elem_of_cons. tauto.
  - destruct (vectors_of_head [] rest (e []) (map e rest)) as [more Hv].
    rewrite Hv.
    destruct (batches_of_head (record_of 0 [] (e [])) more 99) as [more' Hb].
    exists (take 99 more). unfold upsert_batch_size. rewrite Hb.
    cbn [map]. rewrite !elem_of_app, !elem_of_cons. tauto.
  - apply indexed_lookup. exists 0%nat, [], (e []). auto.
Qed.

Lemma empty_first_chunk_is_indexed_witness :
  (default_chunk_size <= len (first_fragment long_text))%Z
  /\ (exists rest, _split_text long_text default_chunk_size = [] :: rest)
  /\ fitz_pages (Providers := sample_providers) (lit "long.pdf")
     = Some [long_text]
  /\ (forall texts,
        co_embed (Providers := sample_providers) texts search_document
        = Some (map sample_embedding texts))
  /\ let o := process_document (P := sample_providers) (lit "long.pdf")
                fresh_state in
     value o = Ok tt
     /\ (exists batch,
           CoEmbed ([] :: batch) embed_model search_document ∈ emitted o)
     /\ (exists batch,
           PcUpsert (record_of 0 [] (sample_embedding []) :: batch)
           ∈ emitted o)
     /\ pc_vectors (final o) !! str_of_nat 0
        = Some (record_of 0 [] (sample_embedding [])).
Proof.
  assert (Hlen : (default_chunk_size <= len (first_fragment long_text))%Z)
    by (apply Z.leb_le; vm_compute; reflexivity).
  pose proof (empty_first_chunk_is_indexed (P := sample_providers)
                long_text default_chunk_size Hlen) as [Hsplit Hpipeline].
  split; [exact Hlen|]. split; [exact Hsplit|].
  split; [reflexivity|]. split; [reflexivity|].
  apply (Hpipeline (lit "long.pdf") [long_text] sample_embedding fresh_state).
  - reflexivity.
  - vm_compute. reflexivity.
  - reflexivity.
  - reflexivity.
Defined.

(** On a PDF without text the pipeline therefore goes on: it embeds the
    chunk ["."], clears the index and stores that chunk under the id
    ["0"]. *)
Lemma process_document_empty_pdf :
  let o := process_document (P := sample_providers) (lit "empty.pdf")
             fresh_state in
  let dot_record := record_of 0 (lit ".") (sample_embedding (lit ".")) in
  value o = Ok tt
  /\ emitted o
     = [Printed MsgStartProcessing; FitzOpen (lit "empty.pdf");
        Printed (MsgExtracted 0); Printed (MsgSplit 1);
        CoEmbed [lit "."] embed_model search_document;
        Printed (MsgCreatedEmbeddings 1)]
       ++ setup_events (P := sample_providers) fresh_state
       ++ [Printed MsgClearing; PcDelete true; Printed (MsgUpserting 1);
           PcUpsert [dot_record];
           PcDescribeIndexStats; Printed (MsgIndexingComplete 1);
           Printed MsgFinished]
  /\ pc_vectors (final o) = {[ lit "0" := dot_record ]}.
Proof. cbv zeta. repeat split; vm_compute; reflexivity. Qed.

(** * Further properties *)

(** ** The chunker, continued *)

Lemma lstrip_app_nonspace x c y :
  isspace c = false -> lstrip (x ++ c :: y) = lstrip x ++ c :: y.
Proof.
  intros Hc. induction x as [|a x IH]; simpl.
  - rewrite Hc. reflexivity.
  - destruct (isspace a); [exact IH|reflexivity].
Qed.

Lemma lstrip_head s :
  match lstrip s with [] => True | c :: _ => isspace c = false end.
Proof.
  induction s as [|a s IH]; simpl; [exact I|].
  destruct (isspace a) eqn:E; [exact IH|exact E].
Qed.

Lemma lstrip_fixed s :
  match s with [] => True | c :: _ => isspace c = false end -> lstrip s = s.
Proof. destruct s as [|c r]; [reflexivity|]. simpl. intros ->. reflexivity. Qed.

Lemma lstrip_idem s : lstrip (lstrip s) = lstrip s.
Proof. apply lstrip_fixed, lstrip_head. Qed.

(** A flushed buffer, stripped: the white space before the text goes, the
    space of the delimiter goes, its period stays. *)
Lemma strip_buffer y : strip (y ++ lit ". ") = lstrip y ++ [dot].
Proof.
  unfold strip. change (lit ". ") with (dot :: [space]).
  rewrite (lstrip_app_nonspace y dot [space] eq_refl).
  change (lstrip y ++ [dot; space]) with (lstrip y ++ [dot] ++ [space]).
  rewrite app_assoc, rstrip_app_space.
  unfold rstrip. rewrite rev_app_distr. simpl. rewrite rev_involutive.
  reflexivity.
Qed.

Lemma dotted_strip c : dotted c -> strip c = c.
Proof.
  intros [y ->]. unfold strip.
  rewrite (lstrip_app_nonspace (lstrip y) dot [] eq_refl), lstrip_idem.
  unfold rstrip. rewrite rev_app_distr. simpl. rewrite rev_involutive.
  reflexivity.
Qed.

Lemma dotted_last c : dotted c -> last c = Some dot.
Proof. intros [y ->]. apply last_snoc. Qed.

Lemma dotted_nonempty c : dotted c -> c <> [].
Proof. intros [y ->]. destruct (lstrip y); discriminate. Qed.

(** The chunks closed by the loop do not depend on those closed before. *)
Lemma fold_split_step_from_nil cs sentences : forall chunks cur,
  fold_left (split_step cs) sentences (chunks, cur)
  = (chunks ++ (fold_left (split_step cs) sentences ([], cur)).1,
     (fold_left (split_step cs) sentences ([], cur)).2).
Proof.
  induction sentences as [|s r IH]; intros chunks cur.
  - simpl. rewrite app_nil_r. reflexivity.
  - cbn [fold_left]. unfold split_step at 2 4 6.
    destruct (len cur + len s <? cs)%Z.
    + apply IH.
    + rewrite (IH (chunks ++ [strip cur])), (IH ([] ++ [strip cur])).
      cbn [fst snd app]. rewrite <- app_assoc. reflexivity.
Qed.

(** From a buffer that ends in the delimiter, every chunk closed is
    dotted, and so is the buffer left. *)
Lemma fold_split_step_dotted cs sentences : forall y,
  Forall dotted (fold_left (split_step cs) sentences ([], y ++ lit ". ")).1
  /\ exists y',
       (fold_left (split_step cs) sentences ([], y ++ lit ". ")).2
       = y' ++ lit ". ".
Proof.
  induction sentences as [|s r IH]; intros y.
  - simpl. split; [constructor|eauto].
  - cbn [fold_left]. unfold split_step at 2 4.
    destruct (len (y ++ lit ". ") + len s <? cs)%Z.
    + replace ((y ++ lit ". ") ++ s ++ lit ". ")
        with ((y ++ lit ". " ++ s) ++ lit ". ")
        by (rewrite <- !app_assoc; reflexivity).
      apply IH.
    + rewrite fold_split_step_from_nil. cbn [fst snd].
      destruct (IH s) as [H1 H2]. split; [|exact H2].
      apply Forall_app. split; [|exact H1].
      repeat constructor. exists y. apply strip_buffer.
Qed.

(** The shape of the result: an empty first chunk exactly when the first
    fragment does not fit, then dotted chunks only. *)
Lemma split_text_shape text cs :
  exists chunks,
    Forall dotted chunks
    /\ _split_text text cs
       = (if (len (first_fragment text) <? cs)%Z then [] else [[]]) ++ chunks.
Proof.
  destruct (split_text_flushes text cs) as (chunks & y & Hfold & ->).
  unfold first_fragment.
  pose proof (split2_nonempty dot space text) as Hne.
  unfold fragments in *.
  destruct (split2 dot space text) as [|s r]; [congruence|].
  cbn [hd]. cbn [fold_left] in Hfold. unfold split_step at 2 in Hfold.
  change (len [] + len s)%Z with (len s) in Hfold.
  destruct (len s <? cs)%Z.
  - change ([] ++ s ++ lit ". ") with (s ++ lit ". ") in Hfold.
    destruct (fold_split_step_dotted cs r s) as [H1 _].
    rewrite Hfold in H1. cbn [fst] in H1.
    exists (chunks ++ [strip (y ++ lit ". ")]). split; [|reflexivity].
    apply Forall_app. split; [exact H1|].
    repeat constructor. exists y. apply strip_buffer.
  - rewrite fold_split_step_from_nil in Hfold.
    destruct (fold_split_step_dotted cs r s) as [H1 _].
    injection Hfold as Hc Hy. rewrite <- Hc.
    exists ((fold_left (split_step cs) r ([], s ++ lit ". ")).1
            ++ [strip (y ++ lit ". ")]).
    split.
    + apply Forall_app. split; [exact H1|].
      repeat constructor. exists y. apply strip_buffer.
    + reflexivity.
Qed.

Lemma concat_map_sep (sep : str) parts :
  parts <> [] ->
  concat (map (fun p => p ++ sep) parts) = join sep parts ++ sep.
Proof.
  induction parts as [|p ps IH]; [congruence|intros _].
  destruct ps as [|q ps].
  - simpl. rewrite app_nil_r. reflexivity.
  - change (join sep (p :: q :: ps)) with (p ++ sep ++ join sep (q :: ps)).
    change (concat (map (fun p => p ++ sep) (p :: q :: ps)))
      with ((p ++ sep) ++ concat (map (fun p => p ++ sep) (q :: ps))).
    rewrite IH by discriminate.
    rewrite <- !app_assoc. reflexivity.
Qed.

(** The loop as a cutting of the delimited fragments into buffers. *)
Lemma fold_split_step_buffers cs sentences : forall buffers cur,
  exists buffers',
    fold_left (split_step cs) sentences (map strip buffers, cur)
    = (map strip buffers', (fold_left (split_step cs) sentences
                              (map strip buffers, cur)).2)
    /\ concat buffers'
       ++ (fold_left (split_step cs) sentences (map strip buffers, cur)).2
       = concat buffers ++ cur
         ++ concat (map (fun s => s ++ lit ". ") sentences)
    /\ (length buffers' <= length buffers + length sentences)%nat.
Proof.
  induction sentences as [|s r IH]; intros buffers cur.
  - exists buffers. cbn [fold_left snd map concat length].
    split; [reflexivity|]. split; [rewrite app_nil_r; reflexivity|lia].
  - cbn [fold_left]. unfold split_step at 2 4 6.
    destruct (len cur + len s <? cs)%Z.
    + destruct (IH buffers (cur ++ s ++ lit ". ")) as (b' & H1 & H2 & H3).
      exists b'. split; [exact H1|]. split.
      * rewrite H2. cbn [map concat]. rewrite <- !app_assoc. reflexivity.
      * simpl. lia.
    + replace (map strip buffers ++ [strip cur])
        with (map strip (buffers ++ [cur]))
        by (rewrite map_app; reflexivity).
      destruct (IH (buffers ++ [cur]) (s ++ lit ". ")) as (b' & H1 & H2 & H3).
      exists b'. split; [exact H1|]. split.
      * rewrite H2, concat_app. cbn [map concat].
        rewrite ?app_nil_r, <- ?app_assoc. reflexivity.
      * rewrite length_app in H3. simpl in *. lia.
Qed.

(** X1. The chunker loses no character but white space at the ends of
    chunks: the chunks are the strippings of buffers which, put end to
    end, are the text followed by one delimiter [". "]; there is at most
    one buffer more than there are fragments. *)
Theorem split_text_preserves_content text chunk_size :
  exists buffers,
    _split_text text chunk_size = map strip buffers
    /\ concat buffers = text ++ lit ". "
    /\ (length buffers <= S (length (fragments text)))%nat.
Proof.
  destruct (split_text_flushes text chunk_size) as (chunks & y & Hfold & ->).
  destruct (fold_split_step_buffers chunk_size (fragments text) [] [])
    as (b' & H1 & H2 & H3).
  cbn [map] in H1, H2. rewrite Hfold in H1, H2. cbn [snd] in H1, H2.
  injection H1 as ->.
  exists (b' ++ [y ++ lit ". "]). split; [rewrite map_app; reflexivity|].
  split.
  - rewrite concat_app. cbn [concat]. rewrite app_nil_r, H2.
    cbn [concat app]. unfold fragments.
    rewrite concat_map_sep by apply split2_nonempty.
    change (lit ". ") with [dot; space]. rewrite join_split2. reflexivity.
  - rewrite length_app. simpl in *. lia.
Qed.

(** X2. Every chunk is stripped; a chunk is empty or ends in a period; and
    only the first chunk can be empty. *)
Theorem split_text_chunk_shape text chunk_size i c :
  _split_text text chunk_size !! i = Some c ->
  strip c = c
  /\ (c = [] \/ last c = Some dot)
  /\ (c = [] -> i = 0%nat).
Proof.
  destruct (split_text_shape text chunk_size) as (chunks & Hd & ->).
  rewrite Forall_forall in Hd.
  assert (Hdot : forall j, chunks !! j = Some c ->
                   strip c = c /\ (c = [] \/ last c = Some dot)
                   /\ (c = [] -> i = 0%nat)).
  { intros j Hj. apply list_elem_of_lookup_2, Hd in Hj.
    split; [apply dotted_strip, Hj|]. split; [right; apply dotted_last, Hj|].
    intros ->. exfalso. exact (dotted_nonempty [] Hj eq_refl). }
  destruct (len (first_fragment text) <? chunk_size)%Z; cbn [app].
  - apply Hdot.
  - destruct i as [|i]; simpl.
    + intros [= <-]. auto.
    + apply Hdot.
Qed.

Lemma split_text_chunk_shape_witness :
  _split_text sample_text 20 !! 1%nat = Some (lit "Grass is green.")
  /\ strip (lit "Grass is green.") = lit "Grass is green."
  /\ (lit "Grass is green." = [] \/ last (lit "Grass is green.") = Some dot)
  /\ (lit "Grass is green." = [] -> 1%nat = 0%nat).
Proof.
  split; [reflexivity|].
  apply (split_text_chunk_shape sample_text 20 1 (lit "Grass is green.")).
  reflexivity.
Defined.

(** X3. The chunker returns an empty chunk exactly when the first fragment
    has at least [chunk_size] characters. *)
Theorem split_text_empty_chunk_iff text chunk_size :
  [] ∈ _split_text text chunk_size
  <-> (chunk_size <= len (first_fragment text))%Z.
Proof.
  destruct (split_text_shape text chunk_size) as (chunks & Hd & ->).
  rewrite Forall_forall in Hd.
  destruct (len (first_fragment text) <? chunk_size)%Z eqn:E; cbn [app].
  - apply Z.ltb_lt in E. split; [|lia].
    intros H. apply Hd in H. exfalso. exact (dotted_nonempty [] H eq_refl).
  - apply Z.ltb_ge in E. split; [intros _; exact E|]. intros _. left.
Qed.

Lemma fold_split_step_fits cs sentences : forall cur,
  sentences = [] \/ (len cur + len (join (lit ". ") sentences) < cs)%Z ->
  fold_left (split_step cs) sentences ([], cur)
  = ([], cur ++ concat (map (fun s => s ++ lit ". ") sentences)).
Proof.
  induction sentences as [|s r IH]; intros cur H.
  - simpl. rewrite app_nil_r. reflexivity.
  - destruct H as [H|H]; [discriminate|].
    cbn [fold_left]. unfold split_step at 2.
    assert (Hs : (len cur + len s < cs)%Z).
    { destruct r as [|q r]; [exact H|].
      change (join (lit ". ") (s :: q :: r))
        with (s ++ lit ". " ++ join (lit ". ") (q :: r)) in H.
      rewrite !len_app in H. unfold len in *. lia. }
    apply Z.ltb_lt in Hs. rewrite Hs.
    rewrite IH.
    + cbn [map concat]. rewrite <- !app_assoc. reflexivity.
    + destruct r as [|q r]; [left; reflexivity|right].
      change (join (lit ". ") (s :: q :: r))
        with (s ++ lit ". " ++ join (lit ". ") (q :: r)) in H.
      rewrite !len_app in *. lia.
Qed.

(** X4. A text shorter than [chunk_size] gives one chunk: the text with
    the delimiter appended, stripped. *)
Theorem split_text_short_text text chunk_size :
  (len text < chunk_size)%Z ->
  _split_text text chunk_size = [strip (text ++ lit ". ")].
Proof.
  intros H. unfold _split_text.
  rewrite (fold_split_step_fits chunk_size (split2 dot space text) []).
  - rewrite concat_map_sep by apply split2_nonempty.
    change (lit ". ") with [dot; space]. rewrite join_split2.
    cbn [app]. destruct text; reflexivity.
  - right. change (lit ". ") with [dot; space]. rewrite join_split2.
    exact H.
Qed.

Lemma split_text_short_text_witness :
  (len (lit " Hello world. Bye") < 1000)%Z
  /\ _split_text (lit " Hello world. Bye") 1000 = [lit "Hello world. Bye."].
Proof.
  split; [reflexivity|].
  apply (split_text_short_text (lit " Hello world. Bye") 1000). reflexivity.
Defined.

(** ** Computations that keep the state *)

Lemma keeps_state_ret {A} (a : A) : keeps_state (ret a).
Proof. intros s. reflexivity. Qed.

Lemma keeps_state_raise {A} e : keeps_state (@raise A e).
Proof. intros s. reflexivity. Qed.

Lemma keeps_state_emit e : keeps_state (emit e).
Proof. intros s. reflexivity. Qed.

Lemma keeps_state_gets {A} (f : state -> A) : keeps_state (gets f).
Proof. intros s. reflexivity. Qed.

Lemma keeps_state_bind {A B} (m : M A) (k : A -> M B) :
  keeps_state m -> (forall a, keeps_state (k a)) -> keeps_state (bind m k).
Proof.
  intros Hm Hk s. unfold bind. specialize (Hm s).
  destruct (value (m s)) as [a|e]; simpl; [|exact Hm].
  rewrite Hk. exact Hm.
Qed.

Lemma keeps_state_request {A} e err (r : option A) :
  keeps_state (request e err r).
Proof. intros s. unfold request. destruct r; reflexivity. Qed.

Lemma keeps_state_for_in {A B} (l : list A) (body : B -> A -> M B) :
  (forall acc x, keeps_state (body acc x)) ->
  forall acc, keeps_state (for_in l body acc).
Proof.
  intros Hbody. induction l as [|x l IH]; intros acc; cbn [for_in].
  - apply keeps_state_ret.
  - apply keeps_state_bind; [apply Hbody|exact IH].
Qed.

Lemma keeps_state_list_getitem {A} (l : list A) i :
  keeps_state (list_getitem l i).
Proof. intros s. unfold list_getitem. destruct (l !! i); reflexivity. Qed.

Lemma keeps_state_dict_getitem d key : keeps_state (dict_getitem d key).
Proof. intros s. unfold dict_getitem. destruct (d !! key); reflexivity. Qed.

Ltac keeps_state_tac :=
  repeat first
    [ progress intros
    | apply keeps_state_ret
    | apply keeps_state_raise
    | apply keeps_state_emit
    | apply keeps_state_gets
    | apply keeps_state_request
    | apply keeps_state_list_getitem
    | apply keeps_state_dict_getitem
    | apply keeps_state_bind
    | apply keeps_state_for_in
    | match goal with
      | |- keeps_state (if ?b then _ else _) => destruct b
      | |- keeps_state (match ?x with _ => _ end) => destruct x
      end ].

Lemma bind_raised {A B} (m : M A) (k : A -> M B) s e1 s1 e :
  m s = Outcome e1 s1 (Raise e) ->
  bind m k s = Outcome e1 s1 (Raise e).
Proof. intros H. unfold bind. rewrite H. reflexivity. Qed.

Lemma outcome_eq {A} (o : outcome A) :
  o = Outcome (emitted o) (final o) (value o).
Proof. destruct o. reflexivity. Qed.

Section Frames.
Context {P : Providers}.

Lemma embed_chunks_keeps_state chunks batch_size :
  keeps_state (_embed_chunks chunks batch_size).
Proof. unfold _embed_chunks, embed_request. keeps_state_tac. Qed.

Lemma retrieve_keeps_state query : keeps_state (retrieve query).
Proof. unfold retrieve, embed_request, print. keeps_state_tac. Qed.

Lemma respond_keeps_state self user_message :
  keeps_state (respond self user_message).
Proof.
  unfold respond, deduplicate, print.
  keeps_state_tac; apply retrieve_keeps_state.
Qed.

Lemma retrieve_answer_events self query :
  emits_only (answer_event self query) (retrieve query).
Proof.
  unfold retrieve, embed_request.
  emits_with ltac:(simpl; auto).
Qed.

Lemma respond_answer_events self user_message :
  emits_only (answer_event self user_message) (respond self user_message).
Proof.
  unfold respond, deduplicate.
  repeat first
    [ apply retrieve_answer_events
    | progress emits_with ltac:(simpl; auto) ].
Qed.

(** X5. Answering changes nothing: [respond] leaves the vector store and
    the index as they were, and every event it emits is a printed line, a
    query-mode embedding request for the user message alone, an index
    query for 10 candidates, a rerank request for 3 or the generation
    request of this conversation. *)
Theorem respond_read_only self user_message s :
  final (respond self user_message s) = s
  /\ Forall (answer_event self user_message)
       (emitted (respond self user_message s)).
Proof.
  split; [apply respond_keeps_state|apply respond_answer_events].
Qed.

End Frames.

Section Ingestion.
Context {P : Providers}.

Lemma embed_chunks_ingestion chunks :
  emits_only ingestion_event (_embed_chunks chunks default_batch_size).
Proof.
  unfold _embed_chunks, default_batch_size, embed_request. cbv beta iota.
  apply emits_only_for_in. intros acc i.
  apply emits_only_bind; [|intros; apply emits_only_ret].
  apply emits_only_request. simpl. repeat split.
  rewrite slice_min. apply slice_length.
Qed.

Lemma index_chunks_ingestion chunks embeddings :
  emits_only ingestion_event (_index_chunks chunks embeddings).
Proof.
  unfold _index_chunks.
  repeat first
    [ apply wait_until_ready_emits; simpl; auto
    | apply emits_only_emit; simpl;
      first [ apply slice_length | solve [auto] ]
    | progress emits_with ltac:(simpl; solve [auto]) ].
Qed.

Lemma process_document_ingestion pdf_path :
  emits_only ingestion_event (process_document pdf_path).
Proof.
  unfold process_document.
  apply emits_only_bind; [apply emits_only_print; exact I|intros _].
  apply emits_only_bind;
    [unfold _extract_text_from_pdf; emits_with ltac:(exact I)|intros pdf_text].
  apply emits_only_bind; [apply emits_only_print; exact I|intros _].
  cbv zeta.
  apply emits_only_bind; [apply emits_only_print; exact I|intros _].
  destruct (negb (truthy (_split_text pdf_text default_chunk_size)));
    [apply emits_only_print; exact I|].
  apply emits_only_bind; [apply embed_chunks_ingestion|intros embeddings].
  apply emits_only_bind; [apply emits_only_print; exact I|intros _].
  destruct (negb (truthy embeddings)); [apply emits_only_print; exact I|].
  apply emits_only_bind; [apply index_chunks_ingestion|intros _].
  apply emits_only_print. exact I.
Qed.

(** X6. Whatever the providers answer, ingestion sends embedding requests
    only in document mode, with the embedding model and at most 90 texts
    each, upserts at most 100 records at a time, deletes only everything,
    creates only the index ['rag-qa-bot'] with the cosine metric, and
    makes no query, rerank or generation request. *)
Theorem process_document_requests pdf_path s :
  Forall ingestion_event (emitted (process_document pdf_path s)).
Proof. apply process_document_ingestion. Qed.

End Ingestion.

(** ** [__init__] and the failures of ingestion *)

Ltac run_step := eapply bind_step; [reflexivity | reflexivity | cbv beta].

Section IngestionEdges.
Context {P : Providers}.

(** [__init__], run: the whole outcome. *)
Lemma init_run s :
  let probe := co_embed [lit "hello world"] search_document in
  __init__ s
  = Outcome
      (CoEmbed [lit "hello world"] embed_model search_document
       :: match probe with
          | Some (_ :: _) => []
          | _ => [Printed MsgDimensionFallback]
          end)
      (set_dimension (probed_dimension probe) (set_index None s))
      (Ok tt).
Proof.
  cbv zeta.
  unfold __init__, try_except, bind, modify, embed_request, request, emit,
    list_getitem, print, ret, raise, probed_dimension. simpl.
  destruct (co_embed _ _) as [[|v l]|]; reflexivity.
Qed.

(** X7. Building a vector store never raises and touches nothing in
    Pinecone: it sends one probe to the embedding model, leaves the index
    unset, and takes as dimension the length of the first vector of the
    answer, or 1024, with a printed line, when the probe raises or
    answers with no vector. *)
Theorem init_outcome s :
  let probe := co_embed [lit "hello world"] search_document in
  let o := __init__ s in
  value o = Ok tt
  /\ self_index (final o) = None
  /\ self_dimension (final o) = probed_dimension probe
  /\ pc_names (final o) = pc_names s
  /\ pc_vectors (final o) = pc_vectors s
  /\ emitted o
     = CoEmbed [lit "hello world"] embed_model search_document
       :: match probe with
          | Some (_ :: _) => []
          | _ => [Printed MsgDimensionFallback]
          end.
Proof. cbv zeta. rewrite init_run. repeat split. Qed.

(** X8. When the PDF cannot be opened, ingestion raises at once: nothing
    is embedded, no request reaches the index, the state is unchanged. *)
Theorem process_document_extraction_failure pdf_path s :
  fitz_pages pdf_path = None ->
  process_document pdf_path s
  = Outcome [Printed MsgStartProcessing; FitzOpen pdf_path] s
      (Raise FitzError).
Proof.
  intros H. unfold process_document. run_step.
  apply bind_raised. unfold _extract_text_from_pdf.
  apply bind_raised. unfold request. rewrite H. reflexivity.
Qed.

(** The embedding loop raises as soon as the provider does. *)
Lemma embed_loop_fails (batch : nat -> list str) :
  forall indices acc s,
    (exists i, i ∈ indices /\ co_embed (batch i) search_document = None) ->
    value (for_in indices
             (fun embeddings i =>
                let* batch_embeddings :=
                  embed_request (batch i) search_document in
                ret (embeddings ++ batch_embeddings))
             acc s) = Raise CohereError.
Proof.
  induction indices as [|i indices IH]; intros acc s (j & Hj & Hnone).
  - apply elem_of_nil in Hj. contradiction.
  - cbn [for_in]. unfold bind at 1.
    destruct (co_embed (batch i) search_document) as [v|] eqn:E.
    + erewrite (bind_step (embed_request (batch i) search_document));
        [| apply embed_request_run, E | reflexivity | reflexivity].
      cbn [value final]. unfold bind in IH.
      apply elem_of_cons in Hj as [->|Hj]; [congruence|].
      apply IH. eauto.
    + assert (Hr : bind (embed_request (batch i) search_document)
                     (fun b => ret (acc ++ b)) s
                   = Outcome [CoEmbed (batch i) embed_model search_document]
                       s (Raise CohereError)).
      { apply bind_raised. unfold embed_request, request. rewrite E.
        reflexivity. }
      rewrite Hr. reflexivity.
Qed.

Lemma embed_chunks_fails chunks s :
  (exists b, b ∈ batches_of chunks default_batch_size
             /\ co_embed b search_document = None) ->
  value (_embed_chunks chunks default_batch_size s) = Raise CohereError.
Proof.
  intros (b & Hb & Hnone). unfold _embed_chunks, default_batch_size.
  cbv beta iota zeta.
  apply (embed_loop_fails
           (fun i => slice chunks i (Nat.min (i + 90) (length chunks)))).
  unfold batches_of in Hb. apply list_elem_of_fmap in Hb as (i & -> & Hi).
  exists i. split; [exact Hi|]. rewrite slice_min. exact Hnone.
Qed.

Lemma embed_chunks_no_index_request chunks batch_size :
  emits_only (fun e => is_index_request e = false)
    (_embed_chunks chunks batch_size).
Proof. apply embed_chunks_emits. reflexivity. Qed.

(** X9. When the embedding provider raises on one of the batches,
    ingestion raises its error: no request reaches the index, which keeps
    the previous document, and the state is unchanged. *)
Theorem process_document_embedding_failure pdf_path pages s :
  fitz_pages pdf_path = Some pages ->
  (exists b,
     b ∈ batches_of (_split_text (concat pages) default_chunk_size)
           default_batch_size
     /\ co_embed b search_document = None) ->
  let o := process_document pdf_path s in
  value o = Raise CohereError
  /\ final o = s
  /\ Forall (fun e => is_index_request e = false) (emitted o).
Proof.
  intros Hf Hfail o.
  set (chunks := _split_text (concat pages) default_chunk_size) in *.
  assert (Hc : truthy chunks = true)
    by apply truthy_nonempty, split_text_nonempty.
  assert (Hrun : process_document pdf_path s
                 = Outcome
                     ([Printed MsgStartProcessing; FitzOpen pdf_path;
                       Printed (MsgExtracted (length (concat pages)));
                       Printed (MsgSplit (length chunks))]
                      ++ emitted (_embed_chunks chunks default_batch_size s))
                     s (Raise CohereError)).
  { unfold process_document. run_step.
    eapply bind_step; [apply (extract_text_run _ _ s Hf) | reflexivity |].
    cbv beta. run_step. cbv zeta. fold chunks. run_step.
    rewrite Hc. cbn [negb]. apply bind_raised.
    rewrite (outcome_eq (_embed_chunks chunks default_batch_size s)) at 1.
    rewrite (embed_chunks_fails chunks s Hfail), embed_chunks_keeps_state.
    reflexivity. }
  unfold o. rewrite Hrun. cbn [value final emitted].
  split; [reflexivity|]. split; [reflexivity|].
  apply Forall_app. split; [repeat constructor|].
  apply embed_chunks_no_index_request.
Qed.

End IngestionEdges.

Lemma process_document_extraction_failure_witness :
  fitz_pages (Providers := offline_providers) (lit "broken.pdf") = None
  /\ process_document (P := offline_providers) (lit "broken.pdf")
       repeated_state
     = Outcome [Printed MsgStartProcessing; FitzOpen (lit "broken.pdf")]
         repeated_state (Raise FitzError).
Proof.
  split; [reflexivity|].
  apply (process_document_extraction_failure (P := offline_providers)).
  reflexivity.
Defined.

Lemma process_document_embedding_failure_witness :
  fitz_pages (Providers := offline_providers) (lit "sky.pdf")
  = Some [sample_text]
  /\ (exists b,
        b ∈ batches_of (_split_text (concat [sample_text]) default_chunk_size)
              default_batch_size
        /\ co_embed (Providers := offline_providers) b search_document = None)
  /\ let o := process_document (P := offline_providers) (lit "sky.pdf")
                repeated_state in
     value o = Raise CohereError
     /\ final o = repeated_state
     /\ Forall (fun e => is_index_request e = false) (emitted o).
Proof.
  assert (Hb : exists b,
             b ∈ batches_of
                   (_split_text (concat [sample_text]) default_chunk_size)
                   default_batch_size
             /\ co_embed (Providers := offline_providers) b search_document
                = None).
  { eexists. split; [|reflexivity]. vm_compute. left. }
  split; [reflexivity|]. split; [exact Hb|].
  apply (process_document_embedding_failure (P := offline_providers)
           (lit "sky.pdf") [sample_text] repeated_state eq_refl Hb).
Defined.

(** ** Embeddings that do not match the chunks *)

Section Mismatch.
Context {P : Providers}.

(** The embedding loop returns the answers to the batches, end to end,
    whatever their lengths. *)
Lemma embed_loop_answers (g : list str -> list (list float))
  (batch : nat -> list str) :
  (forall texts, co_embed texts search_document = Some (g texts)) ->
  forall indices acc s,
    for_in indices
      (fun embeddings i =>
         let* batch_embeddings := embed_request (batch i) search_document in
         ret (embeddings ++ batch_embeddings))
      acc s
    = Outcome
        (map (fun i => CoEmbed (batch i) embed_model search_document) indices)
        s (Ok (acc ++ concat (map (fun i => g (batch i)) indices))).
Proof.
  intros Hg. induction indices as [|i indices IH]; intros acc s.
  - simpl. rewrite app_nil_r. reflexivity.
  - cbn [for_in map concat].
    eapply bind_step.
    + eapply bind_step;
        [apply embed_request_run, Hg | reflexivity | reflexivity].
    + reflexivity.
    + cbv beta. rewrite IH, <- app_assoc. reflexivity.
Qed.

Lemma concat_nils {A} (l : list (list A)) :
  Forall (fun x => x = []) l -> concat l = [].
Proof. induction 1 as [|x l -> _ IH]; [reflexivity|exact IH]. Qed.

Lemma process_document_silent_run pdf_path pages s :
  fitz_pages pdf_path = Some pages ->
  (forall texts, co_embed texts search_document = Some []) ->
  let chunks := _split_text (concat pages) default_chunk_size in
  process_document pdf_path s
  = Outcome
      ([Printed MsgStartProcessing; FitzOpen pdf_path;
        Printed (MsgExtracted (length (concat pages)));
        Printed (MsgSplit (length chunks))]
       ++ map (fun b => CoEmbed b embed_model search_document)
            (batches_of chunks default_batch_size)
       ++ [Printed (MsgCreatedEmbeddings 0); Printed MsgNoEmbeddings])
      s (Ok tt).
Proof.
  intros Hf Hg chunks.
  assert (Hc : truthy chunks = true)
    by apply truthy_nonempty, split_text_nonempty.
  assert (Hemb : _embed_chunks chunks default_batch_size s
                 = Outcome
                     (map (fun b => CoEmbed b embed_model search_document)
                        (batches_of chunks default_batch_size))
                     s (Ok [])).
  { unfold _embed_chunks, default_batch_size. cbv beta iota zeta.
    rewrite (embed_loop_answers (fun _ => []) _ Hg).
    rewrite concat_nils
      by (apply Forall_map, Forall_forall; intros; reflexivity).
    unfold batches_of. rewrite map_map. cbn [app].
    f_equal. apply map_ext. intros i. rewrite slice_min. reflexivity. }
  unfold process_document. run_step.
  eapply bind_step; [apply (extract_text_run _ _ s Hf) | reflexivity |].
  cbv beta. run_step. cbv zeta. fold chunks. run_step.
  rewrite Hc. cbn [negb].
  eapply bind_step; [apply Hemb | reflexivity |].
  cbv beta. run_step. reflexivity.
Qed.

(** X10. When the embedding provider answers every batch with no vector,
    ingestion stops without error after the embedding requests: it prints
    that no embedding was created, sends no request to the index and
    leaves the state, also the unset index of a new vector store, as it
    was. *)
Theorem process_document_no_embeddings pdf_path pages s :
  fitz_pages pdf_path = Some pages ->
  (forall texts, co_embed texts search_document = Some []) ->
  let chunks := _split_text (concat pages) default_chunk_size in
  process_document pdf_path s
  = Outcome
      ([Printed MsgStartProcessing; FitzOpen pdf_path;
        Printed (MsgExtracted (length (concat pages)));
        Printed (MsgSplit (length chunks))]
       ++ map (fun b => CoEmbed b embed_model search_document)
            (batches_of chunks default_batch_size)
       ++ [Printed (MsgCreatedEmbeddings 0); Printed MsgNoEmbeddings])
      s (Ok tt).
Proof. apply process_document_silent_run. Qed.

Lemma vectors_of_length_min chunks embeddings :
  length (vectors_of chunks embeddings)
  = Nat.min (length chunks) (length embeddings).
Proof. unfold vectors_of. rewrite length_imap, length_zip_with. reflexivity. Qed.

(** X11. [_index_chunks] pairs chunks and embeddings as far as both go:
    with fewer embeddings than chunks it succeeds, announces and stores
    only as many records as there are embeddings, and the chunks past
    them are not in the index. *)
Theorem index_chunks_truncates chunks embeddings s :
  let n := Nat.min (length chunks) (length embeddings) in
  let o := _index_chunks chunks embeddings s in
  value o = Ok tt
  /\ Printed (MsgUpserting n) ∈ emitted o
  /\ size (pc_vectors (final o)) = n
  /\ forall i, (n <= i)%nat -> pc_vectors (final o) !! str_of_nat i = None.
Proof.
  intros n o. unfold o. rewrite index_chunks_run.
  cbn [value emitted final indexed_state pc_vectors].
  split; [reflexivity|]. split; [|split].
  - rewrite vectors_of_length_min. fold n.
    rewrite !elem_of_app, !elem_of_cons. tauto.
  - rewrite (upsert_all_size _ (vectors_of_ids chunks embeddings)).
    apply vectors_of_length_min.
  - intros i Hi.
    destruct (upsert_all (vectors_of chunks embeddings) ∅ !! str_of_nat i)
      as [v|] eqn:E; [|reflexivity].
    apply indexed_lookup in E as (j & c & e & Hc & He & Hj & _).
    apply str_of_nat_inj in Hj. subst j.
    apply lookup_lt_Some in Hc, He. unfold n in Hi. lia.
Qed.

Lemma indexed_state_names s vectors :
  index_name ∈ pc_names (indexed_state s vectors).
Proof.
  unfold indexed_state. cbn [pc_names].
  case_bool_decide as H; [exact H|].
  apply elem_of_app. right. left.
Qed.

(** X12. The index is created at most once: after any run of
    [_index_chunks] the index exists and is bound to the vector store, and
    a later run sends no creation request and leaves the list of indexes
    as it is. *)
Theorem index_created_once chunks1 embeddings1 chunks2 embeddings2 s :
  let s1 := final (_index_chunks chunks1 embeddings1 s) in
  let o2 := _index_chunks chunks2 embeddings2 s1 in
  index_name ∈ pc_names s1
  /\ self_index s1 = Some index_name
  /\ Forall (fun e => is_create e = false) (emitted o2)
  /\ pc_names (final o2) = pc_names s1.
Proof.
  cbv zeta. rewrite !index_chunks_run. cbn [final emitted].
  pose proof (indexed_state_names s (vectors_of chunks1 embeddings1)) as Hin.
  split; [exact Hin|]. split; [reflexivity|]. split.
  - unfold setup_events. rewrite (bool_decide_eq_true_2 _ Hin).
    repeat (apply Forall_app; split); repeat constructor.
    apply Forall_map, Forall_forall. intros b _. reflexivity.
  - unfold indexed_state at 1. cbn [pc_names].
    rewrite (bool_decide_eq_true_2 _ Hin). reflexivity.
Qed.

(** X13. Indexing the same chunks and embeddings again leaves the whole
    state as the first run left it. *)
Theorem index_chunks_idempotent chunks embeddings s :
  final (_index_chunks chunks embeddings
           (final (_index_chunks chunks embeddings s)))
  = final (_index_chunks chunks embeddings s).
Proof.
  rewrite !index_chunks_run. cbn [final].
  pose proof (indexed_state_names s (vectors_of chunks embeddings)) as Hin.
  unfold indexed_state at 1. cbn [self_dimension pc_names].
  rewrite (bool_decide_eq_true_2 _ Hin). reflexivity.
Qed.

(** X14. A new vector store creates the missing index with the dimension
    its probe gave: the length of the first probe vector, or 1024. *)
Theorem init_then_index_dimension chunks embeddings s :
  index_name ∉ pc_names s ->
  PcCreateIndex index_name
    (probed_dimension (co_embed [lit "hello world"] search_document))
    (lit "cosine") (lit "aws") (lit "us-east-1")
  ∈ emitted (_index_chunks chunks embeddings (final (__init__ s))).
Proof.
  intros Hnot. rewrite index_chunks_run. cbn [emitted].
  assert (Hinit : pc_names (final (__init__ s)) = pc_names s
                  /\ self_dimension (final (__init__ s))
                     = probed_dimension
                         (co_embed [lit "hello world"] search_document)).
  { unfold __init__, try_except, bind, modify, embed_request, request, emit,
      list_getitem, print, ret, raise, probed_dimension. simpl.
    destruct (co_embed _ _) as [[|v l]|]; simpl; split; reflexivity. }
  destruct Hinit as [Hn Hd].
  unfold setup_events. rewrite Hn, Hd.
  rewrite (bool_decide_eq_false_2 _ Hnot). cbv iota.
  apply elem_of_app. left. right. apply elem_of_app. left. right. left.
Qed.

End Mismatch.

Lemma process_document_no_embeddings_witness :
  fitz_pages (Providers := silent_providers) (lit "sky.pdf")
  = Some [sample_text]
  /\ (forall texts,
        co_embed (Providers := silent_providers) texts search_document
        = Some [])
  /\ process_document (P := silent_providers) (lit "sky.pdf") fresh_state
     = Outcome
         ([Printed MsgStartProcessing; FitzOpen (lit "sky.pdf");
           Printed (MsgExtracted (length (concat [sample_text])));
           Printed (MsgSplit
                      (length (_split_text (concat [sample_text])
                                 default_chunk_size)))]
          ++ map (fun b => CoEmbed b embed_model search_document)
               (batches_of (_split_text (concat [sample_text])
                              default_chunk_size) default_batch_size)
          ++ [Printed (MsgCreatedEmbeddings 0); Printed MsgNoEmbeddings])
         fresh_state (Ok tt).
Proof.
  split; [reflexivity|]. split; [reflexivity|].
  apply (process_document_no_embeddings (P := silent_providers)
           (lit "sky.pdf") [sample_text] fresh_state); reflexivity.
Defined.

Lemma init_then_index_dimension_witness :
  (index_name ∉ pc_names fresh_state)
  /\ (PcCreateIndex index_name 2 (lit "cosine") (lit "aws") (lit "us-east-1")
      ∈ emitted (_index_chunks (P := sample_providers) repeated_chunks
                   (map sample_embedding repeated_chunks)
                   (final (__init__ (P := sample_providers) fresh_state)))).
Proof.
  assert (H : index_name ∉ pc_names fresh_state) by apply not_elem_of_nil.
  split; [exact H|].
  apply (init_then_index_dimension (P := sample_providers) repeated_chunks
           (map sample_embedding repeated_chunks) fresh_state H).
Defined.

(** ** [retrieve], continued *)

Section Retrieval.
Context {P : Providers}.

Lemma match_texts_length matches :
  Forall (fun m => is_Some (match_metadata m !! lit "text")) matches ->
  length (match_texts matches) = length matches.
Proof.
  induction 1 as [|m matches [t Ht] _ IH]; [reflexivity|].
  unfold match_texts in *. cbn [omap list_omap]. rewrite Ht. simpl.
  f_equal. exact IH.
Qed.

(** The comprehension over the matches: their texts, or [KeyError] at the
    first match without text. *)
Lemma texts_loop_run matches : forall acc s,
  for_in matches
    (fun docs m =>
       let* text := dict_getitem (match_metadata m) (lit "text") in
       ret (docs ++ [text]))
    acc s
  = Outcome [] s
      (if forallb (fun m => bool_decide
                              (is_Some (match_metadata m !! lit "text")))
            matches
       then Ok (acc ++ match_texts matches)
       else Raise (KeyError (lit "text"))).
Proof.
  induction matches as [|m matches IH]; intros acc s.
  - simpl. rewrite app_nil_r. reflexivity.
  - cbn [for_in forallb]. unfold match_texts. cbn [omap list_omap].
    fold (match_texts matches).
    destruct (match_metadata m !! lit "text") as [t|] eqn:E.
    + rewrite bool_decide_eq_true_2 by eauto. cbn [andb].
      eapply bind_step.
      * eapply bind_step; [|reflexivity|reflexivity].
        unfold dict_getitem. rewrite E. reflexivity.
      * reflexivity.
      * cbv beta. rewrite IH. cbn [app].
        destruct (forallb _ matches); [|reflexivity].
        rewrite <- app_assoc. reflexivity.
    + rewrite bool_decide_eq_false_2 by (intros [? ?]; discriminate).
      cbn [andb]. apply bind_raised. apply bind_raised.
      unfold dict_getitem. rewrite E. reflexivity.
Qed.

(** The loop over the ranking: the metadata at the ranked positions, or
    [IndexError] at the first position past the matches. *)
Lemma rerank_loop_run (matches : list scored_vector) results : forall acc s,
  for_in results
    (fun reranked result_index =>
       let* m := list_getitem matches result_index in
       ret (reranked ++ [match_metadata m]))
    acc s
  = Outcome [] s
      (if forallb (fun i => (i <? length matches)%nat) results
       then Ok (acc ++ ranked_docs matches results)
       else Raise IndexError).
Proof.
  induction results as [|i results IH]; intros acc s.
  - simpl. rewrite app_nil_r. reflexivity.
  - cbn [for_in forallb]. unfold ranked_docs. cbn [omap list_omap].
    fold (ranked_docs matches results).
    destruct (matches !! i) as [m|] eqn:E.
    + apply lookup_lt_Some in E as Hlt. apply Nat.ltb_lt in Hlt.
      rewrite Hlt. cbn [andb fmap option_fmap option_map].
      eapply bind_step.
      * eapply bind_step; [|reflexivity|reflexivity].
        unfold list_getitem. rewrite E. reflexivity.
      * reflexivity.
      * cbv beta. rewrite IH. cbn [app].
        destruct (forallb _ results); [|reflexivity].
        rewrite <- app_assoc. reflexivity.
    + apply lookup_ge_None in E as Hge. apply Nat.ltb_ge in Hge.
      rewrite Hge. cbn [andb]. apply bind_raised. apply bind_raised.
      unfold list_getitem. rewrite E. reflexivity.
Qed.

(** [retrieve] on an initialized index, once the query is embedded: the
    whole outcome, by the texts of the matches and the ranking. *)
Lemma retrieve_run query s name v rest :
  self_index s = Some name ->
  co_embed [query] search_query = Some (v :: rest) ->
  let matches := pc_query (pc_vectors s) v retrieve_top_k in
  let texts := match_texts matches in
  retrieve query s
  = Outcome
      ([CoEmbed [query] embed_model search_query;
        PcQuery v retrieve_top_k true]
       ++ (if forallb (fun m => bool_decide
                                  (is_Some (match_metadata m !! lit "text")))
                matches && truthy texts
           then [CoRerank query texts rerank_top_k rerank_model] else []))
      s
      (if forallb (fun m => bool_decide
                              (is_Some (match_metadata m !! lit "text")))
            matches
       then
         if truthy texts then
           match co_rerank query texts rerank_top_k with
           | Some results =>
               if forallb (fun i => (i <? length matches)%nat) results
               then Ok (ranked_docs matches results)
               else Raise IndexError
           | None => Raise CohereError
           end
         else Ok []
       else Raise (KeyError (lit "text"))).
Proof.
  intros Hi He matches texts. unfold retrieve.
  eapply bind_step; [reflexivity | reflexivity |].
  cbv beta. rewrite Hi.
  eapply bind_step; [apply (embed_request_run _ _ _ s He) | reflexivity |].
  cbv beta. unfold list_getitem at 1. cbn [lookup list_lookup].
  run_step. run_step. run_step. fold matches.
  destruct (forallb _ matches) eqn:Hall.
  - eapply bind_step;
      [rewrite texts_loop_run, Hall; reflexivity | reflexivity |].
    cbv beta. cbn [app]. fold texts.
    destruct (truthy texts) eqn:Ht; cbn [negb andb].
    + unfold request.
      destruct (co_rerank query texts rerank_top_k) as [results|].
      * eapply bind_step.
        -- eapply bind_step; [reflexivity|reflexivity|reflexivity].
        -- reflexivity.
        -- cbv beta. rewrite rerank_loop_run. reflexivity.
      * apply bind_raised. eapply bind_step; reflexivity.
    + reflexivity.
  - cbn [andb]. apply bind_raised. rewrite texts_loop_run, Hall. reflexivity.
Qed.

End Retrieval.

Lemma forallb_has_text (matches : list scored_vector) :
  forallb (fun m => bool_decide (is_Some (match_metadata m !! lit "text")))
    matches = true
  <-> Forall (fun m => is_Some (match_metadata m !! lit "text")) matches.
Proof.
  rewrite forallb_forall, Forall_forall. split; intros H m Hm.
  - apply list_elem_of_In, H in Hm. apply bool_decide_eq_true in Hm. exact Hm.
  - apply bool_decide_eq_true, H, list_elem_of_In, Hm.
Qed.

Lemma forallb_in_range (n : nat) (results : list nat) :
  forallb (fun i => (i <? n)%nat) results = true
  <-> Forall (fun i => (i < n)%nat) results.
Proof.
  rewrite forallb_forall, Forall_forall. split; intros H i Hi.
  - apply list_elem_of_In, H in Hi. apply Nat.ltb_lt in Hi. exact Hi.
  - apply Nat.ltb_lt, H, list_elem_of_In, Hi.
Qed.

Lemma ranked_docs_length (matches : list scored_vector) results :
  Forall (fun i => (i < length matches)%nat) results ->
  length (ranked_docs matches results) = length results.
Proof.
  induction 1 as [|i results Hi _ IH]; [reflexivity|].
  unfold ranked_docs in *. cbn [omap list_omap].
  destruct (lookup_lt_is_Some_2 matches i Hi) as [m Hm]. rewrite Hm.
  simpl. f_equal. exact IH.
Qed.

Section RetrievalEdges.
Context {P : Providers}.

(** X15. On an initialized index, when the matches all carry a text and
    the reranker ranks positions among them, [retrieve] returns, in the
    order of the ranking, the metadata of the matches at the ranked
    positions, one per position, after exactly three requests: the
    query-mode embedding, the index query, the rerank of the texts. *)
Theorem retrieve_reranked query s name v rest results :
  self_index s = Some name ->
  co_embed [query] search_query = Some (v :: rest) ->
  let matches := pc_query (pc_vectors s) v retrieve_top_k in
  matches <> [] ->
  Forall (fun m => is_Some (match_metadata m !! lit "text")) matches ->
  co_rerank query (match_texts matches) rerank_top_k = Some results ->
  Forall (fun i => (i < length matches)%nat) results ->
  retrieve query s
  = Outcome
      [CoEmbed [query] embed_model search_query;
       PcQuery v retrieve_top_k true;
       CoRerank query (match_texts matches) rerank_top_k rerank_model]
      s (Ok (ranked_docs matches results))
  /\ length (ranked_docs matches results) = length results.
Proof.
  intros Hi He matches Hne Htext Hr Hrange.
  split; [|apply ranked_docs_length, Hrange].
  rewrite (retrieve_run query s name v rest Hi He). fold matches.
  rewrite (proj2 (forallb_has_text matches) Htext).
  assert (Ht : truthy (match_texts matches) = true).
  { apply truthy_nonempty. intros Hnil.
    apply (f_equal length) in Hnil.
    rewrite (match_texts_length matches Htext) in Hnil.
    destruct matches; [congruence|discriminate]. }
  rewrite Ht, Hr, (proj2 (forallb_in_range _ results) Hrange).
  reflexivity.
Qed.

(** X16. When a match comes back without text, [retrieve] raises
    [KeyError] for the key ["text"] after the embedding request and the
    query: the reranker is not called. *)
Theorem retrieve_missing_text query s name v rest :
  self_index s = Some name ->
  co_embed [query] search_query = Some (v :: rest) ->
  (exists m, m ∈ pc_query (pc_vectors s) v retrieve_top_k
             /\ match_metadata m !! lit "text" = None) ->
  retrieve query s
  = Outcome
      [CoEmbed [query] embed_model search_query;
       PcQuery v retrieve_top_k true]
      s (Raise (KeyError (lit "text"))).
Proof.
  intros Hi He (m & Hm & Hnone).
  rewrite (retrieve_run query s name v rest Hi He).
  destruct (forallb _ (pc_query (pc_vectors s) v retrieve_top_k)) eqn:Hall;
    [|reflexivity].
  apply forallb_has_text in Hall. rewrite Forall_forall in Hall.
  destruct (Hall m Hm) as [t Ht]. congruence.
Qed.

(** X17. When the reranker names a position past the matches, [retrieve]
    raises [IndexError] after its three requests. *)
Theorem retrieve_rank_out_of_range query s name v rest results :
  self_index s = Some name ->
  co_embed [query] search_query = Some (v :: rest) ->
  let matches := pc_query (pc_vectors s) v retrieve_top_k in
  matches <> [] ->
  Forall (fun m => is_Some (match_metadata m !! lit "text")) matches ->
  co_rerank query (match_texts matches) rerank_top_k = Some results ->
  (exists i, i ∈ results /\ (length matches <= i)%nat) ->
  retrieve query s
  = Outcome
      [CoEmbed [query] embed_model search_query;
       PcQuery v retrieve_top_k true;
       CoRerank query (match_texts matches) rerank_top_k rerank_model]
      s (Raise IndexError).
Proof.
  intros Hi He matches Hne Htext Hr (i & Hin & Hge).
  rewrite (retrieve_run query s name v rest Hi He). fold matches.
  rewrite (proj2 (forallb_has_text matches) Htext).
  assert (Ht : truthy (match_texts matches) = true).
  { apply truthy_nonempty. intros Hnil.
    apply (f_equal length) in Hnil.
    rewrite (match_texts_length matches Htext) in Hnil.
    destruct matches; [congruence|discriminate]. }
  rewrite Ht, Hr.
  destruct (forallb _ results) eqn:Hall; [|reflexivity].
  apply forallb_in_range in Hall. rewrite Forall_forall in Hall.
  specialize (Hall i Hin). lia.
Qed.

Lemma retrieve_embed_raises query s name :
  self_index s = Some name ->
  co_embed [query] search_query = None ->
  retrieve query s
  = Outcome [CoEmbed [query] embed_model search_query] s (Raise CohereError).
Proof.
  intros Hi He. unfold retrieve.
  eapply bind_step; [reflexivity | reflexivity |].
  cbv beta. rewrite Hi. apply bind_raised.
  unfold embed_request, request. rewrite He. reflexivity.
Qed.

Lemma retrieve_embed_empty query s name :
  self_index s = Some name ->
  co_embed [query] search_query = Some [] ->
  retrieve query s
  = Outcome [CoEmbed [query] embed_model search_query] s (Raise IndexError).
Proof.
  intros Hi He. unfold retrieve.
  eapply bind_step; [reflexivity | reflexivity |].
  cbv beta. rewrite Hi.
  eapply bind_step; [apply (embed_request_run _ _ _ s He) | reflexivity |].
  cbv beta. apply bind_raised. reflexivity.
Qed.

(** X18. On an initialized index, when the query cannot be embedded,
    [retrieve] raises before any request to the index: the provider's
    error when the request raises, [IndexError] when the answer holds no
    vector. *)
Theorem retrieve_embedding_unavailable query s name :
  self_index s = Some name ->
  (co_embed [query] search_query = None ->
   retrieve query s
   = Outcome [CoEmbed [query] embed_model search_query] s
       (Raise CohereError))
  /\ (co_embed [query] search_query = Some [] ->
      retrieve query s
      = Outcome [CoEmbed [query] embed_model search_query] s
          (Raise IndexError)).
Proof.
  intros Hi. split.
  - apply retrieve_embed_raises with name. exact Hi.
  - apply retrieve_embed_empty with name. exact Hi.
Qed.

(** What [retrieve] returns is metadata of matches of its query. *)
Lemma retrieve_docs_from_matches query s docs d :
  value (retrieve query s) = Ok docs -> d ∈ docs ->
  exists v m,
    m ∈ pc_query (pc_vectors s) v retrieve_top_k /\ d = match_metadata m.
Proof.
  intros Hv Hd.
  destruct (self_index s) as [name|] eqn:Hi.
  - destruct (co_embed [query] search_query) as [[|v rest]|] eqn:He.
    + rewrite (retrieve_embed_empty query s name Hi He) in Hv. discriminate.
    + rewrite (retrieve_run query s name v rest Hi He) in Hv.
      cbn [value] in Hv.
      destruct (forallb _ (pc_query (pc_vectors s) v retrieve_top_k));
        [|discriminate].
      destruct (truthy _).
      * destruct (co_rerank _ _ _) as [results|]; [|discriminate].
        destruct (forallb _ results); [|discriminate].
        injection Hv as <-. unfold ranked_docs in Hd.
        apply list_elem_of_omap in Hd as (i & _ & Hm).
        destruct (pc_query (pc_vectors s) v retrieve_top_k !! i)
          as [m|] eqn:E; [|discriminate].
        injection Hm as <-. exists v, m. split; [|reflexivity].
        eapply list_elem_of_lookup_2, E.
      * injection Hv as <-. apply elem_of_nil in Hd. contradiction.
    + rewrite (retrieve_embed_raises query s name Hi He) in Hv. discriminate.
  - rewrite (retrieve_uninitialized query s Hi) in Hv.
    injection Hv as <-. apply elem_of_nil in Hd. contradiction.
Qed.

End RetrievalEdges.

Lemma retrieve_reranked_witness :
  let q := lit "Which?" in
  let v := sample_embedding q in
  let matches :=
    pc_query (Providers := odd_providers) (pc_vectors two_state) v
      retrieve_top_k in
  let blue : gmap (list N) (list N) := {[ lit "text" := lit "Blue." ]} in
  let green : gmap (list N) (list N) := {[ lit "text" := lit "Green." ]} in
  self_index two_state = Some index_name
  /\ co_embed (Providers := odd_providers) [q] search_query = Some [v]
  /\ matches <> []
  /\ Forall (fun m => is_Some (match_metadata m !! lit "text")) matches
  /\ co_rerank (Providers := odd_providers) q (match_texts matches)
       rerank_top_k = Some [1%nat; 0%nat]
  /\ Forall (fun i => (i < length matches)%nat) [1%nat; 0%nat]
  /\ retrieve (P := odd_providers) q two_state
     = Outcome
         [CoEmbed [q] embed_model search_query;
          PcQuery v retrieve_top_k true;
          CoRerank q two_chunks rerank_top_k rerank_model]
         two_state (Ok [green; blue])
  /\ length [green; blue] = 2%nat.
Proof.
  cbv zeta.
  assert (H3 : pc_query (Providers := odd_providers) (pc_vectors two_state)
                 (sample_embedding (lit "Which?")) retrieve_top_k <> [])
    by (vm_compute; discriminate).
  assert (H4 : Forall (fun m => is_Some (match_metadata m !! lit "text"))
                 (pc_query (Providers := odd_providers) (pc_vectors two_state)
                    (sample_embedding (lit "Which?")) retrieve_top_k))
    by (apply forallb_has_text; vm_compute; reflexivity).
  assert (H6 : Forall
                 (fun i =>
                    (i < length
                           (pc_query (Providers := odd_providers)
                              (pc_vectors two_state)
                              (sample_embedding (lit "Which?"))
                              retrieve_top_k))%nat)
                 [1%nat; 0%nat])
    by (apply forallb_in_range; vm_compute; reflexivity).
  split; [reflexivity|]. split; [reflexivity|]. split; [exact H3|].
  split; [exact H4|]. split; [vm_compute; reflexivity|]. split; [exact H6|].
  apply (retrieve_reranked (P := odd_providers) (lit "Which?") two_state
           index_name (sample_embedding (lit "Which?")) [] [1%nat; 0%nat]
           eq_refl eq_refl H3 H4 eq_refl H6).
Defined.

Lemma retrieve_missing_text_witness :
  let q := lit "Which?" in
  let v := sample_embedding q in
  self_index single_state = Some index_name
  /\ co_embed (Providers := odd_providers) [q] search_query = Some [v]
  /\ (exists m,
        m ∈ pc_query (Providers := odd_providers) (pc_vectors single_state) v
              retrieve_top_k
        /\ match_metadata m !! lit "text" = None)
  /\ retrieve (P := odd_providers) q single_state
     = Outcome
         [CoEmbed [q] embed_model search_query;
          PcQuery v retrieve_top_k true]
         single_state (Raise (KeyError (lit "text"))).
Proof.
  cbv zeta.
  assert (H3 : exists m,
             m ∈ pc_query (Providers := odd_providers)
                   (pc_vectors single_state)
                   (sample_embedding (lit "Which?")) retrieve_top_k
             /\ match_metadata m !! lit "text" = None).
  { exists {| match_id := lit "x"; match_metadata := ∅ |}.
    split; [|reflexivity]. vm_compute. right. left. }
  split; [reflexivity|]. split; [reflexivity|]. split; [exact H3|].
  apply (retrieve_missing_text (P := odd_providers) (lit "Which?")
           single_state index_name (sample_embedding (lit "Which?")) []
           eq_refl eq_refl H3).
Defined.

Lemma retrieve_rank_out_of_range_witness :
  let q := lit "past the end" in
  let v := sample_embedding q in
  let matches :=
    pc_query (Providers := odd_providers) (pc_vectors two_state) v
      retrieve_top_k in
  self_index two_state = Some index_name
  /\ co_embed (Providers := odd_providers) [q] search_query = Some [v]
  /\ matches <> []
  /\ Forall (fun m => is_Some (match_metadata m !! lit "text")) matches
  /\ co_rerank (Providers := odd_providers) q (match_texts matches)
       rerank_top_k = Some [0%nat; 2%nat]
  /\ (exists i, i ∈ [0%nat; 2%nat] /\ (length matches <= i)%nat)
  /\ retrieve (P := odd_providers) q two_state
     = Outcome
         [CoEmbed [q] embed_model search_query;
          PcQuery v retrieve_top_k true;
          CoRerank q (match_texts matches) rerank_top_k rerank_model]
         two_state (Raise IndexError).
Proof.
  cbv zeta.
  assert (H3 : pc_query (Providers := odd_providers) (pc_vectors two_state)
                 (sample_embedding (lit "past the end")) retrieve_top_k <> [])
    by (vm_compute; discriminate).
  assert (H4 : Forall (fun m => is_Some (match_metadata m !! lit "text"))
                 (pc_query (Providers := odd_providers) (pc_vectors two_state)
                    (sample_embedding (lit "past the end")) retrieve_top_k))
    by (apply forallb_has_text; vm_compute; reflexivity).
  assert (H6 : exists i,
             i ∈ [0%nat; 2%nat]
             /\ (length
                   (pc_query (Providers := odd_providers)
                      (pc_vectors two_state)
                      (sample_embedding (lit "past the end"))
                      retrieve_top_k) <= i)%nat).
  { exists 2%nat. split; [right; left|]. vm_compute. lia. }
  split; [reflexivity|]. split; [reflexivity|]. split; [exact H3|].
  split; [exact H4|]. split; [vm_compute; reflexivity|]. split; [exact H6|].
  apply (retrieve_rank_out_of_range (P := odd_providers) (lit "past the end")
           two_state index_name (sample_embedding (lit "past the end")) []
           [0%nat; 2%nat] eq_refl eq_refl H3 H4 eq_refl H6).
Defined.

Lemma retrieve_embedding_unavailable_witness :
  (self_index empty_index_state = Some index_name
   /\ co_embed (Providers := offline_providers) [lit "Which?"] search_query
      = None
   /\ retrieve (P := offline_providers) (lit "Which?") empty_index_state
      = Outcome [CoEmbed [lit "Which?"] embed_model search_query]
          empty_index_state (Raise CohereError))
  /\ (co_embed (Providers := silent_providers) [lit "Which?"] search_query
      = Some []
      /\ retrieve (P := silent_providers) (lit "Which?") empty_index_state
         = Outcome [CoEmbed [lit "Which?"] embed_model search_query]
             empty_index_state (Raise IndexError)).
Proof.
  split.
  - split; [reflexivity|]. split; [reflexivity|].
    apply (proj1 (retrieve_embedding_unavailable (P := offline_providers)
                    (lit "Which?") empty_index_state index_name eq_refl)).
    reflexivity.
  - split; [reflexivity|].
    apply (proj2 (retrieve_embedding_unavailable (P := silent_providers)
                    (lit "Which?") empty_index_state index_name eq_refl)).
    reflexivity.
Defined.

(** ** [respond], continued *)

Section Answers.
Context {P : Providers}.

Lemma respond_raised_run self user_message s events s1 e :
  retrieve user_message s = Outcome events s1 (Raise e) ->
  respond self user_message s
  = Outcome (Printed (MsgUsingQuery [user_message]) :: events) s1 (Raise e).
Proof.
  intros Hret. unfold respond. run_step.
  apply bind_raised. cbn [for_in]. apply bind_raised.
  apply bind_raised. exact Hret.
Qed.

(** X19. When retrieval raises, [respond] raises the same error and the
    generation provider is not called. *)
Theorem respond_propagates_retrieval_error self user_message s events s1 e :
  retrieve user_message s = Outcome events s1 (Raise e) ->
  value (respond self user_message s) = Raise e
  /\ Forall (fun ev => is_generation ev = false)
       (emitted (respond self user_message s)).
Proof.
  intros Hret.
  rewrite (respond_raised_run self user_message s events s1 e Hret).
  cbn [value emitted]. split; [reflexivity|].
  constructor; [reflexivity|].
  assert (H : emits_only (fun ev => is_generation ev = false)
                (retrieve user_message)).
  { unfold retrieve, embed_request. emits_with ltac:(reflexivity). }
  specialize (H s). rewrite Hret in H. exact H.
Qed.

Lemma keep_first_distinct seen docs :
  NoDup (map text_of docs) ->
  (forall d, d ∈ docs -> text_of d ∉ seen) ->
  keep_first seen docs = docs.
Proof.
  revert seen. induction docs as [|d r IH]; intros seen Hnd Hseen; simpl.
  - reflexivity.
  - apply NoDup_cons in Hnd as [Hd Hr].
    rewrite bool_decide_eq_false_2 by (apply Hseen; left).
    f_equal. apply IH; [exact Hr|].
    intros d' Hd' Hin. apply elem_of_app in Hin as [Hin|Hin].
    + apply (Hseen d'); [right; exact Hd'|exact Hin].
    + apply list_elem_of_singleton in Hin. apply Hd. rewrite <- Hin.
      apply list_elem_of_fmap. exists d'. auto.
Qed.

Lemma keep_first_has_text seen docs :
  Forall (fun d => is_Some (d !! lit "text")) docs ->
  Forall (fun d => is_Some (d !! lit "text")) (keep_first seen docs).
Proof.
  rewrite !Forall_forall. intros H d Hd. apply H.
  eapply elem_of_sublist; [exact Hd|apply keep_first_sublist].
Qed.

(** X20. De-duplication is idempotent and touches nothing else: on
    documents that carry a text it emits no event, keeps the state, and
    run again on its own result returns that result; documents whose
    texts are all different come back unchanged. *)
Theorem deduplicate_idempotent docs s :
  Forall (fun d => is_Some (d !! lit "text")) docs ->
  exists unique,
    deduplicate docs s = Outcome [] s (Ok unique)
    /\ deduplicate unique s = Outcome [] s (Ok unique)
    /\ (NoDup (map text_of docs) -> unique = docs).
Proof.
  intros H. exists (keep_first [] docs).
  split; [apply deduplicate_run, H|]. split.
  - rewrite deduplicate_run by (apply keep_first_has_text, H).
    rewrite keep_first_distinct; [reflexivity|apply keep_first_NoDup|].
    intros d _. apply not_elem_of_nil.
  - intros Hnd. apply keep_first_distinct; [exact Hnd|].
    intros d _. apply not_elem_of_nil.
Qed.

End Answers.

Lemma respond_propagates_retrieval_error_witness :
  retrieve (P := offline_providers) (lit "Which?") empty_index_state
  = Outcome [CoEmbed [lit "Which?"] embed_model search_query]
      empty_index_state (Raise CohereError)
  /\ value (respond (P := offline_providers) sample_bot (lit "Which?")
              empty_index_state) = Raise CohereError
  /\ Forall (fun ev => is_generation ev = false)
       (emitted (respond (P := offline_providers) sample_bot (lit "Which?")
                   empty_index_state)).
Proof.
  split; [reflexivity|].
  apply (respond_propagates_retrieval_error (P := offline_providers)
           sample_bot (lit "Which?") empty_index_state
           [CoEmbed [lit "Which?"] embed_model search_query]
           empty_index_state CohereError).
  reflexivity.
Defined.

Lemma deduplicate_idempotent_witness :
  let blue : gmap (list N) (list N) := {[ lit "text" := lit "Blue." ]} in
  let green : gmap (list N) (list N) := {[ lit "text" := lit "Green." ]} in
  let docs := [blue; blue; green] in
  Forall (fun d => is_Some (d !! lit "text")) docs
  /\ exists unique,
       deduplicate docs fresh_state = Outcome [] fresh_state (Ok unique)
       /\ deduplicate unique fresh_state = Outcome [] fresh_state (Ok unique)
       /\ (NoDup (map text_of docs) -> unique = docs).
Proof.
  cbv zeta.
  assert (H : Forall (fun d : gmap (list N) (list N) =>
                        is_Some (d !! lit "text"))
                [ {[ lit "text" := lit "Blue." ]};
                  {[ lit "text" := lit "Blue." ]};
                  {[ lit "text" := lit "Green." ]} ]).
  { repeat (constructor; [eexists; reflexivity|]). constructor. }
  split; [exact H|].
  apply (deduplicate_idempotent _ fresh_state H).
Defined.

(** ** Ingestion, then answers *)

Section Grounding.
Context {P : Providers}.

(** X21. After a document is ingested, with an embedding provider that
    embeds each text and an index that answers only with records it
    holds, every grounding document of every generation request of
    [respond] is the payload [{"text": chunk}] of a chunk of that
    document. *)
Theorem respond_grounded_in_document pdf_path pages (e : str -> list float)
  s self user_message :
  fitz_pages pdf_path = Some pages ->
  (forall texts, co_embed texts search_document = Some (map e texts)) ->
  query_returns_stored ->
  let s1 := final (process_document pdf_path s) in
  forall msg model docs cid d,
    CoChatStream msg model docs cid ∈ emitted (respond self user_message s1) ->
    d ∈ docs ->
    exists c,
      c ∈ _split_text (concat pages) default_chunk_size
      /\ d = {[ lit "text" := c ]}.
Proof.
  intros Hf He Hq s1 msg model docs cid d Hchat Hd.
  set (chunks := _split_text (concat pages) default_chunk_size).
  assert (Hs1 : pc_vectors s1
                = upsert_all (vectors_of chunks (map e chunks)) ∅).
  { unfold s1. rewrite (process_document_run pdf_path pages e s Hf He).
    reflexivity. }
  assert (Hquiet : Forall (fun ev => is_generation ev = false)
                     (emitted (retrieve user_message s1))).
  { assert (H : emits_only (fun ev => is_generation ev = false)
                  (retrieve user_message)).
    { unfold retrieve, embed_request. emits_with ltac:(reflexivity). }
    apply H. }
  rewrite Forall_forall in Hquiet.
  assert (Hsrc : forall d0 docs0,
             value (retrieve user_message s1) = Ok docs0 -> d0 ∈ docs0 ->
             exists c, c ∈ chunks /\ d0 = {[ lit "text" := c ]}).
  { intros d0 docs0 Hv Hd0.
    destruct (retrieve_docs_from_matches user_message s1 docs0 d0 Hv Hd0)
      as (v & m & Hm & ->).
    destruct (Hq _ _ _ _ Hm) as (key & r & Hr & ->).
    rewrite Hs1 in Hr.
    apply indexed_lookup in Hr as (i & c & e' & Hc & _ & _ & ->).
    exists c. split; [|reflexivity].
    eapply list_elem_of_lookup_2, Hc. }
  rewrite (outcome_eq (retrieve user_message s1)) in Hsrc, Hquiet.
  destruct (value (retrieve user_message s1)) as [docs0|err] eqn:Hv.
  - rewrite (respond_run self user_message s1 _ _ docs0
               (eq_trans (outcome_eq _) (f_equal _ Hv))) in Hchat.
    cbn [emitted] in Hchat.
    apply elem_of_cons in Hchat as [Hchat|Hchat]; [discriminate|].
    apply elem_of_app in Hchat as [Hchat|Hchat].
    + apply Hquiet in Hchat. discriminate.
    + apply elem_of_cons in Hchat as [Hchat|Hchat]; [discriminate|].
      apply list_elem_of_singleton in Hchat. injection Hchat as _ _ -> _.
      apply (Hsrc d docs0 eq_refl).
      eapply elem_of_sublist; [exact Hd|apply keep_first_sublist].
  - rewrite (respond_raised_run self user_message s1 _ _ err
               (eq_trans (outcome_eq _) (f_equal _ Hv))) in Hchat.
    cbn [emitted] in Hchat.
    apply elem_of_cons in Hchat as [Hchat|Hchat]; [discriminate|].
    apply Hquiet in Hchat. discriminate.
Qed.

End Grounding.

Lemma sample_query_returns_stored :
  query_returns_stored (P := sample_providers).
Proof.
  intros stored vector top_k m Hm. cbn [pc_query sample_providers] in Hm.
  apply list_elem_of_fmap in Hm as (r & -> & Hr).
  apply list_elem_of_omap in Hr as (i & _ & Hi).
  exists (str_of_nat i), r. split; [exact Hi|reflexivity].
Qed.

Lemma respond_grounded_in_document_witness :
  fitz_pages (Providers := sample_providers) (lit "sky.pdf")
  = Some [sample_text]
  /\ (forall texts,
        co_embed (Providers := sample_providers) texts search_document
        = Some (map sample_embedding texts))
  /\ query_returns_stored (P := sample_providers)
  /\ forall msg model docs cid d,
       CoChatStream msg model docs cid
       ∈ emitted (respond (P := sample_providers) sample_bot
                    (lit "What is blue?")
                    (final (process_document (P := sample_providers)
                              (lit "sky.pdf") fresh_state))) ->
       d ∈ docs ->
       exists c,
         c ∈ _split_text (concat [sample_text]) default_chunk_size
         /\ d = {[ lit "text" := c ]}.
Proof.
  split; [reflexivity|]. split; [reflexivity|].
  split; [exact sample_query_returns_stored|].
  apply (respond_grounded_in_document (P := sample_providers) (lit "sky.pdf")
           [sample_text] sample_embedding fresh_state sample_bot
           (lit "What is blue?") eq_refl (fun _ => eq_refl)
           sample_query_returns_stored).
Defined.

(** ** The application script *)

Lemma store_object_state o a : store_object (object_state o a) = o.
Proof. destruct o. reflexivity. Qed.

Lemma with_remote_object_state o a sess :
  with_remote (object_state o a) sess
  = {| session := sess; remote_names := remote_names a;
       remote_vectors := remote_vectors a |}.
Proof. reflexivity. Qed.

Lemma fold_stream_step_text response_stream : forall full shown,
  (fold_left stream_step response_stream (full, shown)).1
  = full ++ answer_text response_stream.
Proof.
  induction response_stream as [|ev l IH]; intros full shown.
  - simpl. rewrite app_nil_r. reflexivity.
  - cbn [fold_left]. unfold stream_step at 2. unfold answer_text.
    rewrite filter_cons.
    destruct (decide (event_type ev = text_generation)) as [E|E].
    + rewrite (bool_decide_eq_true_2 _ E). rewrite IH.
      cbn [map concat]. rewrite <- app_assoc. reflexivity.
    + rewrite (bool_decide_eq_false_2 _ E). apply IH.
Qed.

Section AppRuns.
Context {P : Providers}.

(** The chat block with a chatbot and a question, run. *)
Lemma chat_block_run w a question bot :
  prompt w = Some question -> question <> [] ->
  chatbot (session a) = Some bot ->
  let o := respond (chatbot_self bot) question
             (object_state (chatbot_vectorstore bot) a) in
  let user := {| role := lit "user"; content := question |} in
  let before :=
    [StChatMessage (lit "user"); StMarkdown question;
     StChatMessage (lit "assistant"); StEmpty] ++ map Ran (emitted o) in
  chat_block w a
  = match value o with
    | Ok response_stream =>
        (before
         ++ (fold_left stream_step response_stream ([], [])).2
         ++ [StMarkdown (answer_text response_stream)],
         {| session :=
              {| chat_history :=
                   (chat_history (session a) ++ [user])
                   ++ [{| role := lit "assistant";
                          content := answer_text response_stream |}];
                 vector_store := vector_store (session a);
                 chatbot := Some bot;
                 processed_file_id := processed_file_id (session a) |};
            remote_names := remote_names a;
            remote_vectors := remote_vectors a |})
    | Raise e =>
        (before ++ [StError (ResponseFailed e)],
         {| session :=
              {| chat_history := chat_history (session a) ++ [user];
                 vector_store := vector_store (session a);
                 chatbot := Some bot;
                 processed_file_id := processed_file_id (session a) |};
            remote_names := remote_names a;
            remote_vectors := remote_vectors a |})
    end.
Proof.
  intros Hp Hq Hbot o user before.
  unfold chat_block. rewrite Hp, (truthy_nonempty question Hq), Hbot.
  cbn [negb]. fold o.
  assert (Hfinal : final o = object_state (chatbot_vectorstore bot) a)
    by apply respond_keeps_state.
  rewrite Hfinal, store_object_state, with_remote_object_state.
  replace {| chatbot_self := chatbot_self bot;
             chatbot_vectorstore := chatbot_vectorstore bot |}
    with bot by (destruct bot; reflexivity).
  destruct (value o) as [response_stream|e]; [|reflexivity].
  pose proof (fold_stream_step_text response_stream [] []) as Ht.
  destruct (fold_left stream_step response_stream ([], [])) as [full shown].
  cbn [fst snd app] in *. subst full. reflexivity.
Qed.

End AppRuns.

Lemma last_two {A} (l : list A) x y : last (l ++ [x; y]) = Some y.
Proof.
  change (l ++ [x; y]) with (l ++ [x] ++ [y]).
  rewrite app_assoc. apply last_snoc.
Qed.

Lemma user_is_not_assistant : lit "user" <> lit "assistant".
Proof. discriminate. Qed.

Section AppProperties.
Context {P : Providers}.

(** X22. Asking before any document was processed: the run shows the
    upload-first error and does nothing else; no provider is called and
    the state is unchanged. *)
Theorem ask_before_upload w a question :
  session_ok (session a) ->
  chatbot (session a) = None ->
  uploaded w = None ->
  prompt w = Some question -> question <> [] ->
  script_run w a = ([StError UploadFirst], a).
Proof.
  intros (_ & _ & Hhist & _) Hbot Hup Hp Hq.
  assert (Hempty : chat_history (session a) = []).
  { destruct (chat_history (session a)) as [|m l] eqn:E; [reflexivity|].
    destruct Hhist as [b Hb]; [discriminate|]. congruence. }
  unfold script_run, upload_block. rewrite Hup.
  unfold chat_block. rewrite Hp, (truthy_nonempty question Hq), Hbot.
  unfold display_history. rewrite Hempty. reflexivity.
Qed.


(** X24. A turn that fails leaves the question alone in the history: when
    [respond] raises, the history gains the user message only, the run
    shows the error last, and the rest of the session and the index are
    unchanged. *)
Theorem chat_turn_failed w a question bot e :
  prompt w = Some question -> question <> [] ->
  chatbot (session a) = Some bot ->
  value (respond (chatbot_self bot) question
           (object_state (chatbot_vectorstore bot) a)) = Raise e ->
  let a' := (chat_block w a).2 in
  chat_history (session a')
  = chat_history (session a) ++ [{| role := lit "user"; content := question |}]
  /\ last (chat_block w a).1 = Some (StError (ResponseFailed e))
  /\ vector_store (session a') = vector_store (session a)
  /\ chatbot (session a') = Some bot
  /\ processed_file_id (session a') = processed_file_id (session a)
  /\ remote_names a' = remote_names a
  /\ remote_vectors a' = remote_vectors a.
Proof.
  intros Hp Hq Hbot Hv. cbv zeta.
  rewrite (chat_block_run w a question bot Hp Hq Hbot). cbv zeta.
  rewrite Hv. cbn [fst snd session chat_history vector_store chatbot
                   processed_file_id remote_names remote_vectors].
  split; [reflexivity|]. split; [|repeat split].
  apply last_snoc.
Qed.

(** The upload block on a new file with both keys, run. *)
Lemma upload_block_run w a file :
  uploaded w = Some file ->
  Some (file_id file) <> processed_file_id (session a) ->
  cohere_api_key w <> [] -> pinecone_api_key w <> [] ->
  let o := (let* _ := __init__ in process_document (tmp_file_path w))
             (object_state blank_object a) in
  let built := store_object (final o) in
  let before :=
    StSpinner :: TmpWrite (tmp_file_path w) (getvalue file)
    :: map Ran (emitted o) in
  upload_block w a
  = match value o with
    | Ok _ =>
        (before ++ [StSuccess ProcessingDone; OsUnlink (tmp_file_path w)],
         with_remote (final o)
           {| chat_history := [];
              vector_store := Some built;
              chatbot :=
                Some {| chatbot_self := {| conversation_id := uuid4 w |};
                        chatbot_vectorstore := built |};
              processed_file_id := Some (file_id file) |})
    | Raise e =>
        (before ++ [StError (ProcessingFailed e); OsUnlink (tmp_file_path w)],
         with_remote (final o)
           {| chat_history := chat_history (session a);
              vector_store := Some built;
              chatbot := chatbot (session a);
              processed_file_id := processed_file_id (session a) |})
    end.
Proof.
  intros Hup Hnew Hc Hp o built before. unfold upload_block.
  rewrite Hup, (bool_decide_eq_false_2 _ Hnew).
  rewrite (truthy_nonempty _ Hc), (truthy_nonempty _ Hp). reflexivity.
Qed.

(** X25. A document that was processed is processed once: after a
    successful upload the session has an empty history, the id of the
    file, the new vector store and a chatbot on it with the new
    conversation id; and the upload block of any later run with a file of
    the same id does nothing. *)
Theorem upload_success_once w a file u :
  uploaded w = Some file ->
  Some (file_id file) <> processed_file_id (session a) ->
  cohere_api_key w <> [] -> pinecone_api_key w <> [] ->
  value ((let* _ := __init__ in process_document (tmp_file_path w))
           (object_state blank_object a)) = Ok u ->
  let a1 := (upload_block w a).2 in
  chat_history (session a1) = []
  /\ processed_file_id (session a1) = Some (file_id file)
  /\ (exists built,
        vector_store (session a1) = Some built
        /\ chatbot (session a1)
           = Some {| chatbot_self := {| conversation_id := uuid4 w |};
                     chatbot_vectorstore := built |})
  /\ (forall w' file',
        uploaded w' = Some file' -> file_id file' = file_id file ->
        upload_block w' a1 = ([], a1)).
Proof.
  intros Hup Hnew Hc Hp Hv. cbv zeta.
  rewrite (upload_block_run w a file Hup Hnew Hc Hp). cbv zeta.
  rewrite Hv. cbn [snd].
  split; [reflexivity|]. split; [reflexivity|]. split; [eauto|].
  intros w' file' Hup' Hid. unfold upload_block. rewrite Hup'.
  unfold with_remote. cbn [session processed_file_id].
  rewrite Hid, bool_decide_eq_true_2 by reflexivity. reflexivity.
Qed.

(** X26. A document that failed is tried again: when processing raises,
    the error is shown and the temporary file removed, the history, the
    chatbot of the previous document and the id of the processed file
    stay as they were, and the upload block of the next run with the same
    widgets processes the file again. *)
Theorem upload_failure_retried w a file e :
  uploaded w = Some file ->
  Some (file_id file) <> processed_file_id (session a) ->
  cohere_api_key w <> [] -> pinecone_api_key w <> [] ->
  value ((let* _ := __init__ in process_document (tmp_file_path w))
           (object_state blank_object a)) = Raise e ->
  let a1 := (upload_block w a).2 in
  chat_history (session a1) = chat_history (session a)
  /\ chatbot (session a1) = chatbot (session a)
  /\ processed_file_id (session a1) = processed_file_id (session a)
  /\ StError (ProcessingFailed e) ∈ (upload_block w a).1
  /\ last (upload_block w a).1 = Some (OsUnlink (tmp_file_path w))
  /\ exists rest,
       (upload_block w a1).1
       = StSpinner :: TmpWrite (tmp_file_path w) (getvalue file) :: rest.
Proof.
  intros Hup Hnew Hc Hp Hv. cbv zeta.
  rewrite (upload_block_run w a file Hup Hnew Hc Hp). cbv zeta.
  rewrite Hv. cbn [fst snd].
  split; [reflexivity|]. split; [reflexivity|]. split; [reflexivity|].
  split; [|split].
  - apply elem_of_app. right. left.
  - apply last_two.
  - rewrite (upload_block_run w _ file Hup); [| exact Hnew | exact Hc | exact Hp].
    cbv zeta.
    match goal with
    | |- context [match ?v with Ok _ => _ | Raise _ => _ end] => destruct v
    end; cbn [fst]; eexists; reflexivity.
Qed.

End AppProperties.

(** ** What the runs of the script keep *)

Lemma turns_ok_nil : turns_ok [].
Proof. intros i m H. rewrite lookup_nil in H. discriminate. Qed.

Lemma turns_ok_user history u :
  turns_ok history -> role u = lit "user" -> turns_ok (history ++ [u]).
Proof.
  intros Hh Hu i m Hi Hm.
  destruct (decide (i < length history)%nat) as [Hlt|Hge].
  - rewrite lookup_app_l in Hi by exact Hlt.
    destruct (Hh i m Hi Hm) as (j & q & -> & Hj & Hq).
    exists j, q. split; [reflexivity|]. split; [|exact Hq].
    rewrite lookup_app_l by lia. exact Hj.
  - rewrite lookup_app_r in Hi by lia.
    destruct (i - length history)%nat as [|k]; simpl in Hi; [|discriminate].
    injection Hi as <-. rewrite Hu in Hm.
    exfalso. exact (user_is_not_assistant Hm).
Qed.

Lemma turns_ok_after_user history u x :
  turns_ok (history ++ [u]) -> role u = lit "user" ->
  turns_ok ((history ++ [u]) ++ [x]).
Proof.
  intros Hh Hu i m Hi Hm.
  destruct (decide (i < length (history ++ [u]))%nat) as [Hlt|Hge].
  - rewrite lookup_app_l in Hi by exact Hlt.
    destruct (Hh i m Hi Hm) as (j & q & -> & Hj & Hq).
    exists j, q. split; [reflexivity|]. split; [|exact Hq].
    rewrite lookup_app_l by lia. exact Hj.
  - apply lookup_lt_Some in Hi as Hlen.
    rewrite !length_app in *. simpl in *.
    exists (length history), u. split; [lia|]. split; [|exact Hu].
    rewrite lookup_app_l by (rewrite length_app; simpl; lia).
    rewrite lookup_app_r, Nat.sub_diag by lia. reflexivity.
Qed.

Lemma initial_session_ok : session_ok initial_session.
Proof.
  unfold session_ok, initial_session. cbn.
  split; [split; intros [? ?]; discriminate|].
  split; [intros [? ?]; discriminate|]. split; [congruence|].
  apply turns_ok_nil.
Qed.

Section Invariant.
Context {P : Providers}.

Lemma upload_block_ok w a :
  session_ok (session a) -> session_ok (session (upload_block w a).2).
Proof.
  intros Hok. unfold upload_block.
  destruct (uploaded w) as [file|]; [|exact Hok].
  destruct (bool_decide _); [exact Hok|].
  destruct (_ || _); [exact Hok|].
  destruct Hok as (H1 & H2 & H3 & H4).
  destruct (value _) as [u|e];
    cbn [snd with_remote session chat_history chatbot vector_store
         processed_file_id].
  - split; [split; eauto|]. split; [eauto|]. split; [eauto|].
    apply turns_ok_nil.
  - split; [exact H1|]. split; [eauto|]. split; [exact H3|exact H4].
Qed.

Lemma chat_block_ok w a :
  session_ok (session a) -> session_ok (session (chat_block w a).2).
Proof.
  intros Hok.
  destruct (prompt w) as [question|] eqn:Hp;
    [|unfold chat_block; rewrite Hp; exact Hok].
  destruct question as [|c question];
    [unfold chat_block; rewrite Hp; exact Hok|].
  destruct (chatbot (session a)) as [bot|] eqn:Hbot;
    [|unfold chat_block; rewrite Hp, Hbot; exact Hok].
  rewrite (chat_block_run w a (c :: question) bot Hp ltac:(discriminate) Hbot).
  cbv zeta.
  destruct Hok as (H1 & H2 & H3 & H4). rewrite Hbot in H1, H2.
  assert (Huser : turns_ok
                    (chat_history (session a)
                     ++ [{| role := lit "user"; content := c :: question |}]))
    by (apply turns_ok_user; [exact H4|reflexivity]).
  destruct (value _) as [response_stream|e];
    cbn [snd session chat_history chatbot vector_store processed_file_id].
  - split; [exact H1|]. split; [exact H2|]. split; [eauto|].
    apply turns_ok_after_user; [exact Huser|reflexivity].
  - split; [exact H1|]. split; [exact H2|]. split; [eauto|exact Huser].
Qed.

Lemma script_run_snd w a :
  (script_run w a).2 = (chat_block w (upload_block w a).2).2.
Proof.
  unfold script_run. destruct (upload_block w a) as [ev1 a1]. cbn [snd].
  destruct (chat_block w a1) as [ev2 a2]. reflexivity.
Qed.

(** X27. Whatever the widgets return, run after run from the first, the
    session keeps this: there is a chatbot exactly when a file was
    processed, and then there is a vector store; the history is empty
    unless there is a chatbot; and every assistant message of the history
    comes right after a user message. *)
Theorem session_invariant ws names vectors :
  session_ok
    (session
       (script_runs ws
          {| session := initial_session; remote_names := names;
             remote_vectors := vectors |})).
Proof.
  assert (Hruns : forall ws a,
             session_ok (session a) -> session_ok (session (script_runs ws a))).
  { clear. induction ws as [|w ws IH]; intros a Ha; [exact Ha|].
    unfold script_runs. cbn [fold_left]. apply IH.
    rewrite script_run_snd. apply chat_block_ok, upload_block_ok, Ha. }
  apply Hruns. exact initial_session_ok.
Qed.

(** X28. A run that processes no file changes neither the index nor the
    objects: when no file is uploaded, or the uploaded file is the one
    already processed, the run leaves the Pinecone project, the vector
    store, the chatbot and the id of the processed file as they were. *)
Theorem run_without_new_file w a :
  (forall file, uploaded w = Some file ->
     Some (file_id file) = processed_file_id (session a)) ->
  let a' := (script_run w a).2 in
  remote_names a' = remote_names a
  /\ remote_vectors a' = remote_vectors a
  /\ vector_store (session a') = vector_store (session a)
  /\ chatbot (session a') = chatbot (session a)
  /\ processed_file_id (session a') = processed_file_id (session a).
Proof.
  intros Hsame. cbv zeta. rewrite script_run_snd.
  assert (Hup : (upload_block w a).2 = a).
  { unfold upload_block. destruct (uploaded w) as [file|]; [|reflexivity].
    rewrite (bool_decide_eq_true_2 _ (Hsame file eq_refl)). reflexivity. }
  rewrite Hup.
  destruct (prompt w) as [question|] eqn:Hp.
  2: { replace (chat_block w a).2 with a
         by (unfold chat_block; rewrite Hp; reflexivity).
       repeat split. }
  destruct question as [|c question].
  { replace (chat_block w a).2 with a
      by (unfold chat_block; rewrite Hp; reflexivity).
    repeat split. }
  destruct (chatbot (session a)) as [bot|] eqn:Hbot.
  2: { replace (chat_block w a).2 with a
         by (unfold chat_block; rewrite Hp, Hbot; reflexivity).
       repeat split. exact Hbot. }
  rewrite (chat_block_run w a (c :: question) bot Hp ltac:(discriminate) Hbot).
  cbv zeta.
  destruct (value _);
    cbn [snd session chatbot vector_store processed_file_id remote_names
         remote_vectors]; repeat split.
Qed.

End Invariant.

Lemma fold_stream_step_ui response_stream : forall full shown,
  Forall (fun ev => forall e, ev <> Ran e) shown ->
  Forall (fun ev => forall e, ev <> Ran e)
    (fold_left stream_step response_stream (full, shown)).2.
Proof.
  induction response_stream as [|ev l IH]; intros full shown H; [exact H|].
  cbn [fold_left]. unfold stream_step at 2.
  destruct (bool_decide _); apply IH; [|exact H].
  apply Forall_app. split; [exact H|]. repeat constructor. discriminate.
Qed.

Section Ungrounded.
Context {P : Providers}.

(** X29. An upload whose embeddings come back empty is reported as a
    success: the index is not touched, yet the run shows the success
    message and builds a chatbot on a vector store without index. Every
    question then goes to the generation provider with no grounding
    document, after no other request. *)
Theorem upload_without_embeddings w a file pages :
  uploaded w = Some file ->
  Some (file_id file) <> processed_file_id (session a) ->
  cohere_api_key w <> [] -> pinecone_api_key w <> [] ->
  fitz_pages (tmp_file_path w) = Some pages ->
  (forall texts, co_embed texts search_document = Some []) ->
  let a1 := (upload_block w a).2 in
  StSuccess ProcessingDone ∈ (upload_block w a).1
  /\ remote_names a1 = remote_names a
  /\ remote_vectors a1 = remote_vectors a
  /\ chatbot (session a1)
     = Some {| chatbot_self := {| conversation_id := uuid4 w |};
               chatbot_vectorstore :=
                 {| object_index := None; object_dimension := 1024%Z |} |}
  /\ forall w' question,
       prompt w' = Some question -> question <> [] ->
       exists rest,
         (chat_block w' a1).1
         = [StChatMessage (lit "user"); StMarkdown question;
            StChatMessage (lit "assistant"); StEmpty]
           ++ map Ran
                [Printed (MsgUsingQuery [question]);
                 Printed MsgIndexNotInitialized;
                 Printed MsgNoDocuments;
                 CoChatStream question chat_model [] (uuid4 w)]
           ++ rest
         /\ Forall (fun ev => forall e, ev <> Ran e) rest.
Proof.
  intros Hup Hnew Hc Hp Hf He. cbv zeta.
  assert (Hrun : exists events,
             (let* _ := __init__ in process_document (tmp_file_path w))
               (object_state blank_object a)
             = Outcome events
                 (set_dimension 1024 (set_index None
                                        (object_state blank_object a)))
                 (Ok tt)).
  { eexists. eapply bind_step; [apply init_run | reflexivity |].
    cbv beta. rewrite (He [lit "hello world"]). cbn [probed_dimension].
    apply (process_document_silent_run _ pages _ Hf He). }
  destruct Hrun as [events Hrun].
  rewrite (upload_block_run w a file Hup Hnew Hc Hp). cbv zeta.
  rewrite Hrun. cbn [value final emitted fst snd].
  split; [apply elem_of_app; right; left|].
  split; [reflexivity|]. split; [reflexivity|]. split; [reflexivity|].
  intros w' question Hq Hne.
  erewrite (chat_block_run w' _ question _ Hq Hne); [|reflexivity].
  cbv zeta.
  rewrite respond_uninitialized_run by reflexivity.
  cbn [value emitted conversation_id chatbot_self].
  destruct (co_chat_stream question [] (uuid4 w)) as [response_stream|];
    cbn [fst]; eexists; (split; [reflexivity|]).
  - apply Forall_app. split; [|repeat constructor; discriminate].
    apply fold_stream_step_ui. constructor.
  - repeat constructor. discriminate.
Qed.

End Ungrounded.

(** ** The application script, on the concrete worlds *)

Lemma ask_before_upload_witness :
  session_ok (session fresh_app)
  /\ chatbot (session fresh_app) = None
  /\ uploaded question_only = None
  /\ prompt question_only = Some (lit "What is blue?")
  /\ lit "What is blue?" <> []
  /\ script_run (P := sample_providers) question_only fresh_app
     = ([StError UploadFirst], fresh_app).
Proof.
  assert (Hne : lit "What is blue?" <> []) by discriminate.
  split; [exact initial_session_ok|]. split; [reflexivity|].
  split; [reflexivity|]. split; [reflexivity|]. split; [exact Hne|].
  apply (ask_before_upload (P := sample_providers) question_only fresh_app
           (lit "What is blue?") initial_session_ok eq_refl eq_refl eq_refl
           Hne).
Defined.


Example answer_text_mixed : answer_text mixed_stream = lit "Blue.".
Proof. vm_compute. reflexivity. Qed.

Lemma chat_turn_failed_witness :
  let w := question_only in
  let a := ready_app in
  let q := lit "What is blue?" in
  prompt w = Some q
  /\ q <> []
  /\ chatbot (session a) = Some ready_bot
  /\ value (respond (P := offline_providers) (chatbot_self ready_bot) q
              (object_state (chatbot_vectorstore ready_bot) a))
     = Raise CohereError
  /\ let a' := (chat_block (P := offline_providers) w a).2 in
     chat_history (session a')
     = chat_history (session a) ++ [{| role := lit "user"; content := q |}]
     /\ last (chat_block (P := offline_providers) w a).1
        = Some (StError (ResponseFailed CohereError))
     /\ vector_store (session a') = vector_store (session a)
     /\ chatbot (session a') = Some ready_bot
     /\ processed_file_id (session a') = processed_file_id (session a)
     /\ remote_names a' = remote_names a
     /\ remote_vectors a' = remote_vectors a.
Proof.
  cbv zeta.
  assert (Hne : lit "What is blue?" <> []) by discriminate.
  assert (Hbot : chatbot (session ready_app) = Some ready_bot)
    by (vm_compute; reflexivity).
  assert (Hv : value (respond (P := offline_providers)
                        (chatbot_self ready_bot) (lit "What is blue?")
                        (object_state (chatbot_vectorstore ready_bot)
                           ready_app)) = Raise CohereError)
    by (vm_compute; reflexivity).
  split; [reflexivity|]. split; [exact Hne|]. split; [exact Hbot|].
  split; [exact Hv|].
  apply (chat_turn_failed (P := offline_providers) question_only
           ready_app (lit "What is blue?") ready_bot CohereError eq_refl
           Hne Hbot Hv).
Defined.

Lemma upload_success_once_witness :
  let w := sky_upload in
  let a := fresh_app in
  let file := {| file_id := lit "file-1"; getvalue := lit "%PDF" |} in
  uploaded w = Some file
  /\ Some (file_id file) <> processed_file_id (session a)
  /\ cohere_api_key w <> []
  /\ pinecone_api_key w <> []
  /\ value ((let* _ := __init__ (P := streaming_providers) in
             process_document (P := streaming_providers) (tmp_file_path w))
              (object_state blank_object a)) = Ok tt
  /\ let a1 := (upload_block (P := streaming_providers) w a).2 in
     chat_history (session a1) = []
     /\ processed_file_id (session a1) = Some (file_id file)
     /\ (exists built,
           vector_store (session a1) = Some built
           /\ chatbot (session a1)
              = Some {| chatbot_self := {| conversation_id := uuid4 w |};
                        chatbot_vectorstore := built |})
     /\ (forall w' file',
           uploaded w' = Some file' -> file_id file' = file_id file ->
           upload_block (P := streaming_providers) w' a1 = ([], a1)).
Proof.
  cbv zeta.
  assert (H2 : Some (lit "file-1") <> processed_file_id (session fresh_app))
    by discriminate.
  assert (H3 : cohere_api_key sky_upload <> []) by discriminate.
  assert (H4 : pinecone_api_key sky_upload <> []) by discriminate.
  assert (H5 : value ((let* _ := __init__ (P := streaming_providers) in
                       process_document (P := streaming_providers)
                         (tmp_file_path sky_upload))
                        (object_state blank_object fresh_app)) = Ok tt)
    by (vm_compute; reflexivity).
  split; [reflexivity|]. split; [exact H2|]. split; [exact H3|].
  split; [exact H4|]. split; [exact H5|].
  apply (upload_success_once (P := streaming_providers) sky_upload fresh_app
           {| file_id := lit "file-1"; getvalue := lit "%PDF" |} tt
           eq_refl H2 H3 H4 H5).
Defined.

Lemma upload_failure_retried_witness :
  let a := ready_app in
  let w2 :=
    {| cohere_api_key := lit "co-key"; pinecone_api_key := lit "pc-key";
       uploaded := Some {| file_id := lit "file-2"; getvalue := lit "%PDF" |};
       prompt := None;
       tmp_file_path := lit "/tmp/tmp3.pdf"; uuid4 := lit "c-3" |} in
  let file2 := {| file_id := lit "file-2"; getvalue := lit "%PDF" |} in
  uploaded w2 = Some file2
  /\ Some (file_id file2) <> processed_file_id (session a)
  /\ cohere_api_key w2 <> []
  /\ pinecone_api_key w2 <> []
  /\ value ((let* _ := __init__ (P := offline_providers) in
             process_document (P := offline_providers) (tmp_file_path w2))
              (object_state blank_object a)) = Raise CohereError
  /\ let a1 := (upload_block (P := offline_providers) w2 a).2 in
     chat_history (session a1) = chat_history (session a)
     /\ chatbot (session a1) = chatbot (session a)
     /\ processed_file_id (session a1) = processed_file_id (session a)
     /\ StError (ProcessingFailed CohereError)
        ∈ (upload_block (P := offline_providers) w2 a).1
     /\ last (upload_block (P := offline_providers) w2 a).1
        = Some (OsUnlink (tmp_file_path w2))
     /\ exists rest,
          (upload_block (P := offline_providers) w2 a1).1
          = StSpinner :: TmpWrite (tmp_file_path w2) (getvalue file2) :: rest.
Proof.
  cbv zeta.
  set (w2 := {| cohere_api_key := lit "co-key";
                pinecone_api_key := lit "pc-key";
                uploaded := Some {| file_id := lit "file-2";
                                    getvalue := lit "%PDF" |};
                prompt := None;
                tmp_file_path := lit "/tmp/tmp3.pdf"; uuid4 := lit "c-3" |}).
  assert (H2 : Some (lit "file-2") <> processed_file_id (session ready_app))
    by (vm_compute; discriminate).
  assert (H3 : cohere_api_key w2 <> []) by discriminate.
  assert (H4 : pinecone_api_key w2 <> []) by discriminate.
  assert (H5 : value ((let* _ := __init__ (P := offline_providers) in
                       process_document (P := offline_providers)
                         (tmp_file_path w2))
                        (object_state blank_object ready_app))
               = Raise CohereError)
    by (vm_compute; reflexivity).
  split; [reflexivity|]. split; [exact H2|]. split; [exact H3|].
  split; [exact H4|]. split; [exact H5|].
  apply (upload_failure_retried (P := offline_providers) w2 ready_app
           {| file_id := lit "file-2"; getvalue := lit "%PDF" |} CohereError
           eq_refl H2 H3 H4 H5).
Defined.

Lemma run_without_new_file_witness :
  (forall file, uploaded question_only = Some file ->
     Some (file_id file) = processed_file_id (session ready_app))
  /\ let a' := (script_run (P := streaming_providers) question_only
                  ready_app).2 in
     remote_names a' = remote_names ready_app
     /\ remote_vectors a' = remote_vectors ready_app
     /\ vector_store (session a') = vector_store (session ready_app)
     /\ chatbot (session a') = chatbot (session ready_app)
     /\ processed_file_id (session a')
        = processed_file_id (session ready_app).
Proof.
  assert (H : forall file, uploaded question_only = Some file ->
                Some (file_id file) = processed_file_id (session ready_app))
    by (intros file Hf; discriminate Hf).
  split; [exact H|].
  apply (run_without_new_file (P := streaming_providers) question_only
           ready_app H).
Defined.

Lemma upload_without_embeddings_witness :
  let w := sky_upload in
  let a := fresh_app in
  let file := {| file_id := lit "file-1"; getvalue := lit "%PDF" |} in
  uploaded w = Some file
  /\ Some (file_id file) <> processed_file_id (session a)
  /\ cohere_api_key w <> []
  /\ pinecone_api_key w <> []
  /\ fitz_pages (Providers := silent_providers) (tmp_file_path w)
     = Some [sample_text]
  /\ (forall texts,
        co_embed (Providers := silent_providers) texts search_document
        = Some [])
  /\ let a1 := (upload_block (P := silent_providers) w a).2 in
     StSuccess ProcessingDone ∈ (upload_block (P := silent_providers) w a).1
     /\ remote_names a1 = remote_names a
     /\ remote_vectors a1 = remote_vectors a
     /\ chatbot (session a1)
        = Some {| chatbot_self := {| conversation_id := uuid4 w |};
                  chatbot_vectorstore :=
                    {| object_index := None; object_dimension := 1024%Z |} |}
     /\ forall w' question,
          prompt w' = Some question -> question <> [] ->
          exists rest,
            (chat_block (P := silent_providers) w' a1).1
            = [StChatMessage (lit "user"); StMarkdown question;
               StChatMessage (lit "assistant"); StEmpty]
              ++ map Ran
                   [Printed (MsgUsingQuery [question]);
                    Printed MsgIndexNotInitialized;
                    Printed MsgNoDocuments;
                    CoChatStream question chat_model [] (uuid4 w)]
              ++ rest
            /\ Forall (fun ev => forall e, ev <> Ran e) rest.
Proof.
  cbv zeta.
  assert (H2 : Some (lit "file-1") <> processed_file_id (session fresh_app))
    by discriminate.
  assert (H3 : cohere_api_key sky_upload <> []) by discriminate.
  assert (H4 : pinecone_api_key sky_upload <> []) by discriminate.
  split; [reflexivity|]. split; [exact H2|]. split; [exact H3|].
  split; [exact H4|]. split; [reflexivity|]. split; [reflexivity|].
  apply (upload_without_embeddings (P := silent_providers) sky_upload
           fresh_app {| file_id := lit "file-1"; getvalue := lit "%PDF" |}
           [sample_text] eq_refl H2 H3 H4 eq_refl (fun _ => eq_refl)).
Defined.
